(** * DynastyRosterTracker: acquisition provenance resolver

    A shallow embedding of [src/lib/persistentCache.ts] and of the API layer
    that follows the type declarations in [src/lib/types.ts]
    ([getLeagueTransactions], [getLeagueHistory], [getPlayerAcquisitions]),
    with the properties the specification states about them.

    Conventions of the embedding.
    - JavaScript numbers that the code only ever uses as integers are [Z];
      a timestamp can also be [NaN] (the June-1 placeholder of a season whose
      label is not a year), hence [JS.number].
    - The [acquisitions] object is a [gmap string Acquisition].
    - Results of network requests are inputs: a [remote] function answers
      the requests of the lineage walker and of the transaction fetch, an
      [abortAt] says when the abort signal fires, and the fuser receives
      the per-season data that the aggregation produced.
    - What the host provides and the repository does not define
      ([Number], [Date], [toLocaleDateString], [JSON], the storage quota)
      is a parameter. *)

From Stdlib Require Import ZArith Lia Ascii String.
From stdpp Require Import gmap strings list fin_maps sorting.

Local Open Scope Z_scope.

(* ===================================================================== *)
(** * Part I: the program                                                 *)
(* ===================================================================== *)

(** ** JavaScript values used by the code *)

Module JS.

(** A number that is an integer or [NaN]. *)
Inductive number : Type :=
| Num (z : Z)
| NaN.

(** [if (n)] / [!n]: zero and [NaN] are falsy. *)
Definition truthy (n : number) : bool :=
  match n with
  | Num z => negb (z =? 0)
  | NaN => false
  end.

(** [a > b]: every comparison with [NaN] is false. *)
Definition gt (a b : number) : bool :=
  match a, b with
  | Num x, Num y => y <? x
  | _, _ => false
  end.

(** [if (s)] on a string: only the empty string is falsy. *)
Definition truthyStr (s : string) : bool := negb (String.eqb s "").

(** [if (o)] on [string | null | undefined]. *)
Definition truthyOpt (o : option string) : bool :=
  match o with
  | Some s => truthyStr s
  | None => false
  end.

(** [a % b] on integers: the remainder has the sign of the dividend. *)
Definition rem (a b : Z) : Z := Z.rem a b.

Definition digit (d : Z) : ascii := ascii_of_nat (48 + Z.to_nat d).

(** Decimal digits of a non-negative integer, most significant first. *)
Fixpoint digits (fuel : nat) (n : Z) (acc : string) : string :=
  match fuel with
  | O => acc
  | S f =>
      let acc' := String (digit (n mod 10)) acc in
      if n <? 10 then acc' else digits f (n / 10) acc'
  end.

(** [n.toString()] and [`${n}`] for an integer [n]. *)
Definition toString (z : Z) : string :=
  if z <? 0
  then String "-" (digits (S (Z.to_nat (Z.log2 (- z)))) (- z) "")
  else digits (S (Z.to_nat (Z.log2 z))) z "".

(** [s.toLowerCase()] on ASCII letters. *)
Definition lowerChar (c : ascii) : ascii :=
  let n := nat_of_ascii c in
  if ((65 <=? n) && (n <=? 90))%nat then ascii_of_nat (n + 32) else c.

Fixpoint toLowerCase (s : string) : string :=
  match s with
  | EmptyString => EmptyString
  | String c r => String (lowerChar c) (toLowerCase r)
  end.

(** [s.includes(t)]. *)
Fixpoint includes (s t : string) : bool :=
  String.prefix t s ||
  match s with
  | EmptyString => false
  | String _ r => includes r t
  end.

(** [arr.sort(cmp)] for a comparator that orders consistently: the stable
    sort.  [lt x y] stands for [cmp(x, y) < 0]. *)
Section Sort.
Context {A : Type} (lt : A -> A -> bool).

Fixpoint insertSorted (x : A) (l : list A) : list A :=
  match l with
  | [] => [x]
  | y :: r => if lt x y then x :: y :: r else y :: insertSorted x r
  end.

Definition sort (l : list A) : list A :=
  foldl (fun acc x => insertSorted x acc) [] l.

End Sort.

End JS.

(** ** What the host environment provides to the API layer *)

Class Host : Type := {
  (** [Number(s)] on a draft identifier. *)
  toNumber : string -> JS.number;
  (** [new Date(parseInt(season), 5, 1).getTime()]: local midnight of
      June 1 of that season, [NaN] when the label does not start with a
      number. *)
  juneFirst : string -> JS.number;
  (** [new Date(ms).toLocaleDateString('en-US',
      { month: 'short', day: 'numeric', year: 'numeric' })]. *)
  toLocaleDateString : Z -> string
}.

(** ** [persistentCache.ts] *)

Module Cache.

Record CacheItem (T : Type) : Type := {
  timestamp : Z;
  data : T;
  duration : Z
}.
Arguments timestamp {T} _.
Arguments data {T} _.
Arguments duration {T} _.

(** The browser side of the cache: [JSON] on cache items ([JSON_parse]
    answers [None] where [JSON.parse] throws or yields no item), and the
    storage quota: [localStorage.setItem] throws unless the browser admits
    the content the write would produce. *)
Class Browser (T : Type) : Type := {
  JSON_stringify : CacheItem T -> string;
  JSON_parse : string -> option (CacheItem T);
  admits : gmap string string -> bool
}.

Definition CACHE_PREFIX : string := "sleeperHistoryCache_".
Definition DEFAULT_CACHE_DURATION_MS : Z := 60 * 60 * 1000.
Definition testKey : string := "__testLocalStorage__".

Section WithBrowser.
Context {T : Type} `{Browser T}.

(** [localStorage.setItem(k, v)]; [None] when it throws. *)
Definition setItem (k v : string) (ls : gmap string string)
  : option (gmap string string) :=
  if admits (<[k := v]> ls) then Some (<[k := v]> ls) else None.

Definition removeItem (k : string) (ls : gmap string string)
  : gmap string string := delete k ls.

Definition isLocalStorageAvailable (ls : gmap string string)
  : bool * gmap string string :=
  match setItem testKey testKey ls with
  | Some ls1 => (true, removeItem testKey ls1)
  | None => (false, ls)
  end.

(** [saveToCache(key, data, duration)] at time [now = Date.now()]. *)
Definition saveToCache (key : string) (d : T) (dur : Z) (now : Z)
    (ls : gmap string string) : gmap string string :=
  let '(ok, ls1) := isLocalStorageAvailable ls in
  if negb ok then ls1
  else
    let fullKey := CACHE_PREFIX +:+ key in
    let cacheEntry := {| timestamp := now; data := d; duration := dur |} in
    match setItem fullKey (JSON_stringify cacheEntry) ls1 with
    | Some ls2 => ls2
    | None => ls1
    end.

(** [getFromCache(key)] at time [now = Date.now()]; [None] is the [null]
    of the branches that find no usable entry, [Some d] is
    [return item.data], where [d] is a [null] when the stored data is. *)
Definition getFromCache (key : string) (now : Z) (ls : gmap string string)
  : option T * gmap string string :=
  let '(ok, ls1) := isLocalStorageAvailable ls in
  if negb ok then (None, ls1)
  else
    let fullKey := CACHE_PREFIX +:+ key in
    match ls1 !! fullKey with
    | None => (None, ls1)
    | Some itemStr =>
        if negb (JS.truthyStr itemStr) then (None, ls1)
        else
          match JSON_parse itemStr with
          | Some item =>
              if now - timestamp item <? duration item
              then (Some (data item), ls1)
              else (None, removeItem fullKey ls1)
          | None => (None, removeItem fullKey ls1)
          end
    end.

(** "localStorage is available": the probe of [isLocalStorageAvailable]
    is admitted. *)
Definition available (ls : gmap string string) : Prop :=
  admits (<[testKey := testKey]> ls) = true.

(** The write of [saveToCache] is admitted. *)
Definition writable (key : string) (entry : CacheItem T)
    (ls : gmap string string) : Prop :=
  admits (<[CACHE_PREFIX +:+ key := JSON_stringify entry]>
            (removeItem testKey (<[testKey := testKey]> ls))) = true.

(** [JSON.parse(JSON.stringify(entry))] gives the entry back. *)
Definition serializable (entry : CacheItem T) : Prop :=
  JS.truthyStr (JSON_stringify entry) = true
  /\ JSON_parse (JSON_stringify entry) = Some entry.

End WithBrowser.

End Cache.

(** ** The API layer: data *)

Module Api.

Record SleeperRoster : Type := {
  roster_id : Z;
  owner_id : string;
  players : list string
}.

Record SleeperDraftPick : Type := {
  player_id : string;
  picked_by : string;
  round : Z;
  pick_no : Z
}.

Record TransactionSettings : Type := {
  waiver_bid : option Z
}.

(** [adds] is [null] or an object; its entries are kept in [for ... in]
    order. *)
Record SleeperTransaction : Type := {
  transaction_id : string;
  tx_type : string;
  roster_ids : list Z;
  adds : option (list (string * Z));
  created : Z;
  settings : option TransactionSettings
}.

Record LeagueHistory : Type := {
  league_id : string;
  previousLeagueId : option string;
  season : string
}.

Record LeagueSettings : Type := {
  settings_type : option Z
}.

Record SleeperLeague : Type := {
  total_rosters : Z;
  league_settings : option LeagueSettings
}.

Record DraftInfo : Type := {
  draft_id : string;
  draft_type : option string
}.

Record SeasonDraft : Type := {
  draftInfo : DraftInfo;
  picks : list SleeperDraftPick
}.

Record PlayerAcquisitionData : Type := {
  pa_leagueId : string;
  pa_season : string;
  pa_roster : option SleeperRoster;
  pa_drafts : list SeasonDraft;
  pa_transactions : list SleeperTransaction
}.

(** The values the code stores in the [type] field of a record. *)
Inductive AcquisitionType : Type :=
| Unknown
| StartupDraft
| RookieDraft
| Trade
| WaiverWire
| FreeAgency
| UnknownTransaction
| PreviousOwner.

Definition typeLabel (t : AcquisitionType) : string :=
  match t with
  | Unknown => "Unknown"
  | StartupDraft => "Startup Draft"
  | RookieDraft => "Rookie Draft"
  | Trade => "Trade"
  | WaiverWire => "Waiver Wire"
  | FreeAgency => "Free Agency"
  | UnknownTransaction => "Unknown Transaction"
  | PreviousOwner => "Previous Owner"
  end.

Record Acquisition : Type := {
  acq_type : AcquisitionType;
  details : string;
  timestamp : JS.number
}.

(** [a.type === "Unknown"] *)
Definition isUnknown (a : Acquisition) : bool :=
  String.eqb (typeLabel (acq_type a)) "Unknown".

(** ** Requests *)

(** The answer to one [axios.get]: a body, or a failure that is not a
    cancellation. *)
Inductive Response (A : Type) : Type :=
| Ok (body : A)
| Failed.
Arguments Ok {A} _.
Arguments Failed {A}.

(** The abort signal: [abortAt = Some t] when it fires at the [t]-th point
    at which the running function observes it. *)
Definition aborted (abortAt : option nat) (t : nat) : bool :=
  match abortAt with
  | Some a => (a <=? t)%nat
  | None => false
  end.

Inductive Outcome (A : Type) : Type :=
| Returned (a : A)
| Threw.
Arguments Returned {A} _.
Arguments Threw {A}.

(** ** [getLeagueTransactions] *)

Definition nonEmpty {A : Type} (o : option (list A)) : bool :=
  match o with
  | Some (_ :: _) => true
  | _ => false
  end.

(** The body of [for (currentWeek = 1; currentWeek <= 18; currentWeek++)];
    [queried] records the weeks requested so far.  Week [w] checks the
    signal at point [2 w] and sends its request at point [2 w + 1]. *)
Fixpoint weekLoop (remote : nat -> Response (option (list SleeperTransaction)))
    (abortAt : option nat) (weeks : list nat)
    (allTransactions : list SleeperTransaction) (queried : list nat)
  : Outcome (list SleeperTransaction) * list nat :=
  match weeks with
  | [] => (Returned allTransactions, queried)
  | currentWeek :: rest =>
      if aborted abortAt (2 * currentWeek)%nat then
        (Returned allTransactions, queried)
      else if aborted abortAt (2 * currentWeek + 1)%nat then
        (Returned allTransactions, queried)
      else
        match remote currentWeek with
        | Failed => (Threw, queried ++ [currentWeek])
        | Ok weeklyTransactions =>
            if nonEmpty weeklyTransactions then
              weekLoop remote abortAt rest
                (allTransactions ++ default [] weeklyTransactions)
                (queried ++ [currentWeek])
            else if (4 <? currentWeek)%nat then
              (Returned allTransactions, queried ++ [currentWeek])
            else
              weekLoop remote abortAt rest allTransactions
                (queried ++ [currentWeek])
        end
  end.

(** [sessionCached] is the entry of the session cache when it is fresh. *)
Definition getLeagueTransactions
    (sessionCached : option (list SleeperTransaction))
    (remote : nat -> Response (option (list SleeperTransaction)))
    (abortAt : option nat)
  : Outcome (list SleeperTransaction) * list nat :=
  match sessionCached with
  | Some cachedData => (Returned cachedData, [])
  | None => weekLoop remote abortAt (seq 1 18) [] []
  end.

(** ** [getLeagueHistory] *)

(** The fields of [response.data] that the walker reads. *)
Record LeagueHistoryData : Type := {
  lhd_season : string;
  previous_league_id : option string
}.

Inductive LoopExit : Type :=
| Finished (history : list LeagueHistory)
| AbortError (history : list LeagueHistory)
| RequestError (history : list LeagueHistory)
    (currentLeagueId : option string) (request : nat).

(** The [while] loop.  Iteration [i] checks the signal at point [3 i],
    sends request number [i] at point [3 i + 1] and waits in [delay] at
    point [3 i + 2].  [None]: the fuel ran out. *)
Fixpoint historyLoop (fuel : nat)
    (remote : nat -> string -> Response (option LeagueHistoryData))
    (abortAt : option nat) (i : nat) (currentLeagueId : option string)
    (history : list LeagueHistory) (visitedLeagueIds : gset string)
  : option LoopExit :=
  match fuel with
  | O => None
  | S fuel' =>
      match currentLeagueId with
      | None => Some (Finished history)
      | Some cur =>
          if negb (JS.truthyStr cur && (length history <? 10)%nat
                   && negb (bool_decide (cur ∈ visitedLeagueIds)))
          then Some (Finished history)
          else if aborted abortAt (3 * i)%nat then Some (AbortError history)
          else
            let visited' := {[cur]} ∪ visitedLeagueIds in
            if aborted abortAt (3 * i + 1)%nat then Some (AbortError history)
            else
              match remote i cur with
              | Failed => Some (RequestError history (Some cur) i)
              | Ok None => Some (Finished history)
              | Ok (Some currentLeagueData) =>
                  let history' :=
                    history ++
                    [ {| league_id := cur;
                         previousLeagueId :=
                           previous_league_id currentLeagueData;
                         season := lhd_season currentLeagueData |} ] in
                  let next := previous_league_id currentLeagueData in
                  if JS.truthyOpt next && aborted abortAt (3 * i + 2)%nat
                  then Some (AbortError history')
                  else historyLoop fuel' remote abortAt (S i) next
                         history' visited'
              end
      end
  end.

(** What [getLeagueHistory] returns once the loop has left the [try]. *)
Definition afterLoop
    (remote : nat -> string -> Response (option LeagueHistoryData))
    (abortAt : option nat) (leagueId : string) (exit : LoopExit)
  : list LeagueHistory :=
  match exit with
  | Finished history => rev history
  | AbortError history => rev history
  | RequestError history currentLeagueId i =>
      let degraded :=
        if (0 <? length history)%nat then rev history
        else [ {| league_id := leagueId; previousLeagueId := None;
                  season := "" |} ] in
      if (length history =? 0)%nat
         && bool_decide (Some leagueId = currentLeagueId)
      then
        if aborted abortAt (3 * i + 2)%nat then degraded
        else
          match remote (S i) leagueId with
          | Ok (Some currentLeagueData) =>
              [ {| league_id := leagueId;
                   previousLeagueId := previous_league_id currentLeagueData;
                   season := lhd_season currentLeagueData |} ]
          | _ => degraded
          end
      else degraded
  end.

Definition getLeagueHistoryFuel (fuel : nat)
    (remote : nat -> string -> Response (option LeagueHistoryData))
    (abortAt : option nat) (leagueId : string)
  : option (list LeagueHistory) :=
  afterLoop remote abortAt leagueId
    <$> historyLoop fuel remote abortAt 0 (Some leagueId) [] ∅.

(** Every iteration that goes on has pushed a node, and the loop stops at
    ten nodes: eleven rounds always suffice ([historyLoop_fuel]). *)
Definition getLeagueHistory := getLeagueHistoryFuel 11.

(** ** [getPlayerAcquisitions] *)

(** The state of the first pass over the seasons. *)
Record Lineage : Type := {
  userEarliestSeasonData : option LeagueHistory;
  userDesignatedStartupDraftIdInEarliestSeason : option string;
  draftsExistBeforeUserJoinedThisLineage : bool;
  foundUserInLineage : bool
}.

(** The accumulating result and the counter of the second pass. *)
Record FuseState : Type := {
  acquisitions : gmap string Acquisition;
  userStartupDraftPlayerCount : nat
}.

(** One write into [acquisitions], as the inner loops perform it. *)
Inductive Event : Type :=
| PickEvent (startup : bool) (historicalSeasonMeta : LeagueHistory)
    (pick : SleeperDraftPick)
| AddEvent (transaction : SleeperTransaction) (playerId : string).

Section Resolver.
Context `{Host}.
Context (userId : string) (roster : SleeperRoster).
Context (leagueDetails : option SleeperLeague).
Context (leagueHistoryData : list LeagueHistory).

(** [leagueDetails?.settings?.type === 0] *)
Definition isRedraft : bool :=
  match leagueDetails with
  | Some l =>
      match league_settings l with
      | Some s =>
          match settings_type s with
          | Some t => t =? 0
          | None => false
          end
      | None => false
      end
  | None => false
  end.

(** [leagueDetails?.total_rosters || 12] *)
Definition teamsInLeague : Z :=
  match leagueDetails with
  | Some l => if total_rosters l =? 0 then 12 else total_rosters l
  | None => 12
  end.

(** [(a, b) => Number(a.draftInfo.draft_id) - Number(b.draftInfo.draft_id)]
    is negative. *)
Definition draftBefore (a b : SeasonDraft) : bool :=
  match toNumber (draft_id (draftInfo a)), toNumber (draft_id (draftInfo b)) with
  | JS.Num x, JS.Num y => x - y <? 0
  | _, _ => false
  end.

Definition sortDrafts (l : list SeasonDraft) : list SeasonDraft :=
  JS.sort draftBefore l.

(** [lh => lh.league_id === histData.leagueId && lh.season === histData.season] *)
Definition sameSeason (histData : PlayerAcquisitionData) (lh : LeagueHistory)
  : bool :=
  String.eqb (league_id lh) (pa_leagueId histData)
  && String.eqb (season lh) (pa_season histData).

(** [draft.picks.some(p => p.picked_by === userId)] *)
Definition userParticipated (draft : SeasonDraft) : bool :=
  existsb (fun p => String.eqb (picked_by p) userId) (picks draft).

Definition namedStartup (draft : SeasonDraft) : bool :=
  bool_decide (draft_type (draftInfo draft) = Some "startup"%string)
  || JS.includes (JS.toLowerCase (draft_id (draftInfo draft))) "startup"
  || JS.includes (JS.toLowerCase (draft_id (draftInfo draft))) "initial".

(** The first [for (const draft of sortedDrafts)] of the classifier. *)
Fixpoint designateLoop (sortedDrafts : list SeasonDraft)
    (designated : option string) : option string :=
  match sortedDrafts with
  | [] => designated
  | draft :: rest =>
      if userParticipated draft then
        if namedStartup draft then Some (draft_id (draftInfo draft))
        else
          designateLoop rest
            (if negb (JS.truthyOpt designated)
             then Some (draft_id (draftInfo draft))
             else designated)
      else designateLoop rest designated
  end.

(** The second attempt, taken when the first left nothing truthy. *)
Definition designateAgain (sortedDrafts : list SeasonDraft)
    (designated : option string) : option string :=
  if negb (JS.truthyOpt designated) && (0 <? length sortedDrafts)%nat then
    if existsb userParticipated sortedDrafts then
      match find userParticipated sortedDrafts with
      | Some draft => Some (draft_id (draftInfo draft))
      | None => designated
      end
    else designated
  else designated.

(** One iteration of the first [for (const histData of ...)]. *)
Definition classifySeason (st : Lineage) (histData : PlayerAcquisitionData)
  : Lineage :=
  match pa_roster histData with
  | Some _ =>
      if negb (foundUserInLineage st) then
        let sortedDrafts := sortDrafts (pa_drafts histData) in
        let designated :=
          designateLoop sortedDrafts
            (userDesignatedStartupDraftIdInEarliestSeason st) in
        {| userEarliestSeasonData :=
             find (sameSeason histData) leagueHistoryData;
           userDesignatedStartupDraftIdInEarliestSeason :=
             designateAgain sortedDrafts designated;
           draftsExistBeforeUserJoinedThisLineage :=
             draftsExistBeforeUserJoinedThisLineage st;
           foundUserInLineage := true |}
      else st
  | None =>
      if (0 <? length (pa_drafts histData))%nat
         && negb (foundUserInLineage st)
      then
        {| userEarliestSeasonData := userEarliestSeasonData st;
           userDesignatedStartupDraftIdInEarliestSeason :=
             userDesignatedStartupDraftIdInEarliestSeason st;
           draftsExistBeforeUserJoinedThisLineage := true;
           foundUserInLineage := foundUserInLineage st |}
      else st
  end.

Definition noLineage : Lineage :=
  {| userEarliestSeasonData := None;
     userDesignatedStartupDraftIdInEarliestSeason := None;
     draftsExistBeforeUserJoinedThisLineage := false;
     foundUserInLineage := false |}.

Definition classify (allHistoricalSeasonData : list PlayerAcquisitionData)
  : Lineage :=
  foldl classifySeason noLineage allHistoricalSeasonData.

(** [sort] works in place: the first pass leaves the drafts of the first
    season in which the participant has a roster sorted, and the second
    pass, which sorts the drafts of every season again, starts from that
    array. *)
Fixpoint afterFirstPass (allHistoricalSeasonData : list PlayerAcquisitionData)
  : list PlayerAcquisitionData :=
  match allHistoricalSeasonData with
  | [] => []
  | histData :: rest =>
      match pa_roster histData with
      | Some _ =>
          {| pa_leagueId := pa_leagueId histData;
             pa_season := pa_season histData;
             pa_roster := pa_roster histData;
             pa_drafts := sortDrafts (pa_drafts histData);
             pa_transactions := pa_transactions histData |} :: rest
      | None => histData :: afterFirstPass rest
      end
  end.

(** Is [currentDraftType] "Startup Draft"?  Otherwise it is
    "Rookie Draft". *)
Definition currentDraftIsStartup (lin : Lineage)
    (historicalSeasonMeta : LeagueHistory) (draft : DraftInfo) : bool :=
  if isRedraft then true
  else
    negb (draftsExistBeforeUserJoinedThisLineage lin)
    && match userEarliestSeasonData lin with
       | Some earliest =>
           String.eqb (season historicalSeasonMeta) (season earliest)
       | None => false
       end
    && bool_decide
         (Some (draft_id draft)
          = userDesignatedStartupDraftIdInEarliestSeason lin).

Definition pickInRound (pick : SleeperDraftPick) : Z :=
  if JS.rem (pick_no pick) teamsInLeague =? 0 then teamsInLeague
  else JS.rem (pick_no pick) teamsInLeague.

Definition formattedPickNumber (pick : SleeperDraftPick) : string :=
  if pickInRound pick <? 10
  then "0" +:+ JS.toString (pickInRound pick)
  else JS.toString (pickInRound pick).

Definition pickDetails (startup : bool) (historicalSeasonMeta : LeagueHistory)
    (pick : SleeperDraftPick) : string :=
  if startup
  then JS.toString (round pick) +:+ "." +:+ formattedPickNumber pick
  else season historicalSeasonMeta +:+ " " +:+ JS.toString (round pick)
       +:+ "." +:+ formattedPickNumber pick.

(** The body of [for (const pick of userPicksInThisDraft)]. *)
Definition applyPick (startup : bool) (historicalSeasonMeta : LeagueHistory)
    (st : FuseState) (pick : SleeperDraftPick) : FuseState :=
  if JS.truthyStr (player_id pick)
     && match acquisitions st !! player_id pick with
        | Some a => isUnknown a || negb (JS.truthy (timestamp a))
        | None => true
        end
  then
    {| acquisitions :=
         <[ player_id pick :=
              {| acq_type := if startup then StartupDraft else RookieDraft;
                 details := pickDetails startup historicalSeasonMeta pick;
                 timestamp := juneFirst (season historicalSeasonMeta) |} ]>
           (acquisitions st);
       userStartupDraftPlayerCount :=
         if startup then S (userStartupDraftPlayerCount st)
         else userStartupDraftPlayerCount st |}
  else st.

(** The condition under which a transaction overwrites the record of a
    roster player. *)
Definition transactionOverwrites (currentAcquisition : option Acquisition)
    (transactionTime : Z) : bool :=
  match currentAcquisition with
  | None => true
  | Some cur =>
      isUnknown cur
      || (negb (transactionTime =? 0)
          && (negb (JS.truthy (timestamp cur))
              || JS.gt (JS.Num transactionTime) (timestamp cur)))
  end.

Definition waiverBid (transaction : SleeperTransaction) : option Z :=
  match settings transaction with
  | Some s =>
      match waiver_bid s with
      | Some b => if b =? 0 then None else Some b
      | None => None
      end
  | None => None
  end.

(** The record a transaction writes. *)
Definition transactionRecord (transaction : SleeperTransaction) : Acquisition :=
  let date := toLocaleDateString (created transaction) in
  let acquired := "Acquired on " +:+ date in
  if String.eqb (tx_type transaction) "trade" then
    {| acq_type := Trade; details := acquired;
       timestamp := JS.Num (created transaction) |}
  else if String.eqb (tx_type transaction) "waiver" then
    {| acq_type := WaiverWire;
       details :=
         match waiverBid transaction with
         | Some b => "Paid " +:+ JS.toString b +:+ " FAAB on " +:+ date
         | None => acquired
         end;
       timestamp := JS.Num (created transaction) |}
  else if String.eqb (tx_type transaction) "free_agent" then
    {| acq_type := FreeAgency; details := acquired;
       timestamp := JS.Num (created transaction) |}
  else
    {| acq_type := UnknownTransaction; details := acquired;
       timestamp := JS.Num (created transaction) |}.

(** The body of [for (const playerId in transaction.adds)]. *)
Definition applyAdd (transaction : SleeperTransaction) (st : FuseState)
    (playerId : string) : FuseState :=
  if existsb (String.eqb playerId) (players roster) then
    if transactionOverwrites (acquisitions st !! playerId)
         (created transaction)
    then
      {| acquisitions :=
           <[ playerId := transactionRecord transaction ]> (acquisitions st);
         userStartupDraftPlayerCount := userStartupDraftPlayerCount st |}
    else st
  else st.

Definition applyEvent (st : FuseState) (e : Event) : FuseState :=
  match e with
  | PickEvent startup historicalSeasonMeta pick =>
      applyPick startup historicalSeasonMeta st pick
  | AddEvent transaction playerId => applyAdd transaction st playerId
  end.

(** The body of [for (const draftData of sortedDraftsInternal)]. *)
Definition applyDraft (lin : Lineage) (historicalSeasonMeta : LeagueHistory)
    (st : FuseState) (draftData : SeasonDraft) : FuseState :=
  let userPicksInThisDraft :=
    List.filter (fun p => String.eqb (picked_by p) userId)
      (picks draftData) in
  if (length userPicksInThisDraft =? 0)%nat then st
  else
    foldl
      (applyPick
         (currentDraftIsStartup lin historicalSeasonMeta (draftInfo draftData))
         historicalSeasonMeta)
      st userPicksInThisDraft.

(** The body of [for (const transaction of (transactions || []))]. *)
Definition applyTransaction (userRosterThisSeason : SleeperRoster)
    (st : FuseState) (transaction : SleeperTransaction) : FuseState :=
  if negb (existsb (Z.eqb (roster_id userRosterThisSeason))
             (roster_ids transaction))
  then st
  else
    match adds transaction with
    | Some entries => foldl (applyAdd transaction) st (fst <$> entries)
    | None => st
    end.

(** One iteration of the second [for (const histData of ...)]. *)
Definition fuseSeason (lin : Lineage) (st : FuseState)
    (histData : PlayerAcquisitionData) : FuseState :=
  match pa_roster histData with
  | None => st
  | Some userRosterThisSeason =>
      match find (sameSeason histData) leagueHistoryData with
      | None => st
      | Some historicalSeasonMeta =>
          let st1 :=
            foldl (applyDraft lin historicalSeasonMeta) st
              (sortDrafts (pa_drafts histData)) in
          foldl (applyTransaction userRosterThisSeason) st1
            (pa_transactions histData)
      end
  end.

(** [roster.players.forEach(playerId => acquisitions[playerId] = ...)] *)
Definition initialAcquisitions : gmap string Acquisition :=
  foldl
    (fun acc playerId =>
       <[ playerId := {| acq_type := Unknown; details := "";
                         timestamp := JS.Num 0 |} ]> acc)
    ∅ (players roster).

Definition fuse (lin : Lineage)
    (allHistoricalSeasonData : list PlayerAcquisitionData) : FuseState :=
  foldl (fuseSeason lin)
    {| acquisitions := initialAcquisitions;
       userStartupDraftPlayerCount := 0 |}
    allHistoricalSeasonData.

(** The condition of the final [if]. *)
Definition fallbackApplies (lin : Lineage) (count : nat) : bool :=
  draftsExistBeforeUserJoinedThisLineage lin
  || (foundUserInLineage lin && (count =? 0)%nat
      && JS.truthyOpt (userDesignatedStartupDraftIdInEarliestSeason lin))
  || (foundUserInLineage lin
      && negb (JS.truthyOpt (userDesignatedStartupDraftIdInEarliestSeason lin)))
  || negb (foundUserInLineage lin).

Definition previousOwner (a : Acquisition) : Acquisition :=
  if isUnknown a
  then {| acq_type := PreviousOwner;
          details := "On roster when user took over team";
          timestamp := JS.Num 0 |}
  else a.

(** [getPlayerAcquisitions] on a run that is not cancelled and whose data
    has the declared types (nothing throws outside the per-season fetches,
    whose failures are caught).  [cachedData] is the persistent-cache entry,
    [leagueDetails] the answer of [getLeagueDetails], [leagueHistoryData]
    the answer of [getLeagueHistory], [allHistoricalSeasonDataRaw] the
    joined per-season results ([None] for a season whose fetch failed). *)
Definition getPlayerAcquisitions
    (cachedData : option (gmap string Acquisition))
    (allHistoricalSeasonDataRaw : list (option PlayerAcquisitionData))
  : gmap string Acquisition :=
  match cachedData with
  | Some cached => cached
  | None =>
      if (length leagueHistoryData =? 0)%nat then initialAcquisitions
      else
        let allHistoricalSeasonData := omap id allHistoricalSeasonDataRaw in
        let lin := classify allHistoricalSeasonData in
        let st := fuse lin (afterFirstPass allHistoricalSeasonData) in
        if fallbackApplies lin (userStartupDraftPlayerCount st)
        then previousOwner <$> acquisitions st
        else acquisitions st
  end.

(** The writes of the second pass, in the order the loops perform them. *)
Definition draftEvents (lin : Lineage) (historicalSeasonMeta : LeagueHistory)
    (draftData : SeasonDraft) : list Event :=
  let userPicksInThisDraft :=
    List.filter (fun p => String.eqb (picked_by p) userId)
      (picks draftData) in
  if (length userPicksInThisDraft =? 0)%nat then []
  else
    PickEvent
      (currentDraftIsStartup lin historicalSeasonMeta (draftInfo draftData))
      historicalSeasonMeta
    <$> userPicksInThisDraft.

Definition transactionEvents (userRosterThisSeason : SleeperRoster)
    (transaction : SleeperTransaction) : list Event :=
  if negb (existsb (Z.eqb (roster_id userRosterThisSeason))
             (roster_ids transaction))
  then []
  else
    match adds transaction with
    | Some entries => AddEvent transaction <$> (fst <$> entries)
    | None => []
    end.

Definition seasonEvents (lin : Lineage) (histData : PlayerAcquisitionData)
  : list Event :=
  match pa_roster histData with
  | None => []
  | Some userRosterThisSeason =>
      match find (sameSeason histData) leagueHistoryData with
      | None => []
      | Some historicalSeasonMeta =>
          (sortDrafts (pa_drafts histData)
             ≫= draftEvents lin historicalSeasonMeta)
          ++ (pa_transactions histData
                ≫= transactionEvents userRosterThisSeason)
      end
  end.

Definition fuseEvents (lin : Lineage)
    (allHistoricalSeasonData : list PlayerAcquisitionData) : list Event :=
  allHistoricalSeasonData ≫= seasonEvents lin.

End Resolver.

End Api.

(** ** A host: UTC, English dates *)

Module UtcHost.

Definition isDigit (c : ascii) : bool :=
  let n := nat_of_ascii c in ((48 <=? n) && (n <=? 57))%nat.

Definition digitValue (c : ascii) : Z := Z.of_nat (nat_of_ascii c) - 48.

(** The number read from the leading decimal digits, if there is one. *)
Fixpoint leadingDigits (s : string) (acc : option Z) : option Z :=
  match s with
  | String c r =>
      if isDigit c
      then leadingDigits r (Some (10 * default 0 acc + digitValue c))
      else acc
  | EmptyString => acc
  end.

Fixpoint allDigits (s : string) : bool :=
  match s with
  | String c r => isDigit c && allDigits r
  | EmptyString => true
  end.

(** [Number(s)] on unsigned decimal literals and on the empty string. *)
Definition number (s : string) : JS.number :=
  if allDigits s then JS.Num (default 0 (leadingDigits s None)) else JS.NaN.

(** Days from 1970-01-01 to the civil date [y]-[m]-[d]. *)
Definition daysFromCivil (y m d : Z) : Z :=
  let y' := if m <=? 2 then y - 1 else y in
  let era := y' / 400 in
  let yoe := y' - era * 400 in
  let doy := (153 * (if 2 <? m then m - 3 else m + 9) + 2) / 5 + d - 1 in
  let doe := yoe * 365 + yoe / 4 - yoe / 100 + doy in
  era * 146097 + doe - 719468.

(** The civil date, as year, month and day, of a day number. *)
Definition civilFromDays (z : Z) : Z * Z * Z :=
  let z' := z + 719468 in
  let era := z' / 146097 in
  let doe := z' - era * 146097 in
  let yoe := (doe - doe / 1460 + doe / 36524 - doe / 146096) / 365 in
  let doy := doe - (365 * yoe + yoe / 4 - yoe / 100) in
  let mp := (5 * doy + 2) / 153 in
  let d := doy - (153 * mp + 2) / 5 + 1 in
  let m := if mp <? 10 then mp + 3 else mp - 9 in
  (yoe + era * 400 + (if m <=? 2 then 1 else 0), m, d).

Definition msPerDay : Z := 86400000.

(** [new Date(parseInt(season), 5, 1).getTime()] in UTC; a year below 100
    counts from 1900. *)
Definition juneFirstUtc (season : string) : JS.number :=
  match leadingDigits season None with
  | Some y =>
      JS.Num (daysFromCivil (if y <? 100 then 1900 + y else y) 6 1 * msPerDay)
  | None => JS.NaN
  end.

Definition monthName (m : Z) : string :=
  nth (Z.to_nat (m - 1))
    ["Jan"; "Feb"; "Mar"; "Apr"; "May"; "Jun";
     "Jul"; "Aug"; "Sep"; "Oct"; "Nov"; "Dec"]%string "".

Definition formatDate (ms : Z) : string :=
  let '(y, m, d) := civilFromDays (ms / msPerDay) in
  monthName m +:+ " " +:+ JS.toString d +:+ ", " +:+ JS.toString y.

#[export] Instance host : Host := {
  toNumber := number;
  juneFirst := juneFirstUtc;
  toLocaleDateString := formatDate
}.

End UtcHost.

(** ** A browser that stores integers *)

Module PlainBrowser.
Import Cache.

Fixpoint splitOn (sep : ascii) (s : string) (cur : string) : list string :=
  match s with
  | EmptyString => [cur]
  | String c r =>
      if Ascii.eqb c sep then cur :: splitOn sep r EmptyString
      else splitOn sep r (cur +:+ String c EmptyString)
  end.

Definition parseZ (s : string) : option Z :=
  match s with
  | EmptyString => None
  | String c r =>
      if Ascii.eqb c "-" then
        if UtcHost.allDigits r
        then Z.opp <$> UtcHost.leadingDigits r None else None
      else
        if UtcHost.allDigits s then UtcHost.leadingDigits s None else None
  end.

(** An item as [{timestamp,data,duration}]. *)
Definition stringify (item : CacheItem Z) : string :=
  "{" +:+ JS.toString (timestamp item) +:+ "," +:+ JS.toString (data item)
  +:+ "," +:+ JS.toString (duration item) +:+ "}".

Definition parse (s : string) : option (CacheItem Z) :=
  match s with
  | String "{" r =>
      match splitOn "}" r EmptyString with
      | [body; EmptyString] =>
          match splitOn "," body EmptyString with
          | [a; b; c] =>
              ts ← parseZ a; d ← parseZ b; dur ← parseZ c;
              Some {| timestamp := ts; data := d; duration := dur |}
          | _ => None
          end
      | _ => None
      end
  | _ => None
  end.

(** A quota of [capacity] entries. *)
Definition browser (capacity : nat) : Browser Z := {|
  JSON_stringify := stringify;
  JSON_parse := parse;
  admits := fun ls => (size ls <=? capacity)%nat
|}.

End PlainBrowser.

(** ** A browser whose quota counts characters *)

Module ByteBrowser.
Import Cache.

(** The characters the storage holds, keys and values. *)
Definition used (ls : gmap string string) : nat :=
  map_fold (fun k v n => (String.length k + String.length v + n)%nat) O ls.

(** A quota of [capacity] characters. *)
Definition browser (capacity : nat) : Browser Z := {|
  JSON_stringify := PlainBrowser.stringify;
  JSON_parse := PlainBrowser.parse;
  admits := fun ls => (used ls <=? capacity)%nat
|}.

End ByteBrowser.

(** ** The specification's words, for comparison with the code *)

Module Spec.

(** "zero-padded to two digits" *)
Definition padStart2 (s : string) : string :=
  if (String.length s <? 2)%nat then "0" +:+ s else s.

(** "[((pickNumber - 1) mod teamsInLeague) + 1], zero-padded to two
    digits" *)
Definition slot (pickNumber teamsInLeague : Z) : string :=
  padStart2 (JS.toString ((pickNumber - 1) mod teamsInLeague + 1)).

End Spec.

(** ** Properties of fetched data, and the claims as the specification
    words them *)

Module Props.
Import Api.

(** The list a week contributes. *)
Definition weekly (remote : nat -> Response (option (list SleeperTransaction)))
    (w : nat) : list SleeperTransaction :=
  match remote w with
  | Ok (Some l) => l
  | _ => []
  end.

Definition emptyWeek (remote : nat -> Response (option (list SleeperTransaction)))
    (w : nat) : bool :=
  match remote w with
  | Ok body => negb (nonEmpty body)
  | Failed => false
  end.

(** "terminates early only after several consecutive weeks past week 4
    return empty lists": a fetch that asked for weeks [1..n] and stopped
    short of week 18 has seen at least two empty weeks in a row, [m..n]
    with [4 < m < n]. *)
Definition stopsOnlyAfterSeveralEmptyWeeks
    (remote : nat -> Response (option (list SleeperTransaction)))
    (queried : list nat) : Prop :=
  forall n : nat, queried = seq 1 n -> (n < 18)%nat ->
    exists m : nat, (4 < m)%nat /\ (m < n)%nat
      /\ forall w : nat, (m <= w <= n)%nat -> emptyWeek remote w = true.

(** Oldest season first: every node points back to the node before it. *)
Inductive chronological : list LeagueHistory -> Prop :=
| chrono_nil : chronological []
| chrono_one (a : LeagueHistory) : chronological [a]
| chrono_cons (a b : LeagueHistory) (l : list LeagueHistory) :
    previousLeagueId b = Some (league_id a) ->
    chronological (b :: l) ->
    chronological (a :: b :: l).

(** "a single-node sequence containing just the starting league with an
    empty season label" *)
Definition degradedHistory (leagueId : string) : list LeagueHistory :=
  [ {| league_id := leagueId; previousLeagueId := None; season := "" |} ].

(** What holds of [history], [visitedLeagueIds] and [currentLeagueId] at
    the head of the [while] loop. *)
Record walkInv (leagueId : string) (currentLeagueId : option string)
    (history : list LeagueHistory) (visited : gset string) : Prop := {
  inv_chrono : chronological (rev history);
  inv_nodup : NoDup (league_id <$> history);
  inv_visited : forall n, n ∈ history -> league_id n ∈ visited;
  inv_next :
    match rev history with
    | [] => currentLeagueId = Some leagueId
    | newest :: _ => currentLeagueId = previousLeagueId newest
    end;
  inv_start : forall n, head history = Some n -> league_id n = leagueId
}.

(** What holds of the history a loop exit hands over. *)
Record exitOk (leagueId : string) (history : list LeagueHistory) : Prop := {
  exit_chrono : chronological (rev history);
  exit_nodup : NoDup (league_id <$> history);
  exit_length : (length history <= 10)%nat;
  exit_start : forall n, head history = Some n -> league_id n = leagueId
}.

Definition exitHistory (e : LoopExit) : list LeagueHistory :=
  match e with
  | Finished h | AbortError h | RequestError h _ _ => h
  end.

(** A record that is there and whose kind is known. *)
Definition known (acq : gmap string Acquisition) (p : string) : Prop :=
  exists r : Acquisition, acq !! p = Some r /\ acq_type r <> Unknown.

(** An event that does not write "Rookie Draft". *)
Definition startupEvent (e : Event) : Prop :=
  match e with
  | PickEvent startup _ _ => startup = true
  | AddEvent _ _ => True
  end.

(** The record every roster player starts with. *)
Definition unknownRecord : Acquisition :=
  {| acq_type := Unknown; details := ""; timestamp := JS.Num 0 |}.

End Props.

(** ** Concrete upstream data *)

Module Examples.
Import Api.

Definition tx (id : string) (kind : string) (rosters : list Z)
    (added : list (string * Z)) (at_ : Z) : SleeperTransaction :=
  {| transaction_id := id; tx_type := kind; roster_ids := rosters;
     adds := Some added; created := at_; settings := None |}.

(** Weeks 1 to 4 and week 6 each hold one transaction, week 5 and the
    weeks after week 6 hold none. *)
Definition quietWeekFive (w : nat) : Response (option (list SleeperTransaction)) :=
  if ((w <=? 4) || (w =? 6))%nat
  then Ok (Some [tx "t" "free_agent" [1] [("4866"%string, 1)] (Z.of_nat w)])
  else Ok (Some []).

(** The first request for league "L1" fails, every later one answers with
    season 2024. *)
Definition failsOnce (request : nat) (leagueId : string)
  : Response (option LeagueHistoryData) :=
  if (request =? 0)%nat then Failed
  else Ok (Some {| lhd_season := "2024"; previous_league_id := None |}).

(** Every request fails. *)
Definition alwaysFails (request : nat) (leagueId : string)
  : Response (option LeagueHistoryData) := Failed.

(** "L3" follows "L2", which follows "L1". *)
Definition threeSeasons (request : nat) (leagueId : string)
  : Response (option LeagueHistoryData) :=
  if String.eqb leagueId "L3"
  then Ok (Some {| lhd_season := "2024"; previous_league_id := Some "L2"%string |})
  else if String.eqb leagueId "L2"
  then Ok (Some {| lhd_season := "2023"; previous_league_id := Some "L1"%string |})
  else Ok (Some {| lhd_season := "2022"; previous_league_id := None |}).

(** A dynasty league of twelve teams in its first season. *)
Definition dynasty : option SleeperLeague :=
  Some {| total_rosters := 12;
          league_settings := Some {| settings_type := Some 2 |} |}.

(** A redraft league of twelve teams. *)
Definition redraft : option SleeperLeague :=
  Some {| total_rosters := 12;
          league_settings := Some {| settings_type := Some 0 |} |}.

Definition oneSeason : list LeagueHistory :=
  [ {| league_id := "L1"; previousLeagueId := None; season := "2023" |} ].

(** The participant "u1" holds the players "4866" and "6794". *)
Definition myRoster : SleeperRoster :=
  {| roster_id := 1; owner_id := "u1"; players := ["4866"; "6794"]%string |}.

Definition pickOf (player : string) (r n : Z) : SleeperDraftPick :=
  {| player_id := player; picked_by := "u1"; round := r; pick_no := n |}.

(** The only draft of the season: "u1" picked "4866"; nothing is known
    about "6794". *)
Definition startupOnly : list (option PlayerAcquisitionData) :=
  [ Some {| pa_leagueId := "L1"; pa_season := "2023";
            pa_roster := Some myRoster;
            pa_drafts :=
              [ {| draftInfo := {| draft_id := "100"; draft_type := None |};
                   picks := [ pickOf "4866" 1 3 ] |} ];
            pa_transactions := [] |} ].

(** As before, and "u1" also picked "1234", who has left the roster
    since. *)
Definition draftedAndGone : list (option PlayerAcquisitionData) :=
  [ Some {| pa_leagueId := "L1"; pa_season := "2023";
            pa_roster := Some myRoster;
            pa_drafts :=
              [ {| draftInfo := {| draft_id := "100"; draft_type := None |};
                   picks := [ pickOf "4866" 1 3; pickOf "1234" 2 22 ] |} ];
            pa_transactions :=
              [ tx "t1" "trade" [1; 2] [("6794"%string, 1)] 1700000000000 ] |} ].

Definition season2023 : LeagueHistory :=
  {| league_id := "L1"; previousLeagueId := None; season := "2023" |}.

(** A keeper league of ten teams. *)
Definition tenTeams : option SleeperLeague :=
  Some {| total_rosters := 10;
          league_settings := Some {| settings_type := Some 1 |} |}.

(** The trade of November 2023 that brings "4866". *)
Definition lateTrade : SleeperTransaction :=
  tx "t9" "trade" [1; 2] [("4866"%string, 1)] 1700000000000.

(** The only season of a degraded lineage, whose label is empty: "u1"
    picked "4866" in its draft. *)
Definition undatedDraft : list (option PlayerAcquisitionData) :=
  [ Some {| pa_leagueId := "L1"; pa_season := "";
            pa_roster := Some myRoster;
            pa_drafts :=
              [ {| draftInfo := {| draft_id := "100"; draft_type := None |};
                   picks := [ pickOf "4866" 1 3 ] |} ];
            pa_transactions := [] |} ].

(** As before, and "4866" then came back by [lateTrade]. *)
Definition undatedTrade : list (option PlayerAcquisitionData) :=
  [ Some {| pa_leagueId := "L1"; pa_season := "";
            pa_roster := Some myRoster;
            pa_drafts :=
              [ {| draftInfo := {| draft_id := "100"; draft_type := None |};
                   picks := [ pickOf "4866" 1 3 ] |} ];
            pa_transactions := [ lateTrade ] |} ].

(** The overall pick 24, made in round 2. *)
Definition pick24 : SleeperDraftPick := pickOf "4866" 2 24.

(** "6794" came from the rookie draft of 2023. *)
Definition rookieState : FuseState :=
  {| acquisitions :=
       {[ "6794"%string :=
            {| acq_type := RookieDraft; details := "2023 1.03";
               timestamp := JS.Num 1685577600000 |} ]};
     userStartupDraftPlayerCount := 0 |}.

(** "4866" came by a trade in November 2023. *)
Definition tradedState : FuseState :=
  {| acquisitions :=
       {[ "4866"%string :=
            {| acq_type := Trade; details := "Acquired on Nov 14, 2023";
               timestamp := JS.Num 1700000000000 |} ]};
     userStartupDraftPlayerCount := 0 |}.

Definition novemberTrade : SleeperTransaction :=
  tx "t1" "trade" [1; 2] [("6794"%string, 1)] 1700000000000.

End Examples.

(** ** [persistentCache.ts]: validity, clearing, keys *)

Module CacheOps.
Import Cache.

Section WithBrowser.
Context {T : Type} `{Browser T}.

(** [isCacheValid(key)] at time [now]. *)
Definition isCacheValid (key : string) (now : Z) (ls : gmap string string)
  : bool * gmap string string :=
  let '(ok, ls1) := isLocalStorageAvailable ls in
  if negb ok then (false, ls1)
  else
    let fullKey := CACHE_PREFIX +:+ key in
    match ls1 !! fullKey with
    | None => (false, ls1)
    | Some itemStr =>
        if negb (JS.truthyStr itemStr) then (false, ls1)
        else
          match JSON_parse itemStr with
          | Some item => (now - timestamp item <? duration item, ls1)
          | None => (false, ls1)
          end
    end.

(** What the caller of [getFromCache] can tell from the value it
    receives: [null] after a miss, and [null] too for an entry whose data
    is [null] or [undefined]; [isNullish] says which values of [T] these
    are. *)
Definition received (isNullish : T -> bool) (r : option T) : option T :=
  match r with
  | Some d => if isNullish d then None else Some d
  | None => None
  end.

(** The body of the [forEach] of [clearAllCache]. *)
Definition clearKey (ls : gmap string string) (key : string)
  : gmap string string :=
  if String.prefix CACHE_PREFIX key then removeItem key ls else ls.

(** [clearAllCache()]: [Object.keys(localStorage)] is taken once, before
    the first removal. *)
Definition clearAllCache (ls : gmap string string) : gmap string string :=
  let '(ok, ls1) := isLocalStorageAvailable ls in
  if negb ok then ls1
  else foldl clearKey ls1 (map_to_list ls1).*1.

End WithBrowser.

Definition getAllPlayersCacheKey : string := "allPlayers".

Definition getUserLeaguesCacheKey (userId season : string) : string :=
  "userLeagues_" +:+ userId +:+ "_" +:+ season.

Definition getPlayerAcquisitionsCacheKey (userId leagueId : string) : string :=
  "playerAcquisitions_" +:+ userId +:+ "_" +:+ leagueId.

Definition getLeagueDetailsCacheKey (leagueId : string) : string :=
  "leagueBasicDetails_" +:+ leagueId.

(** No underscore occurs in the string. *)
Fixpoint noUnderscore (s : string) : bool :=
  match s with
  | EmptyString => true
  | String c r => negb (Ascii.eqb c "_") && noUnderscore r
  end.

End CacheOps.

(** ** The session caches of the API layer *)

Module Session.
Import Api.

Record CacheEntry (T : Type) : Type := {
  ce_data : T;
  ce_timestamp : Z
}.
Arguments ce_data {T} _.
Arguments ce_timestamp {T} _.

Definition SESSION_CACHE_EXPIRATION : Z := 60 * 60 * 1000.

(** [cached && (now - cached.timestamp < SESSION_CACHE_EXPIRATION)], with
    the data of the entry. *)
Definition sessionHit {T : Type} (cache : gmap string (CacheEntry T))
    (cacheKey : string) (now : Z) : option T :=
  match cache !! cacheKey with
  | Some entry =>
      if now - ce_timestamp entry <? SESSION_CACHE_EXPIRATION
      then Some (ce_data entry) else None
  | None => None
  end.

(** The common body of [getLeagueDrafts] and [getDraftPicks], which differ
    in the key prefix, the address and the type of the items: a fresh
    entry is returned as it is; otherwise the request is sent at point 0
    (a cancelled request returns the empty list, a failed one throws) and
    the answer is stored unless the signal has fired by point 1. *)
Definition cachedList {A : Type} (prefix : string) (id : string) (now : Z)
    (remote : Response (option (list A))) (abortAt : option nat)
    (cache : gmap string (CacheEntry (list A)))
  : Outcome (list A) * gmap string (CacheEntry (list A)) :=
  let cacheKey := prefix +:+ id in
  match sessionHit cache cacheKey now with
  | Some cachedData => (Returned cachedData, cache)
  | None =>
      if aborted abortAt 0 then (Returned [], cache)
      else
        match remote with
        | Failed => (Threw, cache)
        | Ok body =>
            let items := default [] body in
            (Returned items,
             if aborted abortAt 1 then cache
             else <[cacheKey := {| ce_data := items; ce_timestamp := now |}]>
                    cache)
        end
  end.

Definition getLeagueDrafts (leagueId : string) (now : Z)
    (remote : Response (option (list DraftInfo))) (abortAt : option nat)
    (sessionDraftCache : gmap string (CacheEntry (list DraftInfo))) :=
  cachedList "leagueDrafts_" leagueId now remote abortAt sessionDraftCache.

Definition getDraftPicks (draftId : string) (now : Z)
    (remote : Response (option (list SleeperDraftPick)))
    (abortAt : option nat)
    (sessionPicksCache : gmap string (CacheEntry (list SleeperDraftPick))) :=
  cachedList "draftPicks_" draftId now remote abortAt sessionPicksCache.

(** How the weekly loop of [getLeagueTransactions] is left. *)
Inductive WeekExit : Type :=
| WeekDone (allTransactions : list SleeperTransaction)
| WeekAborted (allTransactions : list SleeperTransaction)
| WeekFailed.

(** The loop of [Api.weekLoop], keeping apart the ways it ends. *)
Fixpoint weekLoopExit
    (remote : nat -> Response (option (list SleeperTransaction)))
    (abortAt : option nat) (weeks : list nat)
    (allTransactions : list SleeperTransaction) : WeekExit :=
  match weeks with
  | [] => WeekDone allTransactions
  | currentWeek :: rest =>
      if aborted abortAt (2 * currentWeek)%nat then
        WeekAborted allTransactions
      else if aborted abortAt (2 * currentWeek + 1)%nat then
        WeekAborted allTransactions
      else
        match remote currentWeek with
        | Failed => WeekFailed
        | Ok weeklyTransactions =>
            if nonEmpty weeklyTransactions then
              weekLoopExit remote abortAt rest
                (allTransactions ++ default [] weeklyTransactions)
            else if (4 <? currentWeek)%nat then WeekDone allTransactions
            else weekLoopExit remote abortAt rest allTransactions
        end
  end.

(** [getLeagueTransactions] with its session cache.  The signal is looked
    at once more after the loop, at point 38, before the result is
    stored. *)
Definition getLeagueTransactions (leagueId : string) (now : Z)
    (remote : nat -> Response (option (list SleeperTransaction)))
    (abortAt : option nat)
    (sessionTransactionsCache
       : gmap string (CacheEntry (list SleeperTransaction)))
  : Outcome (list SleeperTransaction)
    * gmap string (CacheEntry (list SleeperTransaction)) :=
  let cacheKey := "leagueTransactions_" +:+ leagueId in
  match sessionHit sessionTransactionsCache cacheKey now with
  | Some cachedData => (Returned cachedData, sessionTransactionsCache)
  | None =>
      match weekLoopExit remote abortAt (seq 1 18) [] with
      | WeekDone allTransactions =>
          (Returned allTransactions,
           if aborted abortAt 38 then sessionTransactionsCache
           else <[cacheKey := {| ce_data := allTransactions;
                                 ce_timestamp := now |}]>
                  sessionTransactionsCache)
      | WeekAborted allTransactions =>
          (Returned allTransactions, sessionTransactionsCache)
      | WeekFailed => (Threw, sessionTransactionsCache)
      end
  end.

(** What the caller of the weekly loop sees of its exit. *)
Definition exitOutcome (e : WeekExit) : Outcome (list SleeperTransaction) :=
  match e with
  | WeekDone allTransactions => Returned allTransactions
  | WeekAborted allTransactions => Returned allTransactions
  | WeekFailed => Threw
  end.

End Session.

(** ** [getLeagueDetails] and the league card *)

Module League.
Import Cache CacheOps.

Record Settings : Type := {
  type : option Z;
  reserve_slots : option Z;
  taxi_slots : option Z;
  playoff_teams : option Z;
  daily_waivers_hour : option Z;
  waiver_budget : option Z
}.

(** A league as the API answers it; [status] and [settings] are missing
    from what the cache holds. *)
Record League : Type := {
  league_id : string;
  name : string;
  season : string;
  status : option string;
  total_rosters : Z;
  roster_positions : list string;
  previous_league_id : option string;
  settings : option Settings
}.

(** [essentialLeagueDetails] *)
Definition essentialLeagueDetails (fullLeagueDetails : League) : League :=
  {| league_id := league_id fullLeagueDetails;
     name := name fullLeagueDetails;
     season := season fullLeagueDetails;
     status := None;
     total_rosters := total_rosters fullLeagueDetails;
     roster_positions := roster_positions fullLeagueDetails;
     previous_league_id := previous_league_id fullLeagueDetails;
     settings :=
       match settings fullLeagueDetails with
       | Some s =>
           Some {| type := type s; reserve_slots := None; taxi_slots := None;
                   playoff_teams := None; daily_waivers_hour := None;
                   waiver_budget := None |}
       | None => None
       end |}.

(** What [getPlayerAcquisitions] reads of the league details. *)
Definition resolverView (league : League) : Api.SleeperLeague :=
  {| Api.total_rosters := total_rosters league;
     Api.league_settings :=
       match settings league with
       | Some s => Some {| Api.settings_type := type s |}
       | None => None
       end |}.

(** [getLeagueDetails(leagueId, signal)]: the cache is read at [nowRead];
    the request, if it is sent, is answered by [remote] and its answer is
    saved at [nowSave]. *)
Definition getLeagueDetails `{Browser League} (leagueId : string)
    (nowRead nowSave : Z) (remote : Api.Response (option League))
    (abortAt : option nat) (ls : gmap string string)
  : option League * gmap string string :=
  let persistentCacheKey := getLeagueDetailsCacheKey leagueId in
  let '(cachedData, ls1) := getFromCache persistentCacheKey nowRead ls in
  match cachedData with
  | Some cached => (Some cached, ls1)
  | None =>
      if negb (JS.truthyStr leagueId) then (None, ls1)
      else if Api.aborted abortAt 0 then (None, ls1)
      else
        match remote with
        | Api.Ok (Some fullLeagueDetails) =>
            (Some fullLeagueDetails,
             saveToCache persistentCacheKey
               (essentialLeagueDetails fullLeagueDetails)
               DEFAULT_CACHE_DURATION_MS nowSave ls1)
        | Api.Ok None => (None, ls1)
        | Api.Failed => (None, ls1)
        end
  end.

(** [getLeagueType(league)] of the league card. *)
Definition getLeagueType (league : option League) : string :=
  match league with
  | None => "N/A"
  | Some l =>
      let byPointer :=
        if JS.truthyOpt (previous_league_id l) then "Dynasty" else "Redraft" in
      match settings l with
      | Some s =>
          match type s with
          | Some t =>
              if t =? 2 then "Dynasty"
              else if t =? 1 then "Keeper"
              else if t =? 0 then "Redraft"
              else byPointer
          | None => byPointer
          end
      | None => byPointer
      end
  end.

End League.

(** ** A browser that stores leagues *)

Module LeagueBrowser.
Import Cache League.

Definition optZ (o : option Z) : string :=
  match o with
  | Some z => JS.toString z
  | None => ""
  end.

Definition parseOptZ (s : string) : option (option Z) :=
  match s with
  | EmptyString => Some None
  | _ => Some <$> PlainBrowser.parseZ s
  end.

Definition optStr (o : option string) : string :=
  match o with
  | Some s => "+" +:+ s
  | None => "-"
  end.

Definition parseOptStr (s : string) : option (option string) :=
  match s with
  | String "+" r => Some (Some r)
  | String "-" EmptyString => Some None
  | _ => None
  end.

Fixpoint joinWith (sep : string) (l : list string) : string :=
  match l with
  | [] => ""
  | [x] => x
  | x :: r => x +:+ sep +:+ joinWith sep r
  end.

Definition settingsFields (o : option Settings) : list string :=
  match o with
  | Some s =>
      [ "+"%string; optZ (type s); optZ (reserve_slots s); optZ (taxi_slots s);
        optZ (playoff_teams s); optZ (daily_waivers_hour s);
        optZ (waiver_budget s) ]
  | None => [ "-"%string; ""%string; ""%string; ""%string; ""%string;
              ""%string; ""%string ]
  end.

(** The fields of an item, separated by bars; the positions are separated
    by commas. *)
Definition stringify (item : CacheItem League) : string :=
  let l := data item in
  joinWith "|"
    ([ JS.toString (timestamp item); JS.toString (duration item);
       league_id l; name l; season l; optStr (status l);
       JS.toString (total_rosters l); joinWith "," (roster_positions l);
       optStr (previous_league_id l) ] ++ settingsFields (settings l)).

Definition parseSettings (flag a b c d e f : string) : option (option Settings) :=
  match flag with
  | String "-" EmptyString => Some None
  | String "+" EmptyString =>
      t ← parseOptZ a; r ← parseOptZ b; x ← parseOptZ c;
      p ← parseOptZ d; w ← parseOptZ e; g ← parseOptZ f;
      Some (Some {| type := t; reserve_slots := r; taxi_slots := x;
                    playoff_teams := p; daily_waivers_hour := w;
                    waiver_budget := g |})
  | _ => None
  end.

Definition parse (s : string) : option (CacheItem League) :=
  match PlainBrowser.splitOn "|" s EmptyString with
  | [ts; dur; lid; nm; ssn; st; tr; pos; prev; flag; a; b; c; d; e; f] =>
      ts' ← PlainBrowser.parseZ ts; dur' ← PlainBrowser.parseZ dur;
      st' ← parseOptStr st; tr' ← PlainBrowser.parseZ tr;
      prev' ← parseOptStr prev; set' ← parseSettings flag a b c d e f;
      Some {| timestamp := ts'; duration := dur';
              data := {| league_id := lid; name := nm; season := ssn;
                         status := st'; total_rosters := tr';
                         roster_positions :=
                           match pos with
                           | EmptyString => []
                           | _ => PlainBrowser.splitOn "," pos EmptyString
                           end;
                         previous_league_id := prev'; settings := set' |} |}
  | _ => None
  end.

Definition browser (capacity : nat) : Browser League := {|
  JSON_stringify := stringify;
  JSON_parse := parse;
  admits := fun ls => (size ls <=? capacity)%nat
|}.

(** A dynasty league in its second season, as the API answers it. *)
Definition secondSeason : League :=
  {| league_id := "L2"; name := "Dynasty"; season := "2024";
     status := Some "in_season"%string; total_rosters := 10;
     roster_positions := ["QB"; "RB"; "WR"; "SUPER_FLEX"]%string;
     previous_league_id := Some "L1"%string;
     settings :=
       Some {| type := Some 2; reserve_slots := Some 3; taxi_slots := Some 4;
               playoff_teams := Some 6; daily_waivers_hour := Some 0;
               waiver_budget := Some 100 |} |}.

End LeagueBrowser.

(** ** Further properties of the fuser's data *)

Module ResolverProps.
Import Api.

(** The number a draft identifier stands for, when it is one. *)
Definition draftNumber `{Host} (d : SeasonDraft) : Z :=
  match toNumber (draft_id (draftInfo d)) with
  | JS.Num z => z
  | JS.NaN => 0
  end.

Definition numericDraft `{Host} (d : SeasonDraft) : Prop :=
  exists z : Z, toNumber (draft_id (draftInfo d)) = JS.Num z.

(** The season lacks the participant's roster. *)
Definition noRoster (d : PlayerAcquisitionData) : Prop := pa_roster d = None.

(** The draft the classifier prefers: the first one the participant picked
    in that is named a startup draft, and failing that the first one the
    participant picked in. *)
Definition firstChoice (userId : string) (sortedDrafts : list SeasonDraft)
  : option SeasonDraft :=
  match find (fun d => userParticipated userId d && namedStartup d)
          sortedDrafts with
  | Some d => Some d
  | None => find (userParticipated userId) sortedDrafts
  end.

(** The record the final pass gives a player nothing is known about. *)
Definition previousOwnerRecord : Acquisition :=
  {| acq_type := PreviousOwner;
     details := "On roster when user took over team";
     timestamp := JS.Num 0 |}.

(** A draft pick by [userId] of player [p] in one of the seasons. *)
Definition draftedBy (userId : string)
    (allHistoricalSeasonDataRaw : list (option PlayerAcquisitionData))
    (p : string) : Prop :=
  exists (d : PlayerAcquisitionData) (draft : SeasonDraft)
         (pick : SleeperDraftPick),
    Some d ∈ allHistoricalSeasonDataRaw
    /\ draft ∈ pa_drafts d
    /\ pick ∈ picks draft
    /\ picked_by pick = userId
    /\ player_id pick = p.

(** The record of [p] is dated [t] or later and its kind is known. *)
Definition datedSince (acq : gmap string Acquisition) (p : string) (t : Z)
  : Prop :=
  exists (r : Acquisition) (t' : Z),
    acq !! p = Some r /\ timestamp r = JS.Num t' /\ t <= t'
    /\ acq_type r <> Unknown.

End ResolverProps.

(** ** Chains of leagues *)

Module Chains.
Import Api.

(** The node the walker records for league [id] with answer [data]. *)
Definition nodeOf (id : string) (data : LeagueHistoryData) : LeagueHistory :=
  {| league_id := id; previousLeagueId := previous_league_id data;
     season := lhd_season data |}.

(** [chainFrom info cur chain]: following the previous-league pointers
    from [cur], with [info] the body the API answers for a league, visits
    the leagues of [chain], newest first, and then meets a missing
    pointer or a league without a body. *)
Inductive chainFrom (info : string -> option LeagueHistoryData)
  : option string -> list LeagueHistory -> Prop :=
| chain_stop (cur : option string) :
    JS.truthyOpt cur = false -> chainFrom info cur []
| chain_missing (id : string) :
    JS.truthyStr id = true -> info id = None -> chainFrom info (Some id) []
| chain_step (id : string) (data : LeagueHistoryData)
    (rest : list LeagueHistory) :
    JS.truthyStr id = true -> info id = Some data ->
    chainFrom info (previous_league_id data) rest ->
    chainFrom info (Some id) (nodeOf id data :: rest).

(** A network on which every request is answered, with [info]. *)
Definition reliable (info : string -> option LeagueHistoryData)
    (request : nat) (leagueId : string)
  : Response (option LeagueHistoryData) := Ok (info leagueId).

End Chains.

(** ** [getUserSeasons] *)

Module Seasons.
Import Api Session.

(** [parseInt(s)] on a string that starts with decimal digits, and on one
    that holds no number. *)
Definition parseInt (s : string) : JS.number :=
  match UtcHost.leadingDigits s None with
  | Some z => JS.Num z
  | None => JS.NaN
  end.

(** [Array.from({ length: currentYear - 2017 + 1 },
      (_, i) => (currentYear - i + 1).toString()).reverse()] *)
Definition potentialYears (currentYear : Z) : list string :=
  rev ((fun i : nat => JS.toString (currentYear - Z.of_nat i + 1))
         <$> seq 0 (Z.to_nat (currentYear - 2017 + 1))).

(** The loop over the years: iteration [k] looks at the signal at point
    [k] and throws when it has fired; [leaguesOf year] is what
    [getUserLeagues] returns for the year. *)
Fixpoint yearLoop {L : Type} (leaguesOf : string -> option (list L))
    (abortAt : option nat) (k : nat) (years : list string)
    (availableYears : list string) : Outcome (list string) :=
  match years with
  | [] => Returned availableYears
  | year :: rest =>
      if aborted abortAt k then Threw
      else
        yearLoop leaguesOf abortAt (S k) rest
          (if nonEmpty (leaguesOf year) then availableYears ++ [year]
           else availableYears)
  end.

(** [(a, b) => parseInt(b) - parseInt(a)] is negative. *)
Definition laterYear (a b : string) : bool :=
  match parseInt b, parseInt a with
  | JS.Num x, JS.Num y => x - y <? 0
  | _, _ => false
  end.

Definition getUserSeasons {L : Type} (userId : string) (currentYear now : Z)
    (leaguesOf : string -> option (list L)) (abortAt : option nat)
    (sessionUserSeasonsCache : gmap string (CacheEntry (list string)))
  : Outcome (list string) * gmap string (CacheEntry (list string)) :=
  match sessionHit sessionUserSeasonsCache userId now with
  | Some cachedData => (Returned cachedData, sessionUserSeasonsCache)
  | None =>
      match yearLoop leaguesOf abortAt 0 (potentialYears currentYear) [] with
      | Returned availableYears =>
          let sortedYears := JS.sort laterYear availableYears in
          (Returned sortedYears,
           <[userId := {| ce_data := sortedYears; ce_timestamp := now |}]>
             sessionUserSeasonsCache)
      | Threw => (Threw, sessionUserSeasonsCache)
      end
  end.

End Seasons.

(** ** The player table and the summary card *)

Module Table.
Import Api.

Record SleeperPlayer : Type := {
  sp_player_id : string;
  sp_name : string;
  full_name : string;
  position : string;
  team : string;
  avatar_url : option string
}.

Record PlayerRow : Type := {
  id : string;
  name : string;
  avatarUrl : string;
  row_position : string;
  row_team : string;
  acquisitionType : string;
  acquisitionDetails : string;
  acquisitionDate : option string
}.

(** [s || d] on strings. *)
Definition orElse (s d : string) : string :=
  if JS.truthyStr s then s else d.

(** [acquisition.timestamp ? new Date(acquisition.timestamp).toISOString()
    : undefined]; a missing record has no timestamp. *)
Definition dateOf (toISOString : Z -> string) (a : option Acquisition)
  : option string :=
  match a with
  | Some r =>
      match timestamp r with
      | JS.Num z => if z =? 0 then None else Some (toISOString z)
      | JS.NaN => None
      end
  | None => None
  end.

(** The body of [for (const playerId of userRoster.players)] in
    [fetchPlayerData], on a run that is not cancelled. *)
Definition pushRow (toISOString : Z -> string)
    (playersInfo : gmap string SleeperPlayer)
    (acquisitionsData : gmap string Acquisition)
    (mappedPlayers : list PlayerRow) (playerId : string) : list PlayerRow :=
  match playersInfo !! playerId with
  | Some playerInfo =>
      let acquisition := acquisitionsData !! playerId in
      mappedPlayers ++
      [ {| id := playerId;
           name := orElse (full_name playerInfo) "Unknown Player";
           avatarUrl := default "" (avatar_url playerInfo);
           row_position := orElse (position playerInfo) "N/A";
           row_team := orElse (team playerInfo) "NFL";
           acquisitionType :=
             match acquisition with
             | Some r => typeLabel (acq_type r)
             | None => "Unknown"
             end;
           acquisitionDetails :=
             match acquisition with
             | Some r => details r
             | None => ""
             end;
           acquisitionDate := dateOf toISOString acquisition |} ]
  | None => mappedPlayers
  end.

Definition mappedPlayers (toISOString : Z -> string)
    (playersInfo : gmap string SleeperPlayer)
    (acquisitionsData : gmap string Acquisition)
    (players : list string) : list PlayerRow :=
  foldl (pushRow toISOString playersInfo acquisitionsData) [] players.






End Table.

(* ===================================================================== *)
(** * Part II: properties                                                 *)
(* ===================================================================== *)

(** ** Decimal numerals *)

Module JSFacts.
Import JS.

Lemma digits_length_le (fuel : nat) : forall (n : Z) (acc : string),
  (String.length acc <= String.length (digits fuel n acc))%nat.
Proof.
  induction fuel as [|fuel IH]; intros n acc; simpl; [lia|].
  destruct (n <? 10); simpl; [lia|].
  etransitivity; [|apply IH]. simpl. lia.
Qed.

Lemma digits_length_lt (fuel : nat) (n : Z) (acc : string) :
  (String.length acc < String.length (digits (S fuel) n acc))%nat.
Proof.
  simpl. destruct (n <? 10); simpl; [lia|].
  eapply Nat.lt_le_trans; [|apply digits_length_le]. simpl. lia.
Qed.

Lemma toString_one_digit (x : Z) :
  0 <= x < 10 -> toString x = String (digit x) EmptyString.
Proof.
  intros Hx. unfold toString.
  destruct (Z.ltb_spec x 0) as [?|_]; [lia|].
  simpl. destruct (Z.ltb_spec x 10) as [_|?]; [|lia].
  by rewrite Z.mod_small.
Qed.

Lemma toString_two_digits (x : Z) :
  10 <= x -> (2 <= String.length (toString x))%nat.
Proof.
  intros Hx. unfold toString.
  destruct (Z.ltb_spec x 0) as [?|_]; [lia|].
  assert (3 <= Z.log2 x) as Hlog by (apply Z.log2_le_pow2; simpl; lia).
  destruct (Z.to_nat (Z.log2 x)) as [|fuel] eqn:Hfuel; [lia|].
  cbn [digits]. destruct (Z.ltb_spec x 10) as [?|_]; [lia|].
  pose proof (digits_length_lt fuel (x / 10)
                (String (digit (x mod 10)) EmptyString)) as Hlen.
  simpl in Hlen. simpl. lia.
Qed.

End JSFacts.

(** ** The pick slot *)

Module SlotFacts.
Import Api.

Lemma pickInRound_formula (leagueDetails : option SleeperLeague)
    (pick : SleeperDraftPick) :
  1 <= pick_no pick -> 1 <= teamsInLeague leagueDetails ->
  pickInRound leagueDetails pick
  = (pick_no pick - 1) mod teamsInLeague leagueDetails + 1.
Proof.
  intros Hn Ht. unfold pickInRound, JS.rem.
  set (n := pick_no pick) in *. set (t := teamsInLeague leagueDetails) in *.
  rewrite Z.rem_mod_nonneg by lia.
  pose proof (Z.mod_pos_bound n t ltac:(lia)) as Hr.
  pose proof (Z.div_mod n t ltac:(lia)) as Hdm.
  destruct (Z.eqb_spec (n mod t) 0) as [H0|H0].
  - assert ((n - 1) mod t = t - 1) as ->; [|lia].
    symmetry. apply (Z.mod_unique _ _ (n / t - 1)); lia.
  - assert ((n - 1) mod t = n mod t - 1) as ->; [|lia].
    symmetry. apply (Z.mod_unique _ _ (n / t)); lia.
Qed.

Lemma pickInRound_range (leagueDetails : option SleeperLeague)
    (pick : SleeperDraftPick) :
  1 <= pick_no pick -> 1 <= teamsInLeague leagueDetails ->
  1 <= pickInRound leagueDetails pick <= teamsInLeague leagueDetails.
Proof.
  intros Hn Ht. rewrite pickInRound_formula by done.
  pose proof (Z.mod_pos_bound (pick_no pick - 1)
                (teamsInLeague leagueDetails) ltac:(lia)). lia.
Qed.

(** C5. For a pick with overall number [n >= 1] in a league of [t >= 1]
    teams, where [t] is the league's [total_rosters], or 12 when the
    league details are missing or give no count, the slot the fuser
    formats is [((n - 1) mod t) + 1] padded with a zero to two digits;
    with twelve teams pick 24 has slot "12" (detail "2.12" for a startup
    pick of round 2) and pick 25 has slot "01" (detail "3.01" for a startup
    pick of round 3). *)
Theorem pick_slot_formula (leagueDetails : option SleeperLeague)
    (pick : SleeperDraftPick) (historicalSeasonMeta : LeagueHistory)
    (t : Z) :
  1 <= pick_no pick ->
  1 <= t ->
  match leagueDetails with
  | Some l => total_rosters l = t \/ (total_rosters l = 0 /\ t = 12)
  | None => t = 12
  end ->
  teamsInLeague leagueDetails = t
  /\ formattedPickNumber leagueDetails pick = Spec.slot (pick_no pick) t
  /\ (t = 12 -> pick_no pick = 24 ->
      formattedPickNumber leagueDetails pick = "12"%string
      /\ (round pick = 2 ->
          pickDetails leagueDetails true historicalSeasonMeta pick
          = "2.12"%string))
  /\ (t = 12 -> pick_no pick = 25 ->
      formattedPickNumber leagueDetails pick = "01"%string
      /\ (round pick = 3 ->
          pickDetails leagueDetails true historicalSeasonMeta pick
          = "3.01"%string)).
Proof.
  intros Hn Ht Hteams.
  assert (teamsInLeague leagueDetails = t) as Hcount.
  { unfold teamsInLeague. destruct leagueDetails as [l|]; [|done].
    destruct Hteams as [<-|[-> ->]]; [|done].
    by destruct (Z.eqb_spec (total_rosters l) 0); [lia|]. }
  split; [exact Hcount|]. split; [|split].
  - rewrite <- Hcount in Ht |- *.
    unfold formattedPickNumber, Spec.slot, Spec.padStart2.
    rewrite <- pickInRound_formula by done.
    pose proof (pickInRound_range leagueDetails pick Hn Ht) as Hr.
    destruct (Z.ltb_spec (pickInRound leagueDetails pick) 10) as [Hlt|Hge].
    + by rewrite JSFacts.toString_one_digit by lia.
    + pose proof (JSFacts.toString_two_digits _ Hge) as Hlen.
      by destruct (Nat.ltb_spec
                     (String.length
                        (JS.toString (pickInRound leagueDetails pick))) 2);
        [lia|].
  - unfold pickDetails, formattedPickNumber, pickInRound. rewrite Hcount.
    intros -> ->. split; [reflexivity | by intros ->].
  - unfold pickDetails, formattedPickNumber, pickInRound. rewrite Hcount.
    intros -> ->. split; [reflexivity | by intros ->].
Qed.

Lemma pick_slot_formula_witness :
  teamsInLeague Examples.tenTeams = 10
  /\ formattedPickNumber Examples.tenTeams Examples.pick24 = "04"%string
  /\ formattedPickNumber None Examples.pick24 = "12"%string
  /\ pickDetails None true Examples.season2023 Examples.pick24
     = "2.12"%string.
Proof.
  destruct (pick_slot_formula Examples.tenTeams Examples.pick24
              Examples.season2023 10)
    as (Hten & Hslot & _); [simpl; lia | lia | by left |].
  destruct (pick_slot_formula None Examples.pick24 Examples.season2023 12)
    as (_ & _ & H24 & _); [simpl; lia | lia | reflexivity |].
  destruct (H24 eq_refl eq_refl) as [Hslot12 Hdetail].
  split; [exact Hten|]. split; [exact Hslot|].
  split; [exact Hslot12 | exact (Hdetail eq_refl)].
Defined.

End SlotFacts.

(** ** The persistent cache *)

Module CacheFacts.
Import Cache.

Lemma fullKey_not_testKey (key : string) : CACHE_PREFIX +:+ key <> testKey.
Proof. unfold CACHE_PREFIX, testKey. simpl. discriminate. Qed.

Section WithBrowser.
Context {T : Type} `{Browser T}.

Lemma probe_available (ls : gmap string string) :
  available ls -> isLocalStorageAvailable ls = (true, delete testKey ls).
Proof.
  unfold available, isLocalStorageAvailable, setItem, removeItem.
  intros ->. by rewrite delete_insert_eq.
Qed.

Lemma saveToCache_stored (key : string) (v : T) (d now : Z)
    (ls : gmap string string) :
  let entry := {| timestamp := now; data := v; duration := d |} in
  available ls -> writable key entry ls ->
  saveToCache key v d now ls
  = <[CACHE_PREFIX +:+ key := JSON_stringify entry]> (delete testKey ls).
Proof.
  intros entry Hav Hw. unfold saveToCache.
  rewrite (probe_available _ Hav). cbn [negb].
  unfold writable, removeItem in Hw. rewrite delete_insert_eq in Hw.
  unfold setItem. subst entry. by rewrite Hw.
Qed.

Lemma getFromCache_absent (key : string) (now : Z) (ls : gmap string string) :
  ls !! (CACHE_PREFIX +:+ key) = None -> (getFromCache key now ls).1 = None.
Proof.
  intros Hnone. unfold getFromCache.
  destruct (isLocalStorageAvailable ls) as [ok ls1] eqn:Hprobe.
  destruct ok; cbn [negb]; [|done].
  assert (ls1 !! (CACHE_PREFIX +:+ key) = None) as ->; [|done].
  unfold isLocalStorageAvailable, setItem, removeItem in Hprobe.
  destruct (admits _); [|done]. injection Hprobe as <-.
  rewrite delete_insert_eq.
  by rewrite lookup_delete_ne by (symmetry; apply fullKey_not_testKey).
Qed.

End WithBrowser.

(** C10. With [localStorage] available and the write admitted, after
    [saveToCache key v d] at time [now] of a value that survives
    [JSON.parse (JSON.stringify _)], [getFromCache key] less than [d]
    milliseconds later returns [v], and at [d] milliseconds or later it
    returns [null]; [getFromCache] of a key that the storage does not hold
    returns [null]. *)
Theorem cache_save_then_get {T : Type} `{Browser T}
    (key : string) (v : T) (d now later : Z) (ls : gmap string string) :
  let entry := {| timestamp := now; data := v; duration := d |} in
  0 < d ->
  available ls ->
  writable key entry ls ->
  available (saveToCache key v d now ls) ->
  serializable entry ->
  (later - now < d ->
   (getFromCache key later (saveToCache key v d now ls)).1 = Some v)
  /\ (d <= later - now ->
      (getFromCache key later (saveToCache key v d now ls)).1 = None)
  /\ (forall other : string,
        ls !! (CACHE_PREFIX +:+ other) = None ->
        (getFromCache other later ls).1 = None).
Proof.
  intros entry _ Hav Hw Hav' [Hne Hrt].
  split; [|split].
  - intros Hfresh. unfold getFromCache.
    rewrite (probe_available _ Hav'). cbn [negb].
    rewrite (saveToCache_stored key v d now ls Hav Hw).
    rewrite lookup_delete_ne by (symmetry; apply fullKey_not_testKey).
    rewrite lookup_insert_eq. subst entry. rewrite Hne. cbn [negb].
    rewrite Hrt. cbn [timestamp data duration].
    by destruct (Z.ltb_spec (later - now) d); [|lia].
  - intros Hstale. unfold getFromCache.
    rewrite (probe_available _ Hav'). cbn [negb].
    rewrite (saveToCache_stored key v d now ls Hav Hw).
    rewrite lookup_delete_ne by (symmetry; apply fullKey_not_testKey).
    rewrite lookup_insert_eq. subst entry. rewrite Hne. cbn [negb].
    rewrite Hrt. cbn [timestamp data duration].
    by destruct (Z.ltb_spec (later - now) d); [lia|].
  - intros other Hnone. by apply getFromCache_absent.
Qed.

Lemma cache_save_then_get_witness :
  (getFromCache (H := PlainBrowser.browser 8) "roster" 5500
     (saveToCache (H := PlainBrowser.browser 8) "roster" 42 1000 5000 ∅)).1
  = Some 42
  /\ (getFromCache (H := PlainBrowser.browser 8) "roster" 6000
        (saveToCache (H := PlainBrowser.browser 8) "roster" 42 1000 5000 ∅)).1
     = None.
Proof.
  pose (B := PlainBrowser.browser 8).
  assert (0 < 1000) as Hd by lia.
  assert (@available Z B ∅) as Hav by (vm_compute; reflexivity).
  assert (@writable Z B "roster"
            {| timestamp := 5000; data := 42; duration := 1000 |} ∅) as Hw
    by (vm_compute; reflexivity).
  assert (@available Z B (@saveToCache Z B "roster" 42 1000 5000 ∅)) as Hav'
    by (vm_compute; reflexivity).
  assert (@serializable Z B
            {| timestamp := 5000; data := 42; duration := 1000 |}) as Hs
    by (split; vm_compute; reflexivity).
  split.
  - apply (proj1 (@cache_save_then_get Z B "roster" 42 1000 5000 5500 ∅
                    Hd Hav Hw Hav' Hs)). lia.
  - apply (proj1 (proj2 (@cache_save_then_get Z B "roster" 42 1000 5000 6000 ∅
                           Hd Hav Hw Hav' Hs))). lia.
Defined.

(** C10, as the specification words it, fails: the value is serializable,
    the duration positive and [localStorage] available at both calls, but
    the quota refuses the write of the entry; [saveToCache] swallows the
    error, and the read right after the save returns [null]. *)
Lemma refused_write_is_not_read_back :
  available (H := ByteBrowser.browser 50) ∅
  /\ serializable (H := ByteBrowser.browser 50)
       {| timestamp := 5000; data := 42; duration := 1000 |}
  /\ available (H := ByteBrowser.browser 50)
       (saveToCache (H := ByteBrowser.browser 50)
          "playerAcquisitions_u1_L1" 42 1000 5000 ∅)
  /\ ~ writable (H := ByteBrowser.browser 50) "playerAcquisitions_u1_L1"
         {| timestamp := 5000; data := 42; duration := 1000 |} ∅
  /\ (getFromCache (H := ByteBrowser.browser 50)
        "playerAcquisitions_u1_L1" 5001
        (saveToCache (H := ByteBrowser.browser 50)
           "playerAcquisitions_u1_L1" 42 1000 5000 ∅)).1
     = None.
Proof.
  split; [|split; [|split; [|split]]]; try (vm_compute; reflexivity).
  - split; vm_compute; reflexivity.
  - unfold writable. vm_compute. discriminate.
Qed.

End CacheFacts.

(** ** The weekly transaction fetch *)

Module TransactionFacts.
Import Api Props.

Section Loop.
Context (remote : nat -> Response (option (list SleeperTransaction))).

Lemma weekly_nonEmpty (w : nat) (body : option (list SleeperTransaction)) :
  remote w = Ok body -> nonEmpty body = true -> weekly remote w = default [] body.
Proof. unfold weekly. intros ->. by destruct body as [[|]|]. Qed.

Lemma weekly_empty (w : nat) (body : option (list SleeperTransaction)) :
  remote w = Ok body -> nonEmpty body = false -> weekly remote w = [].
Proof. unfold weekly. intros ->. by destruct body as [[|]|]. Qed.

(** The loop over the weeks [a, a+1, ..., a+k-1] without cancellation and
    without a failing request: it asks for the first [m] of them, in
    order, and returns what they hold; it stops early only on an empty
    week after week 4, and no earlier week after week 4 was empty. *)
Lemma weekLoop_seq (k : nat) :
  forall (a : nat) (allTransactions : list SleeperTransaction)
         (queried : list nat),
  (forall w : nat, (a <= w < a + k)%nat -> remote w <> Failed) ->
  exists m : nat,
    (m <= k)%nat
    /\ weekLoop remote None (seq a k) allTransactions queried
       = (Returned (allTransactions ++ concat (weekly remote <$> seq a m)),
          queried ++ seq a m)
    /\ ((m < k)%nat ->
        (0 < m)%nat /\ (4 < a + m - 1)%nat
        /\ emptyWeek remote (a + m - 1) = true)
    /\ (forall w : nat, (a <= w < a + m - 1)%nat -> (4 < w)%nat ->
        emptyWeek remote w = false).
Proof.
  induction k as [|k IH]; intros a allTransactions queried Hok.
  - exists 0%nat. simpl. rewrite !app_nil_r. repeat split; lia.
  - cbn [seq weekLoop aborted].
    destruct (remote a) as [body|] eqn:Hbody; [|by destruct (Hok a); [lia|]].
    destruct (nonEmpty body) eqn:Hne.
    + destruct (IH (S a) (allTransactions ++ default [] body)
                  (queried ++ [a])) as (m & Hm & Hrun & Hstop & Hbefore).
      { intros w Hw. apply Hok. lia. }
      exists (S m). split; [lia|]. split; [|split].
      * rewrite Hrun. cbn [seq fmap list_fmap concat].
        rewrite (weekly_nonEmpty a body Hbody Hne).
        by rewrite <- !app_assoc.
      * intros Hlt. destruct (Hstop ltac:(lia)) as (H0 & H4 & He).
        split; [lia|].
        replace (a + S m - 1)%nat with (S a + m - 1)%nat by lia. done.
      * intros w Hw H4. destruct (decide (w = a)) as [->|Hne'].
        -- unfold emptyWeek. by rewrite Hbody, Hne.
        -- apply Hbefore; lia.
    + destruct (Nat.ltb_spec 4 a) as [H4|H4].
      * exists 1%nat. split; [lia|]. split; [|split].
        -- cbn [seq fmap list_fmap concat].
           rewrite (weekly_empty a body Hbody Hne). by rewrite !app_nil_r.
        -- intros _. replace (a + 1 - 1)%nat with a by lia.
           split; [lia|]. split; [done|].
           unfold emptyWeek. by rewrite Hbody, Hne.
        -- intros w Hw. lia.
      * destruct (IH (S a) allTransactions (queried ++ [a]))
          as (m & Hm & Hrun & Hstop & Hbefore).
        { intros w Hw. apply Hok. lia. }
        exists (S m). split; [lia|]. split; [|split].
        -- rewrite Hrun. cbn [seq fmap list_fmap concat].
           rewrite (weekly_empty a body Hbody Hne).
           by rewrite <- !app_assoc.
        -- intros Hlt. destruct (Hstop ltac:(lia)) as (H0 & H4' & He).
           split; [lia|].
           replace (a + S m - 1)%nat with (S a + m - 1)%nat by lia. done.
        -- intros w Hw H4'. destruct (decide (w = a)) as [->|Hne']; [lia|].
           apply Hbefore; lia.
Qed.

End Loop.

(** C9, as the code has it. Without a fresh session-cache entry, without
    cancellation and with every request answered, the fetch asks for the
    weeks [1..n] in order, where [n] is the first week after week 4 whose
    list is empty, or 18 when there is none; it returns the concatenation
    of the lists of the weeks [1..n]. *)
Theorem transactions_stop_at_first_empty_week
    (remote : nat -> Response (option (list SleeperTransaction))) :
  (forall w : nat, (1 <= w <= 18)%nat -> remote w <> Failed) ->
  exists n : nat,
    (5 <= n <= 18)%nat
    /\ getLeagueTransactions None remote None
       = (Returned (concat (weekly remote <$> seq 1 n)), seq 1 n)
    /\ ((n < 18)%nat -> emptyWeek remote n = true)
    /\ (forall w : nat, (4 < w < n)%nat -> emptyWeek remote w = false).
Proof.
  intros Hok.
  destruct (weekLoop_seq remote 18 1 [] [])
    as (m & Hm & Hrun & Hstop & Hbefore).
  { intros w Hw. apply Hok. lia. }
  exists m. unfold getLeagueTransactions. rewrite Hrun.
  assert (5 <= m)%nat as H5.
  { destruct (decide (m < 18)%nat) as [Hlt|]; [|lia].
    destruct (Hstop Hlt). lia. }
  split; [lia|]. split; [done|]. split.
  - intros Hlt. destruct (Hstop Hlt) as (_ & _ & He).
    by replace (1 + m - 1)%nat with m in He by lia.
  - intros w Hw. apply Hbefore; lia.
Qed.

Lemma transactions_stop_at_first_empty_week_witness :
  exists n : nat,
    (5 <= n <= 18)%nat
    /\ getLeagueTransactions None Examples.quietWeekFive None
       = (Returned (concat (weekly Examples.quietWeekFive <$> seq 1 n)),
          seq 1 n).
Proof.
  destruct (transactions_stop_at_first_empty_week Examples.quietWeekFive)
    as (n & Hn & Hrun & _).
  - intros w _. unfold Examples.quietWeekFive.
    destruct ((w <=? 4) || (w =? 6))%nat; discriminate.
  - exists n. split; [exact Hn | exact Hrun].
Defined.

(** C9, as the specification words it, fails: week 5 alone is empty
    (weeks 4 and 6 hold transactions), and the fetch stops there. *)
Lemma transactions_stop_after_one_empty_week :
  (getLeagueTransactions None Examples.quietWeekFive None).2 = [1; 2; 3; 4; 5]%nat
  /\ emptyWeek Examples.quietWeekFive 4 = false
  /\ emptyWeek Examples.quietWeekFive 6 = false
  /\ ~ stopsOnlyAfterSeveralEmptyWeeks Examples.quietWeekFive
         (getLeagueTransactions None Examples.quietWeekFive None).2.
Proof.
  split; [reflexivity|]. split; [reflexivity|]. split; [reflexivity|].
  intros Hclaim.
  destruct (Hclaim 5%nat) as (m & H4 & Hm & Hempty); [reflexivity | lia |].
  assert (m = 5 \/ m <= 4)%nat as [->|?] by lia; lia.
Qed.

End TransactionFacts.

(** ** The lineage walker *)

Module HistoryFacts.
Import Api Props.

Lemma walkInv_exit (leagueId : string) (cur : option string)
    (history : list LeagueHistory) (visited : gset string) :
  walkInv leagueId cur history visited -> (length history <= 10)%nat ->
  exitOk leagueId history.
Proof. intros [] ?. by constructor. Qed.

Lemma walkInv_push (leagueId cur : string) (data : LeagueHistoryData)
    (history : list LeagueHistory) (visited : gset string) :
  walkInv leagueId (Some cur) history visited ->
  cur ∉ visited ->
  walkInv leagueId (previous_league_id data)
    (history ++ [ {| league_id := cur;
                     previousLeagueId := previous_league_id data;
                     season := lhd_season data |} ])
    ({[cur]} ∪ visited).
Proof.
  intros [Hchrono Hnodup Hvis Hnext Hstart] Hfresh. constructor.
  - rewrite rev_app_distr. cbn [rev app].
    destruct (rev history) as [|newest older] eqn:Hrev.
    + apply chrono_one.
    + apply chrono_cons; [|done]. by rewrite <- Hnext.
  - rewrite fmap_app. cbn [fmap list_fmap league_id].
    apply NoDup_app. split; [done|]. split.
    + intros x Hx ->%list_elem_of_singleton.
      apply list_elem_of_fmap in Hx as (n & Heq & Hn).
      apply Hfresh. rewrite Heq. by apply Hvis.
    + apply NoDup_singleton.
  - intros n [Hn| ->%list_elem_of_singleton]%elem_of_app.
    + apply elem_of_union_r. by apply Hvis.
    + apply elem_of_union_l. by apply elem_of_singleton.
  - by rewrite rev_app_distr.
  - intros n. destruct history as [|first rest].
    + cbn [app head]. intros [= <-].
      cbn [rev] in Hnext. by injection Hnext as ->.
    + cbn [app head]. intros Hn. by apply Hstart.
Qed.

(** The loop never runs out of fuel when it is given more rounds than
    nodes are left to collect, and every exit hands over a history that
    is linked, duplicate-free and at most ten nodes long. *)
Lemma historyLoop_fuel (leagueId : string)
    (remote : nat -> string -> Response (option LeagueHistoryData))
    (abortAt : option nat) (fuel : nat) :
  forall (i : nat) (cur : option string) (history : list LeagueHistory)
         (visited : gset string),
  (10 - length history < fuel)%nat ->
  (length history <= 10)%nat ->
  walkInv leagueId cur history visited ->
  exists e : LoopExit,
    historyLoop fuel remote abortAt i cur history visited = Some e
    /\ exitOk leagueId (exitHistory e).
Proof.
  induction fuel as [|fuel IH]; intros i cur history visited Hfuel Hlen Hinv;
    [lia|].
  cbn [historyLoop].
  destruct cur as [cur|]; [|by eauto using walkInv_exit].
  destruct (JS.truthyStr cur); cbn [andb negb];
    [|by eauto using walkInv_exit].
  destruct (Nat.ltb_spec (length history) 10) as [Hlt|?]; cbn [andb negb];
    [|by eauto using walkInv_exit].
  case_bool_decide as Hseen; cbn [negb];
    [by eauto using walkInv_exit|].
  destruct (aborted abortAt (3 * i)); [by eauto using walkInv_exit|].
  destruct (aborted abortAt (3 * i + 1)); [by eauto using walkInv_exit|].
  destruct (remote i cur) as [[data|]|];
    [|by eauto using walkInv_exit..].
  pose proof (walkInv_push leagueId cur data history visited Hinv Hseen)
    as Hinv'.
  assert (length (history ++
            [ {| league_id := cur;
                 previousLeagueId := previous_league_id data;
                 season := lhd_season data |} ]) = S (length history))
    as Hlen' by (rewrite length_app; simpl; lia).
  destruct (JS.truthyOpt (previous_league_id data)
            && aborted abortAt (3 * i + 2)).
  - eexists. split; [done|]. cbn [exitHistory].
    eapply walkInv_exit; [done|]. lia.
  - apply IH; [lia | lia | done].
Qed.

Lemma historyLoop_more_fuel
    (remote : nat -> string -> Response (option LeagueHistoryData))
    (abortAt : option nat) (fuel : nat) :
  forall (fuel' i : nat) (cur : option string)
         (history : list LeagueHistory) (visited : gset string)
         (e : LoopExit),
  (fuel <= fuel')%nat ->
  historyLoop fuel remote abortAt i cur history visited = Some e ->
  historyLoop fuel' remote abortAt i cur history visited = Some e.
Proof.
  induction fuel as [|fuel IH];
    intros fuel' i cur history visited e Hle; [done|].
  destruct fuel' as [|fuel']; [lia|].
  cbn [historyLoop].
  destruct cur as [cur|]; [|done].
  destruct (negb _); [done|].
  destruct (aborted abortAt (3 * i)); [done|].
  destruct (aborted abortAt (3 * i + 1)); [done|].
  destruct (remote i cur) as [[data|]|]; [|done..].
  destruct (_ && _); [done|].
  apply IH. lia.
Qed.

Lemma walkInv_initial (leagueId : string) :
  walkInv leagueId (Some leagueId) [] ∅.
Proof.
  constructor; cbn; [apply chrono_nil | apply NoDup_nil_2 | | done | done].
  intros n Hn. by apply elem_of_nil in Hn.
Qed.

Lemma rev_reverse {A : Type} (l : list A) : rev l = reverse l.
Proof. unfold reverse. apply rev_alt. Qed.

(** What [afterLoop] makes of a good exit. *)
Lemma afterLoop_ok
    (remote : nat -> string -> Response (option LeagueHistoryData))
    (abortAt : option nat) (leagueId : string) (e : LoopExit) :
  exitOk leagueId (exitHistory e) ->
  let h := afterLoop remote abortAt leagueId e in
  chronological h
  /\ NoDup (league_id <$> h)
  /\ (length h <= 10)%nat
  /\ (forall n, last h = Some n -> league_id n = leagueId).
Proof.
  intros [Hchrono Hnodup Hlen Hstart].
  assert (let h := rev (exitHistory e) in
          chronological h /\ NoDup (league_id <$> h)
          /\ (length h <= 10)%nat
          /\ (forall n, last h = Some n -> league_id n = leagueId)) as Hrev.
  { cbn zeta. split; [done|]. split; [|split].
    - rewrite rev_reverse, fmap_reverse. by rewrite reverse_Permutation.
    - by rewrite length_rev.
    - intros n. rewrite rev_reverse, last_reverse. apply Hstart. }
  assert (forall s p,
            let h := [ {| league_id := leagueId; previousLeagueId := p;
                          season := s |} ] in
            chronological h /\ NoDup (league_id <$> h)
            /\ (length h <= 10)%nat
            /\ (forall n, last h = Some n -> league_id n = leagueId)) as Hone.
  { intros s p. cbn zeta. split; [apply chrono_one|]. split; [|split].
    - apply NoDup_singleton.
    - simpl. lia.
    - by intros n [= <-]. }
  destruct e as [h|h|h cur i]; cbn [afterLoop exitHistory] in *; [done..|].
  repeat (first [ case_match | case_bool_decide ]; try done);
    try apply Hone.
Qed.

(** C4. Whatever the requests answer and whenever the signal fires, the
    walk ends within the eleven rounds it is given (more fuel changes
    nothing), and the sequence it returns has at most ten nodes and no
    league identifier twice. *)
Theorem history_walk_terminates
    (remote : nat -> string -> Response (option LeagueHistoryData))
    (abortAt : option nat) (leagueId : string) :
  exists h : list LeagueHistory,
    getLeagueHistory remote abortAt leagueId = Some h
    /\ (forall fuel : nat, (11 <= fuel)%nat ->
        getLeagueHistoryFuel fuel remote abortAt leagueId = Some h)
    /\ (length h <= 10)%nat
    /\ NoDup (league_id <$> h).
Proof.
  destruct (historyLoop_fuel leagueId remote abortAt 11 0 (Some leagueId) [] ∅)
    as (e & Hrun & Hexit);
    [simpl; lia | simpl; lia | apply walkInv_initial |].
  exists (afterLoop remote abortAt leagueId e).
  destruct (afterLoop_ok remote abortAt leagueId e Hexit)
    as (_ & Hnodup & Hlen & _).
  unfold getLeagueHistory, getLeagueHistoryFuel.
  split; [by rewrite Hrun|]. split; [|done].
  intros fuel Hfuel.
  by rewrite (historyLoop_more_fuel remote abortAt 11 fuel _ _ _ _ e Hfuel Hrun).
Qed.

(** C8, as the code has it. The returned sequence is in chronological
    order, each node pointing back to the one before it, and ends with the
    starting league. When the first request fails (and the run is not
    cancelled before), the walker asks once more for the starting league:
    it returns that league alone, with the season of the second answer
    when there is one, and with an empty season label when the second
    request fails, is cancelled or has no body. *)
Theorem history_order_and_degradation
    (remote : nat -> string -> Response (option LeagueHistoryData))
    (abortAt : option nat) (leagueId : string) :
  exists h : list LeagueHistory,
    getLeagueHistory remote abortAt leagueId = Some h
    /\ chronological h
    /\ (forall n, last h = Some n -> league_id n = leagueId)
    /\ (JS.truthyStr leagueId = true ->
        aborted abortAt 1 = false ->
        remote 0%nat leagueId = Failed ->
        h = if aborted abortAt 2 then degradedHistory leagueId
            else
              match remote 1%nat leagueId with
              | Ok (Some d) =>
                  [ {| league_id := leagueId;
                       previousLeagueId := previous_league_id d;
                       season := lhd_season d |} ]
              | _ => degradedHistory leagueId
              end).
Proof.
  destruct (historyLoop_fuel leagueId remote abortAt 11 0 (Some leagueId) [] ∅)
    as (e & Hrun & Hexit);
    [simpl; lia | simpl; lia | apply walkInv_initial |].
  exists (afterLoop remote abortAt leagueId e).
  destruct (afterLoop_ok remote abortAt leagueId e Hexit)
    as (Hchrono & _ & _ & Hlast).
  unfold getLeagueHistory, getLeagueHistoryFuel.
  split; [by rewrite Hrun|]. split; [done|]. split; [done|].
  intros Hid Hab1 Hfail.
  assert (aborted abortAt 0 = false) as Hab0.
  { destruct abortAt as [a|]; [|reflexivity]. unfold aborted in *.
    apply Nat.leb_gt in Hab1. apply Nat.leb_gt. lia. }
  cbn [historyLoop] in Hrun.
  rewrite Hid in Hrun.
  rewrite (bool_decide_eq_false_2 (leagueId ∈ (∅ : gset string))) in Hrun
    by set_solver.
  cbn in Hrun.
  rewrite Hab0, Hab1, Hfail in Hrun. injection Hrun as <-.
  cbn [afterLoop length Nat.eqb Nat.ltb Nat.leb andb].
  rewrite bool_decide_eq_true_2 by done. cbn [Nat.mul Nat.add].
  unfold degradedHistory. by destruct (aborted abortAt 2).
Qed.

Lemma history_order_and_degradation_witness :
  getLeagueHistory Examples.alwaysFails None "L1"
  = Some (degradedHistory "L1")
  /\ getLeagueHistory Examples.threeSeasons None "L3"
     = Some [ {| league_id := "L1"; previousLeagueId := None;
                 season := "2022" |};
              {| league_id := "L2"; previousLeagueId := Some "L1"%string;
                 season := "2023" |};
              {| league_id := "L3"; previousLeagueId := Some "L2"%string;
                 season := "2024" |} ].
Proof.
  split; [|vm_compute; reflexivity].
  destruct (history_order_and_degradation Examples.alwaysFails None "L1")
    as (h & -> & _ & _ & Hdegrade).
  f_equal. exact (Hdegrade eq_refl eq_refl eq_refl).
Defined.

(** C8, as the specification words it, fails: the first request for the
    starting league fails, the second succeeds, and the walker returns the
    league with the season of the second answer, not with an empty
    label. *)
Lemma first_failure_is_retried :
  Examples.failsOnce 0%nat "L1" = Failed
  /\ getLeagueHistory Examples.failsOnce None "L1"
     = Some [ {| league_id := "L1"; previousLeagueId := None;
                 season := "2024" |} ]
  /\ getLeagueHistory Examples.failsOnce None "L1"
     <> Some (degradedHistory "L1").
Proof.
  split; [reflexivity|].
  assert (getLeagueHistory Examples.failsOnce None "L1"
          = Some [ {| league_id := "L1"; previousLeagueId := None;
                      season := "2024" |} ]) as Hrun
    by (vm_compute; reflexivity).
  split; [exact Hrun|]. rewrite Hrun. discriminate.
Qed.

End HistoryFacts.

(** ** The fuser *)

Module FuserFacts.
Import Api Props.

Lemma isUnknown_spec (a : Acquisition) :
  isUnknown a = true <-> acq_type a = Unknown.
Proof. unfold isUnknown. by destruct (acq_type a). Qed.

Lemma isUnknown_false (a : Acquisition) :
  isUnknown a = false <-> acq_type a <> Unknown.
Proof. unfold isUnknown. by destruct (acq_type a). Qed.

Lemma foldl_preserves {A B : Type} (f : A -> B -> A) (Q : A -> Prop)
    (P : B -> Prop) :
  (forall a b, P b -> Q a -> Q (f a b)) ->
  forall (l : list B) (a : A), Forall P l -> Q a -> Q (foldl f a l).
Proof.
  intros Hstep l. induction l as [|b l IH]; intros a Hl Ha; [done|].
  inversion Hl; subst. cbn [foldl]. apply IH; [done|]. by apply Hstep.
Qed.

Lemma foldl_bind {A B C : Type} (f : A -> B -> A) (g : C -> list B)
    (h : A -> C -> A) :
  (forall a c, h a c = foldl f a (g c)) ->
  forall (l : list C) (a : A), foldl h a l = foldl f a (l ≫= g).
Proof.
  intros Hh l. induction l as [|c l IH]; intros a; [done|].
  rewrite bind_cons, foldl_app. cbn [foldl]. by rewrite Hh, IH.
Qed.

Section WithResolver.
Context `{Host}.
Context (userId : string) (roster : SleeperRoster).
Context (leagueDetails : option SleeperLeague).
Context (leagueHistoryData : list LeagueHistory).

(** *** The second pass is a fold of its writes *)

Lemma applyDraft_events (lin : Lineage) (meta : LeagueHistory)
    (st : FuseState) (draftData : SeasonDraft) :
  applyDraft userId leagueDetails lin meta st draftData
  = foldl (applyEvent roster leagueDetails) st
      (draftEvents userId leagueDetails lin meta draftData).
Proof.
  unfold applyDraft, draftEvents.
  destruct (length _ =? 0)%nat; [done|].
  by rewrite foldl_fmap.
Qed.

Lemma applyTransaction_events (userRosterThisSeason : SleeperRoster)
    (st : FuseState) (transaction : SleeperTransaction) :
  applyTransaction roster userRosterThisSeason st transaction
  = foldl (applyEvent roster leagueDetails) st
      (transactionEvents userRosterThisSeason transaction).
Proof.
  unfold applyTransaction, transactionEvents.
  destruct (negb _); [done|].
  destruct (adds transaction) as [entries|]; [|done].
  by rewrite (foldl_fmap _ _ _ (AddEvent transaction)).
Qed.

Lemma fuseSeason_events (lin : Lineage) (st : FuseState)
    (histData : PlayerAcquisitionData) :
  fuseSeason userId roster leagueDetails leagueHistoryData lin st histData
  = foldl (applyEvent roster leagueDetails) st
      (seasonEvents userId leagueDetails leagueHistoryData lin histData).
Proof.
  unfold fuseSeason, seasonEvents.
  destruct (pa_roster histData) as [userRosterThisSeason|]; [|done].
  destruct (find _ leagueHistoryData) as [meta|]; [|done].
  rewrite foldl_app.
  rewrite <- (foldl_bind _ _ (applyDraft userId leagueDetails lin meta))
    by apply applyDraft_events.
  by rewrite <- (foldl_bind _ _ (applyTransaction roster userRosterThisSeason))
    by apply applyTransaction_events.
Qed.

Lemma fuse_events (lin : Lineage)
    (allHistoricalSeasonData : list PlayerAcquisitionData) :
  fuse userId roster leagueDetails leagueHistoryData lin
    allHistoricalSeasonData
  = foldl (applyEvent roster leagueDetails)
      {| acquisitions := initialAcquisitions roster;
         userStartupDraftPlayerCount := 0 |}
      (fuseEvents userId leagueDetails leagueHistoryData lin
         allHistoricalSeasonData).
Proof.
  unfold fuse, fuseEvents.
  apply foldl_bind. apply fuseSeason_events.
Qed.

(** *** What one write does to the record of a player *)

Lemma applyPick_lookup (startup : bool) (meta : LeagueHistory)
    (st : FuseState) (pick : SleeperDraftPick) (p : string) :
  acquisitions (applyPick leagueDetails startup meta st pick) !! p
  = acquisitions st !! p
  \/ acquisitions (applyPick leagueDetails startup meta st pick) !! p
     = Some {| acq_type := if startup then StartupDraft else RookieDraft;
               details := pickDetails leagueDetails startup meta pick;
               timestamp := juneFirst (season meta) |}.
Proof.
  unfold applyPick. destruct (_ && _); [|by left]. cbn [acquisitions].
  destruct (decide (player_id pick = p)) as [->|Hne].
  - right. by rewrite lookup_insert_eq.
  - left. by rewrite lookup_insert_ne.
Qed.

Lemma applyAdd_lookup (transaction : SleeperTransaction) (st : FuseState)
    (playerId p : string) :
  acquisitions (applyAdd roster transaction st playerId) !! p
  = acquisitions st !! p
  \/ acquisitions (applyAdd roster transaction st playerId) !! p
     = Some (transactionRecord transaction).
Proof.
  unfold applyAdd. destruct (existsb _ _); [|by left].
  destruct (transactionOverwrites _ _); [|by left]. cbn [acquisitions].
  destruct (decide (playerId = p)) as [->|Hne].
  - right. by rewrite lookup_insert_eq.
  - left. by rewrite lookup_insert_ne.
Qed.

Lemma transactionRecord_known (transaction : SleeperTransaction) :
  acq_type (transactionRecord transaction) <> Unknown
  /\ acq_type (transactionRecord transaction) <> RookieDraft
  /\ acq_type (transactionRecord transaction) <> StartupDraft.
Proof.
  unfold transactionRecord.
  by repeat (destruct (String.eqb _ _); [done|]).
Qed.

Lemma applyEvent_lookup (st : FuseState) (e : Event) (p : string) :
  acquisitions (applyEvent roster leagueDetails st e) !! p
  = acquisitions st !! p
  \/ exists r : Acquisition,
       acquisitions (applyEvent roster leagueDetails st e) !! p = Some r
       /\ acq_type r <> Unknown
       /\ (acq_type r = RookieDraft ->
           exists meta pick, e = PickEvent false meta pick).
Proof.
  destruct e as [startup meta pick|transaction playerId]; cbn [applyEvent].
  - destruct (applyPick_lookup startup meta st pick p) as [Hsame|Hnew];
      [by left|].
    right. eexists. split; [exact Hnew|]. cbn [acq_type].
    destruct startup; [done|]. split; [done|]. eauto.
  - destruct (applyAdd_lookup transaction st playerId p) as [Hsame|Hnew];
      [by left|].
    right. eexists. split; [exact Hnew|].
    destruct (transactionRecord_known transaction) as (? & ? & ?). done.
Qed.

Lemma applyEvent_known (st : FuseState) (e : Event) (p : string) :
  known (acquisitions st) p ->
  known (acquisitions (applyEvent roster leagueDetails st e)) p.
Proof.
  intros Hknown. unfold known.
  destruct (applyEvent_lookup st e p) as [->|(r & Hr & Hkind & _)]; eauto.
Qed.

Lemma applyEvent_keeps (st : FuseState) (e : Event) (p : string) :
  is_Some (acquisitions st !! p) ->
  is_Some (acquisitions (applyEvent roster leagueDetails st e) !! p).
Proof.
  intros Hsome.
  destruct (applyEvent_lookup st e p) as [->|(r & -> & _)]; eauto.
Qed.

End WithResolver.

(** C7. Whatever draft-pick and transaction events the fuser applies, in
    whatever order, a player whose record has a kind other than Unknown
    keeps a record of a kind other than Unknown. *)
Theorem known_record_stays_known `{Host} (roster : SleeperRoster)
    (leagueDetails : option SleeperLeague) (events : list Event)
    (st : FuseState) (p : string) (r : Acquisition) :
  acquisitions st !! p = Some r ->
  acq_type r <> Unknown ->
  exists r' : Acquisition,
    acquisitions (foldl (applyEvent roster leagueDetails) st events) !! p
    = Some r'
    /\ acq_type r' <> Unknown.
Proof.
  intros Hr Hkind.
  apply (foldl_preserves (applyEvent roster leagueDetails)
           (fun s => known (acquisitions s) p) (fun _ => True)).
  - intros a e _. apply applyEvent_known.
  - by apply Forall_true.
  - by exists r.
Qed.

Lemma known_record_stays_known_witness :
  exists r' : Acquisition,
    acquisitions
      (foldl (applyEvent (H := UtcHost.host) Examples.myRoster Examples.dynasty)
         Examples.tradedState
         [ PickEvent false Examples.season2023 (Examples.pickOf "4866" 1 3);
           AddEvent
             (Examples.tx "t2" "commissioner" [1] [("4866"%string, 1)]
                1800000000000)
             "4866" ])
    !! "4866"%string = Some r'
    /\ acq_type r' <> Unknown.
Proof.
  eapply (known_record_stays_known (H := UtcHost.host)).
  - apply lookup_singleton_eq.
  - discriminate.
Defined.

(** *** The overwrite rule of a transaction *)

Lemma existsb_eqb_elem_of (p : string) (l : list string) :
  existsb (String.eqb p) l = true <-> p ∈ l.
Proof.
  rewrite existsb_exists. split.
  - intros (x & Hx & ->%String.eqb_eq). by apply list_elem_of_In.
  - intros Hp. exists p. split; [by apply list_elem_of_In|].
    apply String.eqb_refl.
Qed.

(** C3, as the code has it. A transaction that adds a player of the
    roster replaces the player's record exactly when the kind of the
    record is Unknown, or [createdAt] is not zero and either the record
    has no [acquiredAt] (it is zero or not a number) or [createdAt] is
    strictly greater than [acquiredAt]; in every other case, and for a
    player who is not on the roster, the whole state is left as it is.
    When [createdAt] and [acquiredAt] are both numbers other than zero
    this is the rule "Unknown, or [createdAt] strictly greater than
    [acquiredAt]". *)
Theorem transaction_overwrite_rule `{Host} (roster : SleeperRoster)
    (transaction : SleeperTransaction) (st : FuseState) (playerId : string)
    (cur : Acquisition) :
  acquisitions st !! playerId = Some cur ->
  (playerId ∈ players roster ->
   (acq_type cur = Unknown
    \/ (created transaction <> 0
        /\ (timestamp cur = JS.NaN
            \/ timestamp cur = JS.Num 0
            \/ exists acquiredAt : Z,
                 timestamp cur = JS.Num acquiredAt
                 /\ acquiredAt < created transaction))) ->
   acquisitions (applyAdd roster transaction st playerId) !! playerId
   = Some (transactionRecord transaction))
  /\ (playerId ∈ players roster ->
      ~ (acq_type cur = Unknown
         \/ (created transaction <> 0
             /\ (timestamp cur = JS.NaN
                 \/ timestamp cur = JS.Num 0
                 \/ exists acquiredAt : Z,
                      timestamp cur = JS.Num acquiredAt
                      /\ acquiredAt < created transaction))) ->
      applyAdd roster transaction st playerId = st)
  /\ (playerId ∉ players roster ->
      applyAdd roster transaction st playerId = st)
  /\ (forall acquiredAt : Z,
        playerId ∈ players roster ->
        timestamp cur = JS.Num acquiredAt ->
        acquiredAt <> 0 -> created transaction <> 0 ->
        (acq_type cur = Unknown \/ acquiredAt < created transaction ->
         acquisitions (applyAdd roster transaction st playerId) !! playerId
         = Some (transactionRecord transaction))
        /\ (acq_type cur <> Unknown -> created transaction <= acquiredAt ->
            applyAdd roster transaction st playerId = st)).
Proof.
  intros Hcur.
  assert (playerId ∈ players roster ->
          transactionOverwrites (Some cur) (created transaction) = true ->
          acquisitions (applyAdd roster transaction st playerId) !! playerId
          = Some (transactionRecord transaction)) as Hwrite.
  { intros Hin%existsb_eqb_elem_of Hwins. unfold applyAdd.
    rewrite Hin, Hcur, Hwins. cbn [acquisitions].
    by rewrite lookup_insert_eq. }
  assert (playerId ∈ players roster ->
          transactionOverwrites (Some cur) (created transaction) = false ->
          applyAdd roster transaction st playerId = st) as Hkeep.
  { intros Hin%existsb_eqb_elem_of Hloses. unfold applyAdd.
    by rewrite Hin, Hcur, Hloses. }
  assert (transactionOverwrites (Some cur) (created transaction) = true
          <-> acq_type cur = Unknown
              \/ (created transaction <> 0
                  /\ (timestamp cur = JS.NaN
                      \/ timestamp cur = JS.Num 0
                      \/ exists acquiredAt : Z,
                           timestamp cur = JS.Num acquiredAt
                           /\ acquiredAt < created transaction))) as Hrule.
  { unfold transactionOverwrites.
    rewrite orb_true_iff, andb_true_iff, orb_true_iff, isUnknown_spec.
    rewrite !negb_true_iff, Z.eqb_neq.
    apply or_iff_compat_l, and_iff_compat_l.
    destruct (timestamp cur) as [a|]; cbn [JS.truthy JS.gt].
    - rewrite negb_false_iff, Z.eqb_eq, Z.ltb_lt. split.
      + intros [->|Hlt]; [right; by left|].
        right. right. by exists a.
      + intros [?|[[= ->]|(a' & [= <-] & Hlt)]]; [done | by left | by right].
    - split; [by left | by left]. }
  split; [|split; [|split]].
  - intros Hin Hwins. by apply Hwrite, Hrule.
  - intros Hin Hloses. apply Hkeep; [done|].
    apply not_true_is_false. intros Hover. by apply Hloses, Hrule.
  - intros Hout. unfold applyAdd.
    destruct (existsb _ _) eqn:Hin; [|done].
    by apply existsb_eqb_elem_of in Hin.
  - intros acquiredAt Hin Hts Hacq Hcreated. split.
    + intros [Hunk|Hlater]; apply Hwrite, Hrule; [done | by left | done|].
      right. split; [done|]. right. right. by exists acquiredAt.
    + intros Hknown Hearlier. apply Hkeep; [done|].
      apply not_true_is_false. intros Hover. apply Hrule in Hover.
      destruct Hover as [?|[_ [Hnan|[Hzero|(a & Ha & Hlt)]]]];
        [done | congruence | congruence |].
      rewrite Hts in Ha. injection Ha as <-. lia.
Qed.

Lemma transaction_overwrite_rule_witness :
  acquisitions
    (applyAdd (H := UtcHost.host) Examples.myRoster Examples.novemberTrade
       Examples.rookieState "6794")
  !! "6794"%string
  = Some {| acq_type := Trade; details := "Acquired on Nov 14, 2023";
            timestamp := JS.Num 1700000000000 |}.
Proof.
  refine (proj1 (transaction_overwrite_rule (H := UtcHost.host)
                   Examples.myRoster Examples.novemberTrade
                   Examples.rookieState "6794" _ _) _ _).
  - apply lookup_singleton_eq.
  - apply list_elem_of_In. simpl. tauto.
  - right. split; [discriminate|]. right. right.
    exists 1685577600000. split; [reflexivity | simpl; lia].
Defined.

(** C3, as the specification words it, fails. In a lineage that the
    walker degraded to one node without a season label, the startup pick
    of "4866" is dated [NaN]; the trade of November 2023 then replaces that
    record, although its kind is known and no [createdAt] is strictly
    greater than [NaN]. *)
Lemma transaction_replaces_undated_record :
  getPlayerAcquisitions (H := UtcHost.host) "u1" Examples.myRoster
    Examples.dynasty (degradedHistory "L1") None Examples.undatedDraft
  !! "4866"%string
  = Some {| acq_type := StartupDraft; details := "1.03";
            timestamp := JS.NaN |}
  /\ JS.gt (JS.Num (created Examples.lateTrade)) JS.NaN = false
  /\ acquisitions
       (applyAdd (H := UtcHost.host) Examples.myRoster Examples.lateTrade
          {| acquisitions :=
               getPlayerAcquisitions (H := UtcHost.host) "u1"
                 Examples.myRoster Examples.dynasty (degradedHistory "L1")
                 None Examples.undatedDraft;
             userStartupDraftPlayerCount := 1 |} "4866")
     !! "4866"%string
     = Some {| acq_type := Trade; details := "Acquired on Nov 14, 2023";
               timestamp := JS.Num 1700000000000 |}
  /\ getPlayerAcquisitions (H := UtcHost.host) "u1" Examples.myRoster
       Examples.dynasty (degradedHistory "L1") None Examples.undatedTrade
     !! "4866"%string
     = Some {| acq_type := Trade; details := "Acquired on Nov 14, 2023";
               timestamp := JS.Num 1700000000000 |}.
Proof.
  split; [|split; [|split]]; vm_compute; reflexivity.
Qed.

(** Outside epoch-ms values the code's condition is wider than
    "[createdAt > acquiredAt]": a record whose [acquiredAt] is [NaN] (a
    draft of a season without a year) or zero gives way to every
    transaction with a non-zero [createdAt]. *)
Remark transaction_overwrites_without_acquiredAt (cur : Acquisition)
    (transactionTime : Z) :
  JS.truthy (timestamp cur) = false -> transactionTime <> 0 ->
  transactionOverwrites (Some cur) transactionTime = true.
Proof.
  intros Hfalsy Hne. unfold transactionOverwrites. rewrite Hfalsy.
  apply Z.eqb_neq in Hne. rewrite Hne. cbn. apply orb_true_r.
Qed.

(** *** The initial records and the final pass *)

Lemma initial_fold_lookup (l : list string) (p : string) :
  forall acc : gmap string Acquisition,
  foldl (fun acc playerId => <[playerId := unknownRecord]> acc) acc l !! p
  = if decide (p ∈ l) then Some unknownRecord else acc !! p.
Proof.
  induction l as [|a l IH]; intros acc; cbn [foldl].
  - by rewrite decide_False by apply not_elem_of_nil.
  - rewrite IH. destruct (decide (p ∈ l)) as [Hin|Hnin].
    + by rewrite decide_True by (apply elem_of_cons; by right).
    + destruct (decide (p = a)) as [->|Hne].
      * rewrite lookup_insert_eq.
        by rewrite decide_True by (apply elem_of_cons; by left).
      * rewrite lookup_insert_ne by done.
        rewrite decide_False; [done|].
        by intros [?|?]%elem_of_cons.
Qed.

Lemma initial_lookup (roster : SleeperRoster) (p : string) :
  initialAcquisitions roster !! p
  = if decide (p ∈ players roster) then Some unknownRecord else None.
Proof. unfold initialAcquisitions. by rewrite initial_fold_lookup. Qed.

Lemma previousOwner_known (a : Acquisition) :
  acq_type (previousOwner a) <> Unknown.
Proof.
  unfold previousOwner. destruct (isUnknown a) eqn:Hu; [done|].
  by apply isUnknown_false.
Qed.

Lemma previousOwner_not_draft (a : Acquisition) :
  acq_type a <> RookieDraft -> acq_type (previousOwner a) <> RookieDraft.
Proof. unfold previousOwner. by destruct (isUnknown a). Qed.

Section Results.
Context `{Host}.
Context (userId : string) (roster : SleeperRoster).
Context (leagueDetails : option SleeperLeague).
Context (leagueHistoryData : list LeagueHistory).

(** Every player of the roster has a record in the state the fuser
    leaves. *)
Lemma fuse_keeps_roster (lin : Lineage)
    (allHistoricalSeasonData : list PlayerAcquisitionData) (p : string) :
  p ∈ players roster ->
  is_Some
    (acquisitions
       (fuse userId roster leagueDetails leagueHistoryData lin
          allHistoricalSeasonData) !! p).
Proof.
  intros Hin. rewrite fuse_events.
  apply (foldl_preserves (applyEvent roster leagueDetails)
           (fun s => is_Some (acquisitions s !! p)) (fun _ => True)).
  - intros a e _. apply applyEvent_keeps.
  - by apply Forall_true.
  - cbn [acquisitions]. rewrite initial_lookup. by rewrite decide_True.
Qed.

(** Every player of the roster has a record in the result. *)
Lemma roster_players_have_records
    (allHistoricalSeasonDataRaw : list (option PlayerAcquisitionData))
    (p : string) :
  p ∈ players roster ->
  is_Some
    (getPlayerAcquisitions userId roster leagueDetails leagueHistoryData
       None allHistoricalSeasonDataRaw !! p).
Proof.
  intros Hin. unfold getPlayerAcquisitions.
  destruct (length leagueHistoryData =? 0)%nat.
  - rewrite initial_lookup. by rewrite decide_True.
  - pose proof (fuse_keeps_roster
                  (classify userId leagueHistoryData
                     (omap id allHistoricalSeasonDataRaw))
                  (afterFirstPass (omap id allHistoricalSeasonDataRaw)) p Hin)
      as [r Hr].
    destruct (fallbackApplies _ _); [|by rewrite Hr].
    rewrite lookup_fmap, Hr. by eexists.
Qed.

(** In a redraft league every pick event is a startup event. *)
Lemma redraft_events (lin : Lineage)
    (allHistoricalSeasonData : list PlayerAcquisitionData) :
  isRedraft leagueDetails = true ->
  Forall startupEvent
    (fuseEvents userId leagueDetails leagueHistoryData lin
       allHistoricalSeasonData).
Proof.
  intros Hredraft. unfold fuseEvents.
  apply Forall_bind, Forall_forall. intros histData _.
  unfold compose, seasonEvents. cbv beta.
  destruct (pa_roster histData) as [userRosterThisSeason|]; [|apply Forall_nil_2].
  destruct (find _ leagueHistoryData) as [meta|]; [|apply Forall_nil_2].
  apply Forall_app. split.
  - apply Forall_bind, Forall_forall. intros draftData _.
    unfold compose, draftEvents. cbv beta zeta. destruct (length _ =? 0)%nat; [apply Forall_nil_2|].
    apply Forall_fmap, Forall_forall. intros pick _.
    unfold compose. cbn [startupEvent]. unfold currentDraftIsStartup.
    by rewrite Hredraft.
  - apply Forall_bind, Forall_forall. intros transaction _.
    unfold compose, transactionEvents. cbv beta. destruct (negb _); [apply Forall_nil_2|].
    destruct (adds transaction) as [entries|]; [|apply Forall_nil_2].
    apply Forall_fmap, Forall_forall. intros playerId _. by unfold compose.
Qed.

Lemma startupEvent_no_rookie (st : FuseState) (e : Event) :
  startupEvent e ->
  (forall p r, acquisitions st !! p = Some r -> acq_type r <> RookieDraft) ->
  forall p r,
    acquisitions (applyEvent roster leagueDetails st e) !! p = Some r ->
    acq_type r <> RookieDraft.
Proof.
  intros Hstartup Hst p r Hr.
  destruct (applyEvent_lookup roster leagueDetails st e p)
    as [Hsame|(r' & Hr' & _ & Hrookie)].
  - apply (Hst p). by rewrite <- Hsame.
  - rewrite Hr in Hr'. injection Hr' as <-. intros Heq.
    destruct (Hrookie Heq) as (meta & pick & ->). by cbn in Hstartup.
Qed.

(** One write of a startup event leaves the record of [p] missing, Unknown
    or "Startup Draft" when it was, leaves it "Startup Draft" when it was,
    and makes it "Startup Draft" when the write is a pick of [p]. *)
Lemma startup_pick_step (st : FuseState) (e : Event) (p : string) :
  startupEvent e ->
  (forall tx, e = AddEvent tx p -> p ∉ players roster) ->
  let open := fun s : FuseState =>
    forall a, acquisitions s !! p = Some a ->
              acq_type a = Unknown \/ acq_type a = StartupDraft in
  let drafted := fun s : FuseState =>
    exists r, acquisitions s !! p = Some r /\ acq_type r = StartupDraft in
  (open st -> open (applyEvent roster leagueDetails st e))
  /\ (drafted st -> drafted (applyEvent roster leagueDetails st e))
  /\ (forall startup meta pick,
        e = PickEvent startup meta pick -> player_id pick = p ->
        JS.truthyStr p = true ->
        open st -> drafted (applyEvent roster leagueDetails st e)).
Proof.
  intros Hstartup Hadds open drafted. subst open drafted. cbv beta.
  destruct e as [startup meta pick|transaction playerId];
    cbn [applyEvent startupEvent] in *.
  - subst startup. unfold applyPick.
    destruct (JS.truthyStr (player_id pick)) eqn:Hid; cbn [andb].
    2:{ split; [done|]. split; [done|].
        intros ? ? ? [= <- <- <-] <-. congruence. }
    destruct (acquisitions st !! player_id pick) as [a0|] eqn:Hpick.
    + destruct (isUnknown a0 || negb (JS.truthy (timestamp a0))) eqn:Hover.
      * cbn [acquisitions].
        destruct (decide (player_id pick = p)) as [Heq|Hne].
        -- rewrite Heq, lookup_insert_eq.
           split; [intros _ a [= <-]; by right|].
           split; [intros _; by eexists|].
           intros ? ? ? _ _ _ _. by eexists.
        -- rewrite lookup_insert_ne by done.
           split; [done|]. split; [done|].
           intros ? ? ? [= <- <- <-] Heq. by destruct Hne.
      * split; [done|]. split; [done|].
        intros ? ? ? [= <- <- <-] <- _ Hopen.
        exists a0. split; [done|].
        destruct (Hopen a0 Hpick) as [Hunk|Hdraft]; [|done].
        apply isUnknown_spec in Hunk. by rewrite Hunk in Hover.
    + cbn [acquisitions].
      destruct (decide (player_id pick = p)) as [Heq|Hne].
      * rewrite Heq, lookup_insert_eq.
        split; [intros _ a [= <-]; by right|].
        split; [intros _; by eexists|].
        intros ? ? ? _ _ _ _. by eexists.
      * rewrite lookup_insert_ne by done.
        split; [done|]. split; [done|].
        intros ? ? ? [= <- <- <-] Heq. by destruct Hne.
  - assert (acquisitions (applyAdd roster transaction st playerId) !! p
            = acquisitions st !! p) as ->.
    { unfold applyAdd. destruct (existsb _ _) eqn:Hin; [|done].
      destruct (transactionOverwrites _ _); [|done]. cbn [acquisitions].
      destruct (decide (playerId = p)) as [->|Hne].
      - apply existsb_eqb_elem_of in Hin. by destruct (Hadds transaction).
      - by rewrite lookup_insert_ne. }
    split; [done|]. split; [done|]. by intros ? ? ? [=].
Qed.

(** Once a startup pick of [p] is among the writes, and no transaction
    adds [p] to the roster, the record of [p] ends as "Startup Draft". *)
Lemma startup_pick_fold (p : string) (events : list Event) :
  Forall startupEvent events ->
  (forall tx, AddEvent tx p ∈ events -> p ∉ players roster) ->
  JS.truthyStr p = true ->
  forall st : FuseState,
    (forall a, acquisitions st !! p = Some a ->
               acq_type a = Unknown \/ acq_type a = StartupDraft) ->
    ((exists startup meta pick,
        PickEvent startup meta pick ∈ events /\ player_id pick = p)
     \/ exists r, acquisitions st !! p = Some r /\ acq_type r = StartupDraft) ->
    exists r,
      acquisitions (foldl (applyEvent roster leagueDetails) st events) !! p
      = Some r
      /\ acq_type r = StartupDraft.
Proof.
  intros Hstartup Hadds Hid.
  induction events as [|e events IH]; intros st Hopen Hcase; cbn [foldl].
  - destruct Hcase as [(? & ? & ? & []%elem_of_nil & _)|Hdone]; done.
  - inversion Hstartup as [|? ? He Hrest]; subst.
    destruct (startup_pick_step st e p He) as (Hopen' & Hdrafted' & Hpick').
    { intros tx ->. apply (Hadds tx), elem_of_cons. by left. }
    apply IH; [done | | by apply Hopen' |].
    { intros tx Hin. apply (Hadds tx), elem_of_cons. by right. }
    destruct Hcase as [(startup & meta & pick & Hin & Heq)|Hdone].
    + apply elem_of_cons in Hin as [<-|Hin].
      * right. by apply (Hpick' startup meta pick).
      * left. by exists startup, meta, pick.
    + right. by apply Hdrafted'.
Qed.

End Results.

(** C6. In a league whose settings type is 0 the fuser takes every draft
    for a startup draft, whatever the lineage and the draft, and no record
    of the result is a "Rookie Draft" record.  Every pick event of the
    fuser that is applied (the player's record is missing, Unknown or
    without a date) writes a "Startup Draft" record with the detail
    round.slot; and a player with a pick event whom no transaction adds to
    the roster ends as "Startup Draft" in the result. *)
Theorem redraft_picks_are_startup `{Host} (userId : string)
    (roster : SleeperRoster) (leagueDetails : option SleeperLeague)
    (leagueHistoryData : list LeagueHistory)
    (allHistoricalSeasonDataRaw : list (option PlayerAcquisitionData))
    (league : SleeperLeague) (s : LeagueSettings) :
  leagueDetails = Some league ->
  league_settings league = Some s ->
  settings_type s = Some 0 ->
  (forall lin meta draft,
     currentDraftIsStartup leagueDetails lin meta draft = true)
  /\ (forall lin data,
        Forall startupEvent
          (fuseEvents userId leagueDetails leagueHistoryData lin data))
  /\ (forall p r,
        getPlayerAcquisitions userId roster leagueDetails leagueHistoryData
          None allHistoricalSeasonDataRaw !! p = Some r ->
        acq_type r <> RookieDraft)
  /\ (forall lin data startup meta pick st,
        PickEvent startup meta pick
          ∈ fuseEvents userId leagueDetails leagueHistoryData lin data ->
        JS.truthyStr (player_id pick) = true ->
        (forall a, acquisitions st !! player_id pick = Some a ->
                   acq_type a = Unknown \/ JS.truthy (timestamp a) = false) ->
        acquisitions
          (applyEvent roster leagueDetails st (PickEvent startup meta pick))
        !! player_id pick
        = Some {| acq_type := StartupDraft;
                  details :=
                    JS.toString (round pick) +:+ "."
                    +:+ formattedPickNumber leagueDetails pick;
                  timestamp := juneFirst (season meta) |})
  /\ (forall startup meta pick,
        leagueHistoryData <> [] ->
        PickEvent startup meta pick
          ∈ fuseEvents userId leagueDetails leagueHistoryData
              (classify userId leagueHistoryData
                 (omap id allHistoricalSeasonDataRaw))
              (afterFirstPass (omap id allHistoricalSeasonDataRaw)) ->
        JS.truthyStr (player_id pick) = true ->
        (forall tx,
           AddEvent tx (player_id pick)
             ∈ fuseEvents userId leagueDetails leagueHistoryData
                 (classify userId leagueHistoryData
                    (omap id allHistoricalSeasonDataRaw))
                 (afterFirstPass (omap id allHistoricalSeasonDataRaw)) ->
           player_id pick ∉ players roster) ->
        exists r,
          getPlayerAcquisitions userId roster leagueDetails leagueHistoryData
            None allHistoricalSeasonDataRaw !! player_id pick = Some r
          /\ acq_type r = StartupDraft).
Proof.
  intros Hleague Hsettings Htype.
  assert (isRedraft leagueDetails = true) as Hredraft
    by (unfold isRedraft; by rewrite Hleague, Hsettings, Htype).
  split; [|split; [|split; [|split]]].
  - intros lin meta draft. unfold currentDraftIsStartup. by rewrite Hredraft.
  - intros lin data. by apply redraft_events.
  - intros p r. unfold getPlayerAcquisitions.
    assert (forall p r, initialAcquisitions roster !! p = Some r ->
                        acq_type r <> RookieDraft) as Hinit.
    { intros q a. rewrite initial_lookup.
      destruct (decide (q ∈ players roster)); [|done]. by intros [= <-]. }
    destruct (length leagueHistoryData =? 0)%nat; [apply Hinit|].
    set (lin := classify userId leagueHistoryData
                  (omap id allHistoricalSeasonDataRaw)).
    set (data := afterFirstPass (omap id allHistoricalSeasonDataRaw)).
    assert (forall p r,
              acquisitions
                (fuse userId roster leagueDetails leagueHistoryData lin data)
              !! p = Some r -> acq_type r <> RookieDraft) as Hfused.
    { rewrite fuse_events.
      apply (foldl_preserves (applyEvent roster leagueDetails)
               (fun st => forall p r, acquisitions st !! p = Some r ->
                                      acq_type r <> RookieDraft)
               startupEvent).
      - intros st e He Hst. by apply startupEvent_no_rookie.
      - by apply redraft_events.
      - exact Hinit. }
    destruct (fallbackApplies _ _); [|apply Hfused].
    rewrite lookup_fmap.
    destruct (acquisitions _ !! p) as [a|] eqn:Ha; [|done].
    intros [= <-]. apply previousOwner_not_draft. by apply (Hfused p).
  - intros lin data startup meta pick st Hin Hid Hopen.
    pose proof (redraft_events userId leagueDetails leagueHistoryData lin data
                  Hredraft) as Hall.
    rewrite Forall_forall in Hall. specialize (Hall _ Hin).
    cbn [startupEvent] in Hall. subst startup.
    cbn [applyEvent]. unfold applyPick. rewrite Hid. cbn [andb].
    assert (match acquisitions st !! player_id pick with
            | Some a => isUnknown a || negb (JS.truthy (timestamp a))
            | None => true
            end = true) as ->.
    { destruct (acquisitions st !! player_id pick) as [a|]; [|done].
      destruct (Hopen a eq_refl) as [Hunk%isUnknown_spec| ->];
        [by rewrite Hunk | apply orb_true_r]. }
    cbn [acquisitions]. by rewrite lookup_insert_eq.
  - intros startup meta pick Hne Hin Hid Hadds.
    set (lin := classify userId leagueHistoryData
                  (omap id allHistoricalSeasonDataRaw)) in *.
    set (data := afterFirstPass (omap id allHistoricalSeasonDataRaw)) in *.
    assert (exists r,
              acquisitions
                (fuse userId roster leagueDetails leagueHistoryData lin data)
              !! player_id pick = Some r
              /\ acq_type r = StartupDraft) as (r & Hr & Hkind).
    { rewrite fuse_events.
      apply startup_pick_fold; [by apply redraft_events | done | done | |].
      - intros a. cbn [acquisitions]. rewrite initial_lookup.
        destruct (decide (player_id pick ∈ players roster)); [|done].
        intros [= <-]. by left.
      - left. by exists startup, meta, pick. }
    unfold getPlayerAcquisitions.
    destruct leagueHistoryData as [|node nodes]; [done|]. cbn [length Nat.eqb].
    fold lin data.
    destruct (fallbackApplies _ _).
    + exists r. rewrite lookup_fmap, Hr. cbn. unfold previousOwner.
      assert (isUnknown r = false) as ->
        by (apply isUnknown_false; by rewrite Hkind).
      done.
    + by exists r.
Qed.

Lemma redraft_picks_are_startup_witness :
  currentDraftIsStartup Examples.redraft noLineage
    {| league_id := "L1"; previousLeagueId := Some "L0"%string;
       season := "2023" |}
    {| draft_id := "100"; draft_type := None |} = true
  /\ exists r,
       getPlayerAcquisitions (H := UtcHost.host) "u1" Examples.myRoster
         Examples.redraft Examples.oneSeason None Examples.draftedAndGone
       !! "4866"%string = Some r
       /\ acq_type r = StartupDraft.
Proof.
  destruct (redraft_picks_are_startup (H := UtcHost.host) "u1"
              Examples.myRoster Examples.redraft Examples.oneSeason
              Examples.draftedAndGone
              {| total_rosters := 12;
                 league_settings := Some {| settings_type := Some 0 |} |}
              {| settings_type := Some 0 |}
              eq_refl eq_refl eq_refl) as (Hflag & _ & _ & _ & Hresult).
  split; [apply Hflag|].
  apply (Hresult true Examples.season2023 (Examples.pickOf "4866" 1 3)).
  - discriminate.
  - vm_compute. apply elem_of_cons. by left.
  - reflexivity.
  - intros tx Hin. vm_compute in Hin.
    repeat (apply elem_of_cons in Hin as [Hin|Hin]; [discriminate|]).
    by apply elem_of_nil in Hin.
Defined.

(** *** The keys of the result *)

(** C2 at a concrete input. "u1" drafted "1234", who is no longer on the
    roster: the draft-pick branch, which unlike the transaction branch does
    not ask [roster.players.includes], adds the key "1234", so the keys of
    the result are not the players of the roster. *)
Theorem draft_pick_adds_key_outside_roster :
  ("1234"%string ∉ players Examples.myRoster)
  /\ getPlayerAcquisitions (H := UtcHost.host) "u1" Examples.myRoster
       Examples.dynasty Examples.oneSeason None Examples.draftedAndGone
     !! "1234"%string
     = Some {| acq_type := StartupDraft; details := "2.10";
               timestamp := JS.Num 1685577600000 |}
  /\ dom (getPlayerAcquisitions (H := UtcHost.host) "u1" Examples.myRoster
            Examples.dynasty Examples.oneSeason None Examples.draftedAndGone)
     <> list_to_set (players Examples.myRoster).
Proof.
  assert ("1234"%string ∉ players Examples.myRoster) as Hout.
  { cbn. intros [?|[?|[]%elem_of_nil]%elem_of_cons]%elem_of_cons;
      discriminate. }
  assert (getPlayerAcquisitions (H := UtcHost.host) "u1" Examples.myRoster
            Examples.dynasty Examples.oneSeason None Examples.draftedAndGone
          !! "1234"%string
          = Some {| acq_type := StartupDraft; details := "2.10";
                    timestamp := JS.Num 1685577600000 |}) as Hkey
    by (vm_compute; reflexivity).
  split; [exact Hout|]. split; [exact Hkey|].
  intros Hdom. apply Hout.
  apply (elem_of_list_to_set (C := gset string)). rewrite <- Hdom.
  apply elem_of_dom. rewrite Hkey. by eexists.
Qed.

(** The transaction branch never adds a key. *)
Lemma applyAdd_dom `{Host} (roster : SleeperRoster)
    (transaction : SleeperTransaction) (st : FuseState) (playerId p : string) :
  (forall q, q ∈ players roster -> is_Some (acquisitions st !! q)) ->
  is_Some (acquisitions (applyAdd roster transaction st playerId) !! p) ->
  is_Some (acquisitions st !! p).
Proof.
  intros Hroster. unfold applyAdd.
  destruct (existsb _ _) eqn:Hin; [|done].
  destruct (transactionOverwrites _ _); [|done]. cbn [acquisitions].
  destruct (decide (playerId = p)) as [->|Hne].
  - intros _. by apply Hroster, existsb_eqb_elem_of.
  - by rewrite lookup_insert_ne.
Qed.

(** *** The final pass *)

Lemma fallbackApplies_false (lin : Lineage) (count : nat) :
  fallbackApplies lin count = false
  <-> draftsExistBeforeUserJoinedThisLineage lin = false
      /\ foundUserInLineage lin = true
      /\ JS.truthyOpt (userDesignatedStartupDraftIdInEarliestSeason lin) = true
      /\ count <> 0%nat.
Proof.
  unfold fallbackApplies.
  destruct (draftsExistBeforeUserJoinedThisLineage lin),
    (foundUserInLineage lin),
    (JS.truthyOpt (userDesignatedStartupDraftIdInEarliestSeason lin)),
    (Nat.eqb_spec count 0); cbn; intuition congruence.
Qed.

(** C1, as the code has it. On a lineage that is not empty, every player
    of the roster has a record in the result. When one of the four
    conditions holds, every record is passed through the "Previous Owner"
    reclassification and none is left Unknown. The four conditions fail
    together exactly when no draft preceded the participant, the
    participant was found, a startup draft was designated and at least one
    startup pick was applied; the result then is the fuser's state as it
    stands, Unknown records included. *)
Theorem unknown_resolved_when_fallback_applies `{Host} (userId : string)
    (roster : SleeperRoster) (leagueDetails : option SleeperLeague)
    (leagueHistoryData : list LeagueHistory)
    (allHistoricalSeasonDataRaw : list (option PlayerAcquisitionData)) :
  leagueHistoryData <> [] ->
  let data := omap id allHistoricalSeasonDataRaw in
  let lin := classify userId leagueHistoryData data in
  let st :=
    fuse userId roster leagueDetails leagueHistoryData lin
      (afterFirstPass data) in
  let result :=
    getPlayerAcquisitions userId roster leagueDetails leagueHistoryData
      None allHistoricalSeasonDataRaw in
  (forall p, p ∈ players roster -> is_Some (result !! p))
  /\ (fallbackApplies lin (userStartupDraftPlayerCount st) = true ->
      (forall p, result !! p = previousOwner <$> acquisitions st !! p)
      /\ (forall p r, result !! p = Some r -> acq_type r <> Unknown))
  /\ (fallbackApplies lin (userStartupDraftPlayerCount st) = false ->
      result = acquisitions st)
  /\ (fallbackApplies lin (userStartupDraftPlayerCount st) = false
      <-> draftsExistBeforeUserJoinedThisLineage lin = false
          /\ foundUserInLineage lin = true
          /\ JS.truthyOpt (userDesignatedStartupDraftIdInEarliestSeason lin)
             = true
          /\ userStartupDraftPlayerCount st <> 0%nat).
Proof.
  intros Hne data lin st result.
  split; [intros p; apply roster_players_have_records|].
  assert (result
          = if fallbackApplies lin (userStartupDraftPlayerCount st)
            then previousOwner <$> acquisitions st else acquisitions st)
    as Hresult.
  { subst result. unfold getPlayerAcquisitions.
    destruct leagueHistoryData; [done|]. reflexivity. }
  split; [|split].
  - intros Hgate. rewrite Hresult, Hgate. split.
    + intros p. apply lookup_fmap.
    + intros p r. rewrite lookup_fmap.
      destruct (acquisitions st !! p) as [a|]; [|done].
      intros [= <-]. apply previousOwner_known.
  - intros Hgate. by rewrite Hresult, Hgate.
  - apply fallbackApplies_false.
Qed.

Lemma unknown_resolved_when_fallback_applies_witness :
  is_Some
    (getPlayerAcquisitions (H := UtcHost.host) "u1" Examples.myRoster
       Examples.dynasty Examples.oneSeason None Examples.draftedAndGone
     !! "6794"%string).
Proof.
  refine (proj1 (unknown_resolved_when_fallback_applies (H := UtcHost.host)
                   "u1" Examples.myRoster Examples.dynasty Examples.oneSeason
                   Examples.draftedAndGone _) "6794"%string _).
  - discriminate.
  - apply list_elem_of_In. simpl. tauto.
Defined.

(** C1, as the specification words it, fails: "u1" was found in the only
    season and drafted "4866" in the designated startup draft, so none of
    the four conditions holds, and "6794", about whom the season says
    nothing, is still Unknown in the result. *)
Lemma unknown_player_stays_unknown :
  ("6794"%string ∈ players Examples.myRoster)
  /\ getPlayerAcquisitions (H := UtcHost.host) "u1" Examples.myRoster
       Examples.dynasty Examples.oneSeason None Examples.startupOnly
     !! "6794"%string
     = Some {| acq_type := Unknown; details := "";
               timestamp := JS.Num 0 |}
  /\ getPlayerAcquisitions (H := UtcHost.host) "u1" Examples.myRoster
       Examples.dynasty Examples.oneSeason None Examples.startupOnly
     !! "4866"%string
     = Some {| acq_type := StartupDraft; details := "1.03";
               timestamp := JS.Num 1685577600000 |}.
Proof.
  split; [|split].
  - apply list_elem_of_In. simpl. tauto.
  - vm_compute. reflexivity.
  - vm_compute. reflexivity.
Qed.

End FuserFacts.

(** ** The persistent cache: validity, eviction, clearing, keys *)

Module CacheOpsFacts.
Import Cache CacheOps.

Lemma append_inj_r (p a b : string) : p +:+ a = p +:+ b -> a = b.
Proof.
  induction p as [|c p IH]; cbn; [done|]. intros [= Heq]. by apply IH.
Qed.

Lemma fullKey_inj (key other : string) :
  CACHE_PREFIX +:+ key = CACHE_PREFIX +:+ other -> key = other.
Proof. apply append_inj_r. Qed.

Lemma fullKey_prefix (key : string) :
  String.prefix CACHE_PREFIX (CACHE_PREFIX +:+ key) = true.
Proof. unfold CACHE_PREFIX. simpl. by destruct key. Qed.

Lemma testKey_no_prefix : String.prefix CACHE_PREFIX testKey = false.
Proof. reflexivity. Qed.

Section WithBrowser.
Context {T : Type} `{Browser T}.

Lemma probe_cases (ls : gmap string string) :
  (available ls /\ isLocalStorageAvailable ls = (true, delete testKey ls))
  \/ (~ available ls /\ isLocalStorageAvailable ls = (false, ls)).
Proof.
  unfold available, isLocalStorageAvailable, setItem, removeItem.
  destruct (admits (<[testKey:=testKey]> ls)).
  - left. split; [done|]. by rewrite delete_insert_eq.
  - right. split; [discriminate | done].
Qed.

Lemma available_delete_testKey (ls : gmap string string) :
  available (delete testKey ls) <-> available ls.
Proof. unfold available. by rewrite insert_delete_eq. Qed.

(** The two functions take the same branch. *)
Lemma read_cases (key : string) (now : Z) (ls : gmap string string) :
  (exists (itemStr : string) (item : CacheItem T),
     ls !! (CACHE_PREFIX +:+ key) = Some itemStr
     /\ JSON_parse itemStr = Some item
     /\ now - timestamp item < duration item
     /\ (isCacheValid key now ls).1 = true
     /\ (getFromCache key now ls).1 = Some (data item))
  \/ ((isCacheValid key now ls).1 = false
      /\ (getFromCache key now ls).1 = None).
Proof.
  unfold isCacheValid, getFromCache.
  destruct (probe_cases ls) as [[Hav ->]|[Hun ->]]; cbn [negb fst];
    [|by right].
  rewrite lookup_delete_ne by (symmetry; apply CacheFacts.fullKey_not_testKey).
  destruct (ls !! (CACHE_PREFIX +:+ key)) as [itemStr|]; cbn [fst];
    [|by right].
  destruct (negb (JS.truthyStr itemStr)); cbn [fst]; [by right|].
  destruct (JSON_parse itemStr) as [item|] eqn:Hparse; cbn [fst];
    [|by right].
  destruct (Z.ltb_spec (now - timestamp item) (duration item)); cbn [fst];
    [|by right].
  left. by exists itemStr, item.
Qed.

(** X1. [isCacheValid] answers true exactly when [getFromCache], at the
    same instant and on the same storage, finds a readable entry that has
    not expired and returns its data; when [isCacheValid] answers false,
    [getFromCache] returns [null].  So a value other than [null] from
    [getFromCache] means that [isCacheValid] answers true, and the
    converse fails only for an entry whose data is itself [null] or
    [undefined]: there [isCacheValid] answers true and the caller of
    [getFromCache] receives [null]. *)
Theorem isCacheValid_iff_hit (isNullish : T -> bool) (key : string)
    (now : Z) (ls : gmap string string) :
  ((isCacheValid key now ls).1 = true
   <-> exists (itemStr : string) (item : CacheItem T),
         ls !! (CACHE_PREFIX +:+ key) = Some itemStr
         /\ JSON_parse itemStr = Some item
         /\ now - timestamp item < duration item
         /\ (getFromCache key now ls).1 = Some (data item))
  /\ ((isCacheValid key now ls).1 = false ->
      (getFromCache key now ls).1 = None)
  /\ (is_Some (received isNullish (getFromCache key now ls).1) ->
      (isCacheValid key now ls).1 = true)
  /\ ((isCacheValid key now ls).1 = true ->
      received isNullish (getFromCache key now ls).1 = None ->
      exists d : T,
        (getFromCache key now ls).1 = Some d /\ isNullish d = true).
Proof.
  destruct (read_cases key now ls)
    as [(itemStr & item & Hkey & Hparse & Hfresh & -> & ->)|[-> ->]].
  - split; [|split; [|split]].
    + split; [intros _; by exists itemStr, item | done].
    + done.
    + done.
    + intros _. cbn [received].
      destruct (isNullish (data item)) eqn:Hnull; [|done].
      intros _. by exists (data item).
  - split; [|split; [|split]].
    + split; [done|]. by intros (? & ? & _ & _ & _ & ?).
    + done.
    + cbn [received]. by intros [? ?].
    + done.
Qed.

(** What a read leaves in the storage under the key it asked for. *)
Lemma getFromCache_miss_state (key : string) (now : Z)
    (ls : gmap string string) :
  (getFromCache key now ls).1 = None ->
  (~ available ls /\ (getFromCache key now ls).2 = ls)
  \/ (available ls
      /\ ((getFromCache key now ls).2 = delete testKey ls
          \/ (getFromCache key now ls).2
             = delete (CACHE_PREFIX +:+ key) (delete testKey ls))
      /\ ((getFromCache key now ls).2 !! (CACHE_PREFIX +:+ key) = None
          \/ (getFromCache key now ls).2 !! (CACHE_PREFIX +:+ key)
             = Some ""%string)).
Proof.
  unfold getFromCache.
  destruct (probe_cases ls) as [[Hav ->]|[Hun ->]]; cbn [negb fst snd];
    [|by left].
  intros Hmiss. right. split; [done|].
  destruct (delete testKey ls !! (CACHE_PREFIX +:+ key)) as [itemStr|] eqn:Hk;
    cbn [fst snd] in *.
  - destruct (JS.truthyStr itemStr) eqn:Htruthy; cbn [negb fst snd] in *.
    + unfold removeItem.
      destruct (JSON_parse itemStr) as [item|]; cbn [fst snd] in *.
      * destruct (now - timestamp item <? duration item); cbn [fst snd] in *;
          [done|].
        split; [by right|]. left. apply lookup_delete_eq.
      * split; [by right|]. left. apply lookup_delete_eq.
    + split; [by left|]. right. rewrite Hk. f_equal.
      unfold JS.truthyStr in Htruthy.
      apply negb_false_iff, String.eqb_eq in Htruthy. done.
  - split; [by left|]. by left.
Qed.

End WithBrowser.

(** X2. Once [getFromCache] has answered [null] for a key, it answers [null]
    for that key at every later call, whatever the clock says, until the
    key is saved again: an expired or unreadable entry is gone. *)
Theorem cache_miss_is_permanent {T : Type} `{Browser T}
    (key : string) (now now' : Z) (ls : gmap string string) :
  (getFromCache key now ls).1 = None ->
  (getFromCache key now' (getFromCache key now ls).2).1 = None.
Proof.
  intros Hmiss.
  destruct (getFromCache_miss_state key now ls Hmiss)
    as [[Hun ->]|(Hav & Hstate & Hkey)].
  - unfold getFromCache.
    by destruct (probe_cases ls) as [[Hav _]|[_ ->]].
  - set (ls' := (getFromCache key now ls).2) in *.
    unfold getFromCache.
    destruct (probe_cases ls') as [[Hav' ->]|[_ ->]]; cbn [negb fst];
      [|done].
    rewrite lookup_delete_ne by (symmetry; apply CacheFacts.fullKey_not_testKey).
    by destruct Hkey as [->| ->].
Qed.

Lemma cache_miss_is_permanent_witness :
  (getFromCache (H := PlainBrowser.browser 8) "roster" 5000
     (getFromCache (H := PlainBrowser.browser 8) "roster" 9000
        (saveToCache (H := PlainBrowser.browser 8) "roster" 42 1000 5000 ∅)).2).1
  = None.
Proof.
  apply (cache_miss_is_permanent (H := PlainBrowser.browser 8)).
  vm_compute. reflexivity.
Defined.

End CacheOpsFacts.

(** ** The persistent cache: what a save and a clear leave behind *)

Module CacheFrameFacts.
Import Cache CacheOps.

Section WithBrowser.
Context {T : Type} `{Browser T}.

(** The value a read returns, from the string the storage holds. *)
Lemma getFromCache_value (key : string) (now : Z) (ls : gmap string string) :
  available ls ->
  (getFromCache key now ls).1
  = match ls !! (CACHE_PREFIX +:+ key) with
    | Some itemStr =>
        if JS.truthyStr itemStr then
          match JSON_parse itemStr with
          | Some item =>
              if now - timestamp item <? duration item
              then Some (data item) else None
          | None => None
          end
        else None
    | None => None
    end.
Proof.
  intros Hav. unfold getFromCache.
  rewrite (CacheFacts.probe_available _ Hav). cbn [negb].
  rewrite lookup_delete_ne by (symmetry; apply CacheFacts.fullKey_not_testKey).
  destruct (ls !! (CACHE_PREFIX +:+ key)) as [itemStr|]; [|done].
  destruct (JS.truthyStr itemStr); cbn [negb]; [|done].
  destruct (JSON_parse itemStr) as [item|]; [|done].
  by destruct (now - timestamp item <? duration item).
Qed.

Lemma saveToCache_cases (key : string) (v : T) (d now : Z)
    (ls : gmap string string) :
  available ls ->
  (writable key {| timestamp := now; data := v; duration := d |} ls
   /\ saveToCache key v d now ls
      = <[CACHE_PREFIX +:+ key :=
            JSON_stringify {| timestamp := now; data := v; duration := d |}]>
          (delete testKey ls))
  \/ (~ writable key {| timestamp := now; data := v; duration := d |} ls
      /\ saveToCache key v d now ls = delete testKey ls).
Proof.
  intros Hav. unfold saveToCache, writable.
  rewrite (CacheFacts.probe_available _ Hav). cbn [negb].
  unfold setItem, removeItem. rewrite delete_insert_eq.
  destruct (admits _); [left | right]; split; done.
Qed.

Lemma clearKey_lookup (ls : gmap string string) (a k : string) :
  clearKey ls a !! k
  = if String.prefix CACHE_PREFIX a && bool_decide (a = k)
    then None else ls !! k.
Proof.
  unfold clearKey, removeItem.
  destruct (String.prefix CACHE_PREFIX a); cbn [andb]; [|done].
  case_bool_decide as Heq.
  - subst. apply lookup_delete_eq.
  - by apply lookup_delete_ne.
Qed.

Lemma clear_fold_lookup (keys : list string) (k : string) :
  forall ls : gmap string string,
  foldl clearKey ls keys !! k
  = if String.prefix CACHE_PREFIX k && bool_decide (k ∈ keys)
    then None else ls !! k.
Proof.
  induction keys as [|a keys IH]; intros ls; cbn [foldl].
  - rewrite bool_decide_eq_false_2 by apply not_elem_of_nil.
    by rewrite andb_false_r.
  - rewrite IH, clearKey_lookup.
    destruct (String.prefix CACHE_PREFIX k) eqn:Hk; cbn [andb].
    2:{ destruct (decide (a = k)) as [->|Hne].
        - by rewrite Hk.
        - rewrite (bool_decide_eq_false_2 (a = k)) by done.
          by rewrite andb_false_r. }
    destruct (decide (k ∈ keys)) as [Hin|Hnin].
    + rewrite bool_decide_eq_true_2 by done.
      by rewrite bool_decide_eq_true_2 by (apply elem_of_cons; by right).
    + rewrite (bool_decide_eq_false_2 (k ∈ keys)) by done.
      destruct (decide (a = k)) as [->|Hne].
      * rewrite Hk, bool_decide_eq_true_2 by done. cbn [andb].
        by rewrite bool_decide_eq_true_2 by (apply elem_of_cons; by left).
      * rewrite (bool_decide_eq_false_2 (a = k)) by done.
        rewrite andb_false_r.
        rewrite bool_decide_eq_false_2; [done|].
        intros [?|?]%elem_of_cons; congruence.
Qed.

Lemma clearAllCache_lookup (ls : gmap string string) (k : string) :
  available ls ->
  clearAllCache ls !! k
  = if String.prefix CACHE_PREFIX k then None else delete testKey ls !! k.
Proof.
  intros Hav. unfold clearAllCache.
  rewrite (CacheFacts.probe_available _ Hav). cbn [negb].
  rewrite clear_fold_lookup.
  destruct (String.prefix CACHE_PREFIX k); cbn [andb]; [|done].
  case_bool_decide as Hin; [done|].
  destruct (delete testKey ls !! k) as [v|] eqn:Hk; [|done].
  exfalso. apply Hin. apply list_elem_of_fmap.
  exists (k, v). split; [done|]. by apply elem_of_map_to_list.
Qed.

End WithBrowser.

(** X3. A save under one key leaves the reads of every other key as they
    were, and a save that the storage quota refuses leaves the reads of
    its own key as they were too: the previous entry keeps being served. *)
Theorem save_leaves_other_reads {T : Type} `{Browser T}
    (key other : string) (v : T) (d now later : Z) (ls : gmap string string) :
  available ls ->
  available (saveToCache key v d now ls) ->
  other <> key
  \/ ~ writable key {| timestamp := now; data := v; duration := d |} ls ->
  (getFromCache other later (saveToCache key v d now ls)).1
  = (getFromCache other later ls).1.
Proof.
  intros Hav Hav' Hwhy.
  rewrite !getFromCache_value by done.
  destruct (saveToCache_cases key v d now ls Hav)
    as [[Hw ->]|[Hw ->]].
  - destruct Hwhy as [Hne|Hnw]; [|done].
    rewrite lookup_insert_ne
      by (intros Heq; apply Hne; symmetry; by apply CacheOpsFacts.fullKey_inj).
    by rewrite lookup_delete_ne
      by (symmetry; apply CacheFacts.fullKey_not_testKey).
  - by rewrite lookup_delete_ne
      by (symmetry; apply CacheFacts.fullKey_not_testKey).
Qed.

Lemma save_leaves_other_reads_witness :
  (getFromCache (H := PlainBrowser.browser 8) "roster" 5500
     (saveToCache (H := PlainBrowser.browser 8) "league" 7 1000 5200
        (saveToCache (H := PlainBrowser.browser 8) "roster" 42 1000 5000 ∅))).1
  = (getFromCache (H := PlainBrowser.browser 8) "roster" 5500
       (saveToCache (H := PlainBrowser.browser 8) "roster" 42 1000 5000 ∅)).1.
Proof.
  apply (save_leaves_other_reads (H := PlainBrowser.browser 8)).
  - vm_compute. reflexivity.
  - vm_compute. reflexivity.
  - left. discriminate.
Defined.

(** X4. After [clearAllCache] every [getFromCache] answers [null], and
    when the storage is available the keys that do not start with the
    cache prefix (the probe key apart) hold what they held. *)
Theorem clearAllCache_empties_cache {T : Type} `{Browser T}
    (ls : gmap string string) :
  (forall (key : string) (now : Z),
     (getFromCache key now (clearAllCache ls)).1 = None)
  /\ (available ls ->
      forall k : string,
        String.prefix CACHE_PREFIX k = false -> k <> testKey ->
        clearAllCache ls !! k = ls !! k).
Proof.
  split.
  - intros key now.
    destruct (CacheOpsFacts.probe_cases ls) as [[Hav Hprobe]|[Hun Hprobe]].
    + apply CacheFacts.getFromCache_absent.
      rewrite clearAllCache_lookup by done.
      by rewrite CacheOpsFacts.fullKey_prefix.
    + unfold clearAllCache. rewrite Hprobe. cbn [negb].
      unfold getFromCache. by rewrite Hprobe.
  - intros Hav k Hk Hne. rewrite clearAllCache_lookup by done.
    rewrite Hk. by apply lookup_delete_ne.
Qed.

Lemma clearAllCache_empties_cache_witness :
  clearAllCache (H := PlainBrowser.browser 8)
    (<["theme"%string := "dark"%string]>
       (saveToCache (H := PlainBrowser.browser 8) "roster" 42 1000 5000 ∅))
  !! "theme"%string = Some "dark"%string.
Proof.
  rewrite (proj2 (clearAllCache_empties_cache (H := PlainBrowser.browser 8) _)).
  - vm_compute. reflexivity.
  - vm_compute. reflexivity.
  - reflexivity.
  - discriminate.
Defined.

(** X5. The four kinds of cache key never collide with one another, and
    for identifiers without an underscore the key of a player-acquisitions
    entry (and of a user-leagues entry) determines the pair it was built
    from. *)
Theorem cache_keys_distinguish (a b a' b' : string) :
  getUserLeaguesCacheKey a b <> getPlayerAcquisitionsCacheKey a' b'
  /\ getUserLeaguesCacheKey a b <> getLeagueDetailsCacheKey a'
  /\ getPlayerAcquisitionsCacheKey a b <> getLeagueDetailsCacheKey a'
  /\ getAllPlayersCacheKey <> getUserLeaguesCacheKey a b
  /\ getAllPlayersCacheKey <> getPlayerAcquisitionsCacheKey a b
  /\ getAllPlayersCacheKey <> getLeagueDetailsCacheKey a
  /\ (noUnderscore a = true -> noUnderscore a' = true ->
      (getPlayerAcquisitionsCacheKey a b = getPlayerAcquisitionsCacheKey a' b'
       -> a = a' /\ b = b')
      /\ (getUserLeaguesCacheKey a b = getUserLeaguesCacheKey a' b'
          -> a = a' /\ b = b')).
Proof.
  assert (forall u u' l l' : string,
            noUnderscore u = true -> noUnderscore u' = true ->
            u +:+ "_" +:+ l = u' +:+ "_" +:+ l' -> u = u' /\ l = l') as Hsplit.
  { induction u as [|c u IH]; intros [|c' u'] l l'; simpl.
    - intros _ _ Heq. by injection Heq.
    - intros _ [Hc _]%andb_true_iff Heq. injection Heq as Hc' _.
      subst c'. done.
    - intros [Hc _]%andb_true_iff _ Heq. injection Heq as Hc' _.
      subst c. done.
    - intros [_ Hu]%andb_true_iff [_ Hu']%andb_true_iff Heq.
      injection Heq as -> Heq.
      destruct (IH u' l l' Hu Hu' Heq) as [-> ->]. done. }
  repeat (split; [unfold getUserLeaguesCacheKey, getPlayerAcquisitionsCacheKey,
                    getLeagueDetailsCacheKey, getAllPlayersCacheKey;
                  cbn; discriminate|]).
  intros Ha Ha'. split; intros Heq;
    apply CacheOpsFacts.append_inj_r in Heq; by apply Hsplit.
Qed.

Lemma cache_keys_distinguish_witness :
  noUnderscore "u1" = true
  /\ ("u1"%string = "u1"%string /\ "L1"%string = "L1"%string).
Proof.
  split; [reflexivity|].
  exact (proj1 (proj2 (proj2 (proj2 (proj2 (proj2 (proj2
           (cache_keys_distinguish "u1" "L1" "u1" "L1"))))))
           eq_refl eq_refl) eq_refl).
Defined.

(** Without the hypothesis two pairs can share a key. *)
Remark cache_key_collision :
  getPlayerAcquisitionsCacheKey "a_b" "c"
  = getPlayerAcquisitionsCacheKey "a" "b_c".
Proof. reflexivity. Qed.

End CacheFrameFacts.

(** ** The session caches *)

Module SessionFacts.
Import Api Props Session.

Lemma aborted_mono (abortAt : option nat) (t t' : nat) :
  (t' <= t)%nat -> aborted abortAt t = false -> aborted abortAt t' = false.
Proof.
  destruct abortAt as [a|]; [|done]. unfold aborted.
  intros Hle Ht%Nat.leb_gt. apply Nat.leb_gt. lia.
Qed.

Lemma sessionHit_insert {T : Type} (cache : gmap string (CacheEntry T))
    (cacheKey : string) (v : T) (now now' : Z) :
  now' - now < SESSION_CACHE_EXPIRATION ->
  sessionHit (<[cacheKey := {| ce_data := v; ce_timestamp := now |}]> cache)
    cacheKey now' = Some v.
Proof.
  intros Hfresh. unfold sessionHit. rewrite lookup_insert_eq.
  cbn [ce_timestamp ce_data].
  by destruct (Z.ltb_spec (now' - now) SESSION_CACHE_EXPIRATION); [|lia].
Qed.

(** X6. [getLeagueDrafts] and [getDraftPicks]: when there is no fresh
    entry and the signal does not fire, the answer of the request is
    returned (an empty list for a missing body) and stored; for the next
    hour every call for the same identifier returns that list without
    looking at the network or the signal and leaves the cache alone; the
    entries of other identifiers are not touched. *)
Theorem cachedList_round_trip {A : Type} (prefix id : string) (now now' : Z)
    (body : option (list A)) (abortAt : option nat)
    (cache : gmap string (CacheEntry (list A)))
    (remote' : Response (option (list A))) (abortAt' : option nat) :
  sessionHit cache (prefix +:+ id) now = None ->
  aborted abortAt 1 = false ->
  (cachedList prefix id now (Ok body) abortAt cache).1
  = Returned (default [] body)
  /\ (now' - now < SESSION_CACHE_EXPIRATION ->
      cachedList prefix id now' remote' abortAt'
        (cachedList prefix id now (Ok body) abortAt cache).2
      = (Returned (default [] body),
         (cachedList prefix id now (Ok body) abortAt cache).2))
  /\ (forall other : string, other <> id ->
      (cachedList prefix id now (Ok body) abortAt cache).2
        !! (prefix +:+ other)
      = cache !! (prefix +:+ other)).
Proof.
  intros Hmiss Hab1.
  pose proof (aborted_mono abortAt 1 0 ltac:(lia) Hab1) as Hab0.
  unfold cachedList at 1 3 4 5. rewrite Hmiss, Hab0, Hab1. cbn [fst snd].
  split; [done|]. split.
  - intros Hfresh. unfold cachedList.
    by rewrite (sessionHit_insert cache _ _ now now' Hfresh).
  - intros other Hne. apply lookup_insert_ne.
    intros Heq. apply Hne. symmetry.
    by apply (CacheOpsFacts.append_inj_r prefix).
Qed.

Lemma cachedList_round_trip_witness :
  getLeagueDrafts "L1" 9000 Failed (Some 0%nat)
    (getLeagueDrafts "L1" 5000
       (Ok (Some [ {| draft_id := "100"; draft_type := None |} ])) None ∅).2
  = (Returned [ {| draft_id := "100"; draft_type := None |} ],
     (getLeagueDrafts "L1" 5000
        (Ok (Some [ {| draft_id := "100"; draft_type := None |} ])) None ∅).2).
Proof.
  unfold getLeagueDrafts.
  refine (proj1 (proj2 (cachedList_round_trip "leagueDrafts_" "L1" 5000 9000
                          (Some [ {| draft_id := "100"; draft_type := None |} ])
                          None ∅ Failed (Some 0%nat) _ _)) _).
  - reflexivity.
  - reflexivity.
  - unfold SESSION_CACHE_EXPIRATION. lia.
Defined.

(** The loop with its exits kept apart is the loop of [Api.weekLoop]. *)
Lemma weekLoopExit_outcome
    (remote : nat -> Response (option (list SleeperTransaction)))
    (abortAt : option nat) (weeks : list nat) :
  forall (allTransactions : list SleeperTransaction) (queried : list nat),
  (weekLoop remote abortAt weeks allTransactions queried).1
  = exitOutcome (weekLoopExit remote abortAt weeks allTransactions).
Proof.
  induction weeks as [|w weeks IH]; intros allTransactions queried;
    cbn [weekLoop weekLoopExit]; [done|].
  destruct (aborted abortAt (2 * w)); [done|].
  destruct (aborted abortAt (2 * w + 1)); [done|].
  destruct (remote w) as [body|]; [|done].
  destruct (nonEmpty body); [apply IH|].
  destruct (4 <? w)%nat; [done | apply IH].
Qed.

Lemma weekLoopExit_not_aborted
    (remote : nat -> Response (option (list SleeperTransaction)))
    (weeks : list nat) :
  forall allTransactions l,
  weekLoopExit remote None weeks allTransactions <> WeekAborted l.
Proof.
  induction weeks as [|w weeks IH]; intros allTransactions l;
    cbn [weekLoopExit aborted]; [done|].
  destruct (remote w) as [body|]; [|done].
  destruct (nonEmpty body); [apply IH|].
  destruct (4 <? w)%nat; [done | apply IH].
Qed.

(** X7. [getLeagueTransactions] with its session cache: when there is no
    fresh entry, the run is not cancelled and every request is answered,
    the concatenation of the weeks fetched is returned and stored, and for
    the next hour every call for that league returns the same list
    without a request, whatever the network and the signal do. *)
Theorem transactions_round_trip (leagueId : string) (now now' : Z)
    (remote : nat -> Response (option (list SleeperTransaction)))
    (cache : gmap string (CacheEntry (list SleeperTransaction)))
    (remote' : nat -> Response (option (list SleeperTransaction)))
    (abortAt' : option nat) :
  sessionHit cache ("leagueTransactions_" +:+ leagueId) now = None ->
  (forall w : nat, (1 <= w <= 18)%nat -> remote w <> Failed) ->
  exists n : nat,
    (5 <= n <= 18)%nat
    /\ (Session.getLeagueTransactions leagueId now remote None cache).1
       = Returned (concat (weekly remote <$> seq 1 n))
    /\ (now' - now < SESSION_CACHE_EXPIRATION ->
        Session.getLeagueTransactions leagueId now' remote' abortAt'
          (Session.getLeagueTransactions leagueId now remote None cache).2
        = (Returned (concat (weekly remote <$> seq 1 n)),
           (Session.getLeagueTransactions leagueId now remote None cache).2)).
Proof.
  intros Hmiss Hok.
  destruct (TransactionFacts.weekLoop_seq remote 18 1 [] [])
    as (m & Hm & Hrun & Hstop & _).
  { intros w Hw. apply Hok. lia. }
  assert (5 <= m)%nat as H5.
  { destruct (decide (m < 18)%nat) as [Hlt|]; [|lia].
    destruct (Hstop Hlt). lia. }
  exists m. split; [lia|].
  pose proof (weekLoopExit_outcome remote None (seq 1 18) [] []) as Hout.
  rewrite Hrun in Hout. cbn [fst app] in Hout.
  unfold Session.getLeagueTransactions at 1 3 4. rewrite Hmiss.
  destruct (weekLoopExit remote None (seq 1 18) []) as [all|all|] eqn:Hexit;
    [| by apply weekLoopExit_not_aborted in Hexit | done].
  cbn [exitOutcome] in Hout. injection Hout as <-.
  cbn [aborted fst snd]. split; [done|].
  intros Hfresh. unfold Session.getLeagueTransactions.
  by rewrite (sessionHit_insert cache _ _ now now' Hfresh).
Qed.

Lemma transactions_round_trip_witness :
  exists n : nat,
    (5 <= n <= 18)%nat
    /\ (Session.getLeagueTransactions "L1" 5000 Examples.quietWeekFive None ∅).1
       = Returned (concat (weekly Examples.quietWeekFive <$> seq 1 n)).
Proof.
  destruct (transactions_round_trip "L1" 5000 5000 Examples.quietWeekFive ∅
              Examples.quietWeekFive None) as (n & Hn & Hrun & _).
  - reflexivity.
  - intros w _. unfold Examples.quietWeekFive.
    destruct ((w <=? 4) || (w =? 6))%nat; discriminate.
  - exists n. split; [exact Hn | exact Hrun].
Defined.

(** X8. A run that is cancelled or that fails never writes a session
    cache: once the signal has fired by the last look at it, and whenever
    the call throws, the cache is what it was.  So the partial list a
    cancelled [getLeagueTransactions] returns is not served again. *)
Theorem cancelled_or_failed_run_not_cached {A : Type}
    (prefix id leagueId : string) (now : Z)
    (remote : Response (option (list A)))
    (weekly : nat -> Response (option (list SleeperTransaction)))
    (abortAt : option nat)
    (cache : gmap string (CacheEntry (list A)))
    (txCache : gmap string (CacheEntry (list SleeperTransaction))) :
  (aborted abortAt 1 = true ->
   (cachedList prefix id now remote abortAt cache).2 = cache)
  /\ ((cachedList prefix id now remote abortAt cache).1 = Threw ->
      (cachedList prefix id now remote abortAt cache).2 = cache)
  /\ (aborted abortAt 38 = true ->
      (Session.getLeagueTransactions leagueId now weekly abortAt txCache).2
      = txCache)
  /\ ((Session.getLeagueTransactions leagueId now weekly abortAt txCache).1
      = Threw ->
      (Session.getLeagueTransactions leagueId now weekly abortAt txCache).2
      = txCache).
Proof.
  split; [|split; [|split]].
  - intros Hab. unfold cachedList.
    destruct (sessionHit cache _ now); [done|].
    destruct (aborted abortAt 0); [done|].
    destruct remote; [|done]. cbn [snd]. by rewrite Hab.
  - unfold cachedList.
    destruct (sessionHit cache _ now); [done|].
    destruct (aborted abortAt 0); [done|].
    by destruct remote.
  - intros Hab. unfold Session.getLeagueTransactions.
    destruct (sessionHit txCache _ now); [done|].
    destruct (weekLoopExit weekly abortAt (seq 1 18) []); [|done..].
    cbn [snd]. by rewrite Hab.
  - unfold Session.getLeagueTransactions.
    destruct (sessionHit txCache _ now); [done|].
    by destruct (weekLoopExit weekly abortAt (seq 1 18) []).
Qed.

Lemma cancelled_or_failed_run_not_cached_witness :
  (Session.getLeagueTransactions "L1" 5000 Examples.quietWeekFive
     (Some 7%nat) ∅).2 = ∅.
Proof.
  refine (proj1 (proj2 (proj2
            (cancelled_or_failed_run_not_cached (A := DraftInfo)
               "leagueDrafts_" "L1" "L1" 5000 Failed Examples.quietWeekFive
               (Some 7%nat) ∅ ∅))) _).
  reflexivity.
Defined.

End SessionFacts.

(** ** League details through the cache *)

Module LeagueFacts.
Import Cache CacheOps League.

Lemma essential_resolverView (full : League) :
  resolverView (essentialLeagueDetails full) = resolverView full.
Proof. unfold resolverView. cbn. by destruct (settings full). Qed.

Lemma essential_leagueType (full : League) :
  getLeagueType (Some (essentialLeagueDetails full))
  = getLeagueType (Some full).
Proof. unfold getLeagueType. cbn. by destruct (settings full). Qed.

(** X9. [getLeagueDetails] reads through the persistent cache: a miss
    followed by a successful request returns the league as answered and
    stores its stripped copy; while that copy is fresh (an hour), the next
    call returns it without a request, whatever the network does.  The
    stripped copy gives [getPlayerAcquisitions] the same team count and
    settings type, and the league card the same label, as the full
    answer. *)
Theorem league_details_read_through `{Browser League} (leagueId : string)
    (nowRead nowSave nowRead' nowSave' : Z) (full : League)
    (abortAt abortAt' : option nat) (remote' : Api.Response (option League))
    (ls : gmap string string) :
  (getFromCache (getLeagueDetailsCacheKey leagueId) nowRead ls).1 = None ->
  JS.truthyStr leagueId = true ->
  Api.aborted abortAt 0 = false ->
  available (getFromCache (getLeagueDetailsCacheKey leagueId) nowRead ls).2 ->
  writable (getLeagueDetailsCacheKey leagueId)
    {| timestamp := nowSave; data := essentialLeagueDetails full;
       duration := DEFAULT_CACHE_DURATION_MS |}
    (getFromCache (getLeagueDetailsCacheKey leagueId) nowRead ls).2 ->
  serializable
    {| timestamp := nowSave; data := essentialLeagueDetails full;
       duration := DEFAULT_CACHE_DURATION_MS |} ->
  available
    (getLeagueDetails leagueId nowRead nowSave (Api.Ok (Some full)) abortAt
       ls).2 ->
  nowRead' - nowSave < DEFAULT_CACHE_DURATION_MS ->
  (getLeagueDetails leagueId nowRead nowSave (Api.Ok (Some full)) abortAt
     ls).1 = Some full
  /\ (getLeagueDetails leagueId nowRead' nowSave' remote' abortAt'
        (getLeagueDetails leagueId nowRead nowSave (Api.Ok (Some full))
           abortAt ls).2).1
     = Some (essentialLeagueDetails full)
  /\ resolverView (essentialLeagueDetails full) = resolverView full
  /\ getLeagueType (Some (essentialLeagueDetails full))
     = getLeagueType (Some full).
Proof.
  intros Hmiss Hid Hab Hav1 Hw [Hne Hrt] Hav2 Hfresh.
  unfold getLeagueDetails in *.
  destruct (getFromCache (getLeagueDetailsCacheKey leagueId) nowRead ls)
    as [cached ls1] eqn:Hfirst.
  cbn [fst snd] in *. subst cached.
  rewrite Hid, Hab in *. cbn [negb fst snd] in *.
  split; [done|]. split; [|split];
    [| apply essential_resolverView | apply essential_leagueType].
  pose proof (CacheFrameFacts.getFromCache_value
                (getLeagueDetailsCacheKey leagueId) nowRead' _ Hav2) as Hval.
  destruct (getFromCache (getLeagueDetailsCacheKey leagueId) nowRead'
              (saveToCache (getLeagueDetailsCacheKey leagueId)
                 (essentialLeagueDetails full) DEFAULT_CACHE_DURATION_MS
                 nowSave ls1)) as [cached' ls2].
  cbn [fst] in Hval. subst cached'.
  rewrite (CacheFacts.saveToCache_stored _ _ _ _ _ Hav1 Hw).
  rewrite lookup_insert_eq, Hne, Hrt.
  cbn [timestamp duration data].
  by rewrite (proj2 (Z.ltb_lt _ _) Hfresh).
Qed.

Lemma league_details_read_through_witness :
  (getLeagueDetails (H := LeagueBrowser.browser 8) "L2" 6000 6100 Api.Failed
     None
     (getLeagueDetails (H := LeagueBrowser.browser 8) "L2" 5000 5100
        (Api.Ok (Some LeagueBrowser.secondSeason)) None ∅).2).1
  = Some (essentialLeagueDetails LeagueBrowser.secondSeason).
Proof.
  refine (proj1 (proj2
            (league_details_read_through (H := LeagueBrowser.browser 8)
               "L2" 5000 5100 6000 6100 LeagueBrowser.secondSeason None None
               Api.Failed ∅ _ _ _ _ _ _ _ _)));
    try (vm_compute; reflexivity); split; vm_compute; reflexivity.
Defined.

(** X10. The league card says "Redraft" exactly when the settings type is
    0, which is when [getPlayerAcquisitions] treats the league as redraft,
    or when the type is missing or none of 0, 1 and 2 and the league has
    no previous league; in that second case the fuser does not treat the
    league as redraft. *)
Theorem league_card_redraft (l : League) :
  getLeagueType (Some l) = "Redraft"%string
  <-> Api.isRedraft (Some (resolverView l)) = true
      \/ (JS.truthyOpt (previous_league_id l) = false
          /\ forall s t, settings l = Some s -> type s = Some t ->
                         t <> 0 /\ t <> 1 /\ t <> 2).
Proof.
  unfold getLeagueType, Api.isRedraft, resolverView.
  cbn [Api.league_settings Api.settings_type].
  destruct (settings l) as [s|]; cbn [Api.settings_type].
  - destruct (type s) as [t|] eqn:Ht.
    + destruct (Z.eqb_spec t 2) as [->|H2]; [|
      destruct (Z.eqb_spec t 1) as [->|H1]; [|
      destruct (Z.eqb_spec t 0) as [->|H0]]].
      * split; [done|]. intros [?|[_ Hno]]; [done|].
        by destruct (Hno s 2 eq_refl Ht) as (_ & _ & ?).
      * split; [done|]. intros [?|[_ Hno]]; [done|].
        by destruct (Hno s 1 eq_refl Ht) as (_ & ? & _).
      * split; [by left | done].
      * destruct (JS.truthyOpt (previous_league_id l)).
        -- split; [done|]. by intros [?|[? _]].
        -- split; [|done]. intros _. right. split; [done|].
           intros s0 t0 [= <-] Ht0. rewrite Ht in Ht0.
           by injection Ht0 as <-.
    + destruct (JS.truthyOpt (previous_league_id l)).
      * split; [done|]. by intros [?|[? _]].
      * split; [|done]. intros _. right. split; [done|].
        intros s0 t0 [= <-] Ht0. by rewrite Ht in Ht0.
  - destruct (JS.truthyOpt (previous_league_id l)).
    + split; [done|]. by intros [?|[? _]].
    + split; [|done]. intros _. right. by split.
Qed.

End LeagueFacts.

(** ** Sorting the drafts *)

Module SortFacts.
Import Api ResolverProps.

Section Generic.
Context {A : Type} (lt : A -> A -> bool).

Lemma insertSorted_perm (x : A) (l : list A) :
  JS.insertSorted lt x l ≡ₚ x :: l.
Proof.
  induction l as [|y l IH]; cbn [JS.insertSorted]; [done|].
  destruct (lt x y); [done|]. rewrite IH. apply Permutation_swap.
Qed.

Lemma sort_fold_perm (l : list A) :
  forall acc : list A,
  foldl (fun acc x => JS.insertSorted lt x acc) acc l ≡ₚ acc ++ l.
Proof.
  induction l as [|x l IH]; intros acc; cbn [foldl].
  - by rewrite app_nil_r.
  - rewrite IH, insertSorted_perm. cbn [app]. apply Permutation_middle.
Qed.

Lemma sort_perm (l : list A) : JS.sort lt l ≡ₚ l.
Proof. unfold JS.sort. by rewrite sort_fold_perm. Qed.

Context (key : A -> Z) (P : A -> Prop).
Context (lt_key : forall a b, P a -> P b -> lt a b = (key a <? key b)).

Lemma insertSorted_sorted (x : A) (l : list A) :
  P x -> Forall P l ->
  StronglySorted (fun a b => key a <= key b) l ->
  StronglySorted (fun a b => key a <= key b) (JS.insertSorted lt x l).
Proof.
  intros Hx. induction l as [|y l IH]; intros HP Hsorted;
    cbn [JS.insertSorted].
  - by repeat constructor.
  - inversion HP as [|? ? Hy HPl]; subst.
    inversion Hsorted as [|? ? Hl Hyl]; subst.
    rewrite (lt_key x y Hx Hy).
    destruct (Z.ltb_spec (key x) (key y)) as [Hlt|Hge].
    + constructor; [done|]. constructor; [lia|].
      eapply Forall_impl; [exact Hyl|]. cbn. intros. lia.
    + constructor; [by apply IH|].
      rewrite insertSorted_perm. by constructor.
Qed.

Lemma sort_fold_sorted (l : list A) :
  forall acc : list A,
  Forall P acc -> Forall P l ->
  StronglySorted (fun a b => key a <= key b) acc ->
  StronglySorted (fun a b => key a <= key b)
    (foldl (fun acc x => JS.insertSorted lt x acc) acc l).
Proof.
  induction l as [|x l IH]; intros acc Hacc Hl Hsorted; cbn [foldl]; [done|].
  inversion Hl; subst. apply IH; [|done|by apply insertSorted_sorted].
  rewrite insertSorted_perm. by constructor.
Qed.

End Generic.

(** X11. Sorting the drafts of a season neither drops nor repeats a
    draft, and when every draft identifier is a number the result is in
    ascending order of these numbers. *)
Theorem sortDrafts_sorted_permutation `{Host} (l : list SeasonDraft) :
  sortDrafts l ≡ₚ l
  /\ (Forall numericDraft l ->
      StronglySorted (fun a b => draftNumber a <= draftNumber b)
        (sortDrafts l)).
Proof.
  split; [apply sort_perm|].
  intros Hnum. unfold sortDrafts, JS.sort.
  apply (sort_fold_sorted draftBefore draftNumber numericDraft);
    [|by constructor|done|by constructor].
  intros a b [x Hx] [y Hy]. unfold draftBefore, draftNumber.
  rewrite Hx, Hy.
  destruct (Z.ltb_spec (x - y) 0), (Z.ltb_spec x y); lia || done.
Qed.

Lemma sortDrafts_sorted_permutation_witness :
  StronglySorted
    (fun a b => draftNumber (H := UtcHost.host) a
                <= draftNumber (H := UtcHost.host) b)
    (sortDrafts (H := UtcHost.host)
       [ {| draftInfo := {| draft_id := "200"; draft_type := None |};
            picks := [] |};
         {| draftInfo := {| draft_id := "100"; draft_type := None |};
            picks := [] |} ]).
Proof.
  apply (proj2 (sortDrafts_sorted_permutation (H := UtcHost.host) _)).
  repeat constructor; eexists; vm_compute; reflexivity.
Defined.

End SortFacts.

(** ** The classifier *)

Module ClassifierFacts.
Import Api ResolverProps.

Section WithResolver.
Context `{Host}.
Context (userId : string) (leagueHistoryData : list LeagueHistory).

Lemma classify_found_stable (l : list PlayerAcquisitionData) :
  forall st : Lineage,
  foundUserInLineage st = true ->
  foldl (classifySeason userId leagueHistoryData) st l = st.
Proof.
  induction l as [|d l IH]; intros st Hfound; cbn [foldl]; [done|].
  assert (classifySeason userId leagueHistoryData st d = st) as ->;
    [|by apply IH].
  unfold classifySeason. rewrite Hfound. cbn [negb].
  destruct (pa_roster d); [done|]. by rewrite andb_false_r.
Qed.

Lemma classify_noRoster_prefix (pre : list PlayerAcquisitionData) :
  forall st : Lineage,
  Forall noRoster pre ->
  foundUserInLineage st = false ->
  foldl (classifySeason userId leagueHistoryData) st pre
  = {| userEarliestSeasonData := userEarliestSeasonData st;
       userDesignatedStartupDraftIdInEarliestSeason :=
         userDesignatedStartupDraftIdInEarliestSeason st;
       draftsExistBeforeUserJoinedThisLineage :=
         draftsExistBeforeUserJoinedThisLineage st
         || existsb (fun d => (0 <? length (pa_drafts d))%nat) pre;
       foundUserInLineage := false |}.
Proof.
  induction pre as [|d pre IH]; intros st Hpre Hfound; cbn [foldl existsb].
  - rewrite orb_false_r. destruct st. cbn in *. by subst.
  - inversion Hpre as [|? ? Hd Hrest]; subst.
    rewrite IH; [|done|].
    + unfold classifySeason. rewrite Hd, Hfound. cbn [negb].
      rewrite andb_true_r.
      destruct (0 <? length (pa_drafts d))%nat; cbn; [|done].
      by rewrite orb_true_r.
    + unfold classifySeason. rewrite Hd, Hfound. cbn [negb].
      by destruct (_ && _).
Qed.

(** X12. The classification is settled by the first season in which the
    participant has a roster: the seasons before it only say whether any
    of them held a draft, the seasons after it change nothing.  When no
    season has the participant's roster, the participant is not found and
    nothing is designated. *)
Theorem classify_by_first_roster_season
    (pre rest : list PlayerAcquisitionData) (d0 : PlayerAcquisitionData)
    (r : SleeperRoster) :
  Forall noRoster pre ->
  (pa_roster d0 = Some r ->
   classify userId leagueHistoryData (pre ++ d0 :: rest)
   = {| userEarliestSeasonData :=
          find (sameSeason d0) leagueHistoryData;
        userDesignatedStartupDraftIdInEarliestSeason :=
          designateAgain userId (sortDrafts (pa_drafts d0))
            (designateLoop userId (sortDrafts (pa_drafts d0)) None);
        draftsExistBeforeUserJoinedThisLineage :=
          existsb (fun d => (0 <? length (pa_drafts d))%nat) pre;
        foundUserInLineage := true |})
  /\ classify userId leagueHistoryData pre
     = {| userEarliestSeasonData := None;
          userDesignatedStartupDraftIdInEarliestSeason := None;
          draftsExistBeforeUserJoinedThisLineage :=
            existsb (fun d => (0 <? length (pa_drafts d))%nat) pre;
          foundUserInLineage := false |}.
Proof.
  intros Hpre. split.
  - intros Hroster. unfold classify.
    rewrite foldl_app. cbn [foldl].
    rewrite (classify_noRoster_prefix pre noLineage Hpre eq_refl).
    rewrite classify_found_stable.
    + unfold classifySeason at 1. rewrite Hroster. reflexivity.
    + unfold classifySeason. by rewrite Hroster.
  - unfold classify.
    by rewrite (classify_noRoster_prefix pre noLineage Hpre eq_refl).
Qed.

End WithResolver.

Lemma classify_by_first_roster_season_witness :
  foundUserInLineage
    (classify (H := UtcHost.host) "u1" Examples.oneSeason
       (omap id Examples.startupOnly)) = true.
Proof.
  pose proof (proj1 (classify_by_first_roster_season (H := UtcHost.host)
                       "u1" Examples.oneSeason [] []
                       {| pa_leagueId := "L1"; pa_season := "2023";
                          pa_roster := Some Examples.myRoster;
                          pa_drafts :=
                            [ {| draftInfo :=
                                   {| draft_id := "100"; draft_type := None |};
                                 picks := [ Examples.pickOf "4866" 1 3 ] |} ];
                          pa_transactions := [] |}
                       Examples.myRoster (Forall_nil_2 _)) eq_refl) as Hc.
  cbn [app] in Hc. cbn [omap Examples.startupOnly]. unfold Examples.startupOnly.
  cbn [omap list_omap id]. by rewrite Hc.
Defined.

End ClassifierFacts.

(** ** The designated startup draft *)

Module DesignationFacts.
Import Api ResolverProps.

Section WithUser.
Context (userId : string).

Lemma designateLoop_spec (l : list SeasonDraft) :
  forall designated : option string,
  Forall (fun d => userParticipated userId d = true ->
                   JS.truthyStr (draft_id (draftInfo d)) = true) l ->
  designated = None \/ JS.truthyOpt designated = true ->
  designateLoop userId l designated
  = match find (fun d => userParticipated userId d && namedStartup d) l with
    | Some d => Some (draft_id (draftInfo d))
    | None =>
        match designated with
        | Some _ => designated
        | None =>
            (fun d => draft_id (draftInfo d))
              <$> find (userParticipated userId) l
        end
    end.
Proof.
  induction l as [|d l IH]; intros designated Hids Hacc;
    cbn [designateLoop find].
  - by destruct designated.
  - inversion Hids as [|? ? Hd Hl]; subst.
    destruct (userParticipated userId d) eqn:Hpart; cbn [andb].
    + destruct (namedStartup d); [done|].
      rewrite IH; [|done|].
      * destruct (find _ l); [done|].
        destruct Hacc as [->|Htruthy]; [done|].
        rewrite Htruthy. cbn [negb]. by destruct designated.
      * destruct Hacc as [->|Htruthy]; cbn [JS.truthyOpt negb].
        -- right. by apply Hd.
        -- rewrite Htruthy. by right.
    + by apply IH.
Qed.

End WithUser.

(** X13. When every draft the participant picked in has a non-empty
    identifier, the designated startup draft is the first draft, in sorted
    order, that the participant picked in and that is named a startup
    draft (by its type, or by "startup" or "initial" in its identifier);
    when there is none, it is the first draft the participant picked in;
    and nothing is designated when the participant picked in no draft. *)
Theorem designated_startup_draft (userId : string)
    (sortedDrafts : list SeasonDraft) :
  Forall (fun d => userParticipated userId d = true ->
                   JS.truthyStr (draft_id (draftInfo d)) = true)
    sortedDrafts ->
  designateAgain userId sortedDrafts (designateLoop userId sortedDrafts None)
  = (fun d => draft_id (draftInfo d)) <$> firstChoice userId sortedDrafts.
Proof.
  intros Hids.
  rewrite (designateLoop_spec userId sortedDrafts None Hids (or_introl eq_refl)).
  unfold firstChoice, designateAgain.
  destruct (find (fun d => userParticipated userId d && namedStartup d)
              sortedDrafts) as [d|] eqn:Hnamed.
  - apply find_some in Hnamed as [Hin%list_elem_of_In [Hpart _]%andb_true_iff].
    rewrite Forall_forall in Hids.
    cbn [JS.truthyOpt fmap option_fmap option_map].
    by rewrite (Hids d Hin Hpart).
  - destruct (find (userParticipated userId) sortedDrafts) as [d|] eqn:Hfirst.
    + apply find_some in Hfirst as [Hin%list_elem_of_In Hpart].
      rewrite Forall_forall in Hids.
      cbn [JS.truthyOpt fmap option_fmap option_map].
      by rewrite (Hids d Hin Hpart).
    + cbn [JS.truthyOpt fmap option_fmap option_map negb andb].
      destruct (0 <? length sortedDrafts)%nat; [|done].
      by destruct (existsb (userParticipated userId) sortedDrafts).
Qed.

Lemma designated_startup_draft_witness :
  designateAgain "u1"
    [ {| draftInfo := {| draft_id := "100"; draft_type := None |};
         picks := [ Examples.pickOf "4866" 1 3 ] |};
      {| draftInfo := {| draft_id := "200";
                         draft_type := Some "startup"%string |};
         picks := [ Examples.pickOf "6794" 1 5 ] |} ]
    (designateLoop "u1"
       [ {| draftInfo := {| draft_id := "100"; draft_type := None |};
            picks := [ Examples.pickOf "4866" 1 3 ] |};
         {| draftInfo := {| draft_id := "200";
                            draft_type := Some "startup"%string |};
            picks := [ Examples.pickOf "6794" 1 5 ] |} ]
       None)
  = Some "200"%string.
Proof.
  rewrite designated_startup_draft; [reflexivity|].
  repeat constructor.
Defined.

End DesignationFacts.

(** ** What the result holds *)

Module ResultFacts.
Import Api Props ResolverProps.

Lemma transactionRecord_timestamp `{Host} (transaction : SleeperTransaction) :
  timestamp (transactionRecord transaction) = JS.Num (created transaction).
Proof.
  unfold transactionRecord.
  by repeat (destruct (String.eqb _ _); [done|]).
Qed.

Section WithResolver.
Context `{Host}.
Context (userId : string) (roster : SleeperRoster).
Context (leagueDetails : option SleeperLeague).
Context (leagueHistoryData : list LeagueHistory).

(** *** A participant who is in no season *)

Lemma afterFirstPass_noRoster (data : list PlayerAcquisitionData) :
  Forall noRoster data -> afterFirstPass data = data.
Proof.
  induction 1 as [|d data Hd _ IH]; cbn [afterFirstPass]; [done|].
  rewrite Hd. by rewrite IH.
Qed.

Lemma fuse_noRoster (lin : Lineage) (data : list PlayerAcquisitionData) :
  forall st : FuseState,
  Forall noRoster data ->
  foldl (fuseSeason userId roster leagueDetails leagueHistoryData lin) st data
  = st.
Proof.
  induction data as [|d data IH]; intros st Hdata; cbn [foldl]; [done|].
  inversion Hdata as [|? ? Hd Hrest]; subst.
  unfold fuseSeason at 2. rewrite Hd. by apply IH.
Qed.

Lemma omap_id_noRoster
    (raw : list (option PlayerAcquisitionData)) :
  (forall d, Some d ∈ raw -> pa_roster d = None) ->
  Forall noRoster (omap id raw).
Proof.
  intros Hraw. apply Forall_forall. intros d Hd.
  apply list_elem_of_omap in Hd as (o & Ho & Heq).
  cbn in Heq. subst o. by apply Hraw.
Qed.

(** *** Where the keys come from *)

Lemma applyEvent_new_key (st : FuseState) (e : Event) (p : string) :
  is_Some (acquisitions (applyEvent roster leagueDetails st e) !! p) ->
  is_Some (acquisitions st !! p)
  \/ p ∈ players roster
  \/ exists startup meta pick, e = PickEvent startup meta pick
                               /\ player_id pick = p.
Proof.
  destruct e as [startup meta pick|transaction playerId]; cbn [applyEvent].
  - unfold applyPick. destruct (_ && _); [|by left]. cbn [acquisitions].
    destruct (decide (player_id pick = p)) as [Heq|Hne].
    + intros _. right. right. eauto.
    + rewrite lookup_insert_ne by done. by left.
  - unfold applyAdd. destruct (existsb _ _) eqn:Hin; [|by left].
    destruct (transactionOverwrites _ _); [|by left]. cbn [acquisitions].
    destruct (decide (playerId = p)) as [->|Hne].
    + intros _. right. left. by apply FuserFacts.existsb_eqb_elem_of.
    + rewrite lookup_insert_ne by done. by left.
Qed.

Lemma afterFirstPass_elem (data : list PlayerAcquisitionData)
    (d' : PlayerAcquisitionData) :
  d' ∈ afterFirstPass data ->
  exists d, d ∈ data /\ pa_drafts d' ≡ₚ pa_drafts d.
Proof.
  induction data as [|d data IH]; cbn [afterFirstPass];
    [by intros ?%elem_of_nil|].
  destruct (pa_roster d).
  - intros [Heq|Hin]%elem_of_cons.
    + exists d. split; [apply elem_of_cons; by left|]. subst d'.
      cbn [pa_drafts]. apply SortFacts.sort_perm.
    + exists d'. split; [apply elem_of_cons; by right | done].
  - intros [Heq|Hin]%elem_of_cons.
    + exists d. split; [apply elem_of_cons; by left | by subst d'].
    + destruct (IH Hin) as (d0 & Hd0 & Hperm).
      exists d0. split; [apply elem_of_cons; by right | done].
Qed.

Lemma fuseEvents_pick (lin : Lineage) (data : list PlayerAcquisitionData)
    (startup : bool) (meta : LeagueHistory) (pick : SleeperDraftPick) :
  PickEvent startup meta pick
    ∈ fuseEvents userId leagueDetails leagueHistoryData lin data ->
  exists d draft, d ∈ data /\ draft ∈ pa_drafts d /\ pick ∈ picks draft
                  /\ picked_by pick = userId.
Proof.
  unfold fuseEvents. intros (d & He & Hd)%list_elem_of_bind.
  exists d. unfold seasonEvents in He.
  destruct (pa_roster d); [|by apply elem_of_nil in He].
  destruct (find _ leagueHistoryData) as [m|]; [|by apply elem_of_nil in He].
  apply elem_of_app in He as [He|He].
  - apply list_elem_of_bind in He as (draft & He & Hdraft).
    exists draft. split; [done|].
    split; [by rewrite <- (SortFacts.sort_perm draftBefore (pa_drafts d))|].
    unfold draftEvents in He.
    destruct (length _ =? 0)%nat; [by apply elem_of_nil in He|].
    apply list_elem_of_fmap in He as (pick' & [= _ _ ->] & Hpick).
    apply list_elem_of_In, filter_In in Hpick as [Hpick Hby].
    split; [by apply list_elem_of_In|]. by apply String.eqb_eq.
  - apply list_elem_of_bind in He as (transaction & He & _).
    unfold transactionEvents in He.
    destruct (negb _); [by apply elem_of_nil in He|].
    destruct (adds transaction); [|by apply elem_of_nil in He].
    by apply list_elem_of_fmap in He as (? & ? & _).
Qed.

(** *** The date of a record *)

Lemma applyAdd_dated (transaction : SleeperTransaction) (st : FuseState)
    (p : string) :
  p ∈ players roster -> 0 < created transaction ->
  datedSince (acquisitions (applyAdd roster transaction st p)) p
    (created transaction).
Proof.
  intros Hin Hpos. apply FuserFacts.existsb_eqb_elem_of in Hin.
  unfold applyAdd. rewrite Hin.
  destruct (transactionOverwrites (acquisitions st !! p)
              (created transaction)) eqn:Hover.
  - exists (transactionRecord transaction), (created transaction).
    cbn [acquisitions]. rewrite lookup_insert_eq.
    split; [done|]. split; [apply transactionRecord_timestamp|].
    split; [lia|].
    by destruct (FuserFacts.transactionRecord_known transaction).
  - unfold transactionOverwrites in Hover.
    destruct (acquisitions st !! p) as [cur|] eqn:Hcur; [|done].
    apply orb_false_iff in Hover as [Hknown Hover].
    assert ((created transaction =? 0) = false) as Hne
      by (apply Z.eqb_neq; lia).
    rewrite Hne in Hover. cbn [negb andb] in Hover.
    apply orb_false_iff in Hover as [Htruthy Hgt].
    destruct (timestamp cur) as [t'|] eqn:Hts; [|done].
    exists cur, t'. split; [done|]. split; [done|].
    split; [cbn in Hgt; by apply Z.ltb_ge in Hgt|].
    by apply FuserFacts.isUnknown_false.
Qed.

Lemma applyEvent_dated (st : FuseState) (e : Event) (p : string) (t : Z) :
  0 < t ->
  datedSince (acquisitions st) p t ->
  datedSince (acquisitions (applyEvent roster leagueDetails st e)) p t.
Proof.
  intros Hpos (r & t' & Hr & Hts & Hle & Hknown).
  assert (isUnknown r = false) as Hk by (by apply FuserFacts.isUnknown_false).
  assert (JS.truthy (timestamp r) = true) as Htruthy.
  { rewrite Hts. cbn. apply negb_true_iff, Z.eqb_neq. lia. }
  destruct e as [startup meta pick|transaction playerId]; cbn [applyEvent].
  - unfold applyPick.
    destruct (decide (player_id pick = p)) as [->|Hne].
    + rewrite Hr, Hk, Htruthy. cbn [negb orb]. rewrite andb_false_r.
      by exists r, t'.
    + destruct (_ && _); [|by exists r, t'].
      exists r, t'. cbn [acquisitions]. by rewrite lookup_insert_ne.
  - unfold applyAdd. destruct (existsb _ _); [|by exists r, t'].
    destruct (decide (playerId = p)) as [->|Hne].
    + rewrite Hr. unfold transactionOverwrites.
      rewrite Hk, Htruthy, Hts. cbn [negb orb JS.gt].
      destruct (negb (created transaction =? 0)); cbn [andb];
        [|by exists r, t'].
      destruct (Z.ltb_spec t' (created transaction)) as [Hlt|?];
        [|by exists r, t'].
      exists (transactionRecord transaction), (created transaction).
      cbn [acquisitions]. rewrite lookup_insert_eq.
      split; [done|]. split; [apply transactionRecord_timestamp|].
      split; [lia|].
      by destruct (FuserFacts.transactionRecord_known transaction).
    + destruct (transactionOverwrites _ _); [|by exists r, t'].
      exists r, t'. cbn [acquisitions]. by rewrite lookup_insert_ne.
Qed.

End WithResolver.

(** X14. A participant who has a roster in no season of a non-empty
    lineage: the result holds exactly the players of the roster, each as
    "Previous Owner" with the standard detail. *)
Theorem never_found_all_previous_owner `{Host} (userId : string)
    (roster : SleeperRoster) (leagueDetails : option SleeperLeague)
    (leagueHistoryData : list LeagueHistory)
    (allHistoricalSeasonDataRaw : list (option PlayerAcquisitionData))
    (p : string) :
  leagueHistoryData <> [] ->
  (forall d, Some d ∈ allHistoricalSeasonDataRaw -> pa_roster d = None) ->
  getPlayerAcquisitions userId roster leagueDetails leagueHistoryData None
    allHistoricalSeasonDataRaw !! p
  = if decide (p ∈ players roster) then Some previousOwnerRecord else None.
Proof.
  intros Hne Hraw. unfold getPlayerAcquisitions.
  destruct leagueHistoryData as [|node nodes] eqn:Hhist; [done|].
  cbn [length Nat.eqb]. rewrite <- Hhist.
  pose proof (omap_id_noRoster _ Hraw) as Hdata.
  rewrite (afterFirstPass_noRoster _ Hdata).
  unfold fuse. rewrite (fuse_noRoster userId roster leagueDetails _ _ _ _ Hdata).
  unfold classify.
  rewrite (ClassifierFacts.classify_noRoster_prefix userId leagueHistoryData
             _ noLineage Hdata eq_refl).
  unfold fallbackApplies. cbn [foundUserInLineage negb acquisitions].
  rewrite orb_true_r. rewrite lookup_fmap, FuserFacts.initial_lookup.
  by destruct (decide (p ∈ players roster)).
Qed.

Lemma never_found_all_previous_owner_witness :
  getPlayerAcquisitions (H := UtcHost.host) "u1" Examples.myRoster
    Examples.dynasty Examples.oneSeason None [None] !! "6794"%string
  = Some previousOwnerRecord.
Proof.
  rewrite (never_found_all_previous_owner (H := UtcHost.host)).
  - reflexivity.
  - discriminate.
  - intros d Hd. apply list_elem_of_singleton in Hd. discriminate.
Defined.

(** X15. On a run that does not hit the persistent cache, every key of
    the result is a player of the roster or a player the participant
    picked in a draft of one of the seasons: transactions add no key, and
    nothing else does. *)
Theorem result_keys_bounded `{Host} (userId : string)
    (roster : SleeperRoster) (leagueDetails : option SleeperLeague)
    (leagueHistoryData : list LeagueHistory)
    (allHistoricalSeasonDataRaw : list (option PlayerAcquisitionData))
    (p : string) :
  is_Some
    (getPlayerAcquisitions userId roster leagueDetails leagueHistoryData None
       allHistoricalSeasonDataRaw !! p) ->
  p ∈ players roster \/ draftedBy userId allHistoricalSeasonDataRaw p.
Proof.
  unfold getPlayerAcquisitions.
  assert (is_Some (initialAcquisitions roster !! p) -> p ∈ players roster)
    as Hinit.
  { rewrite FuserFacts.initial_lookup.
    destruct (decide (p ∈ players roster)); [done | by intros [? ?]]. }
  destruct (length leagueHistoryData =? 0)%nat; [by left; apply Hinit|].
  set (lin := classify userId leagueHistoryData
                (omap id allHistoricalSeasonDataRaw)).
  set (data := afterFirstPass (omap id allHistoricalSeasonDataRaw)).
  assert (is_Some
            (acquisitions
               (fuse userId roster leagueDetails leagueHistoryData lin data)
             !! p) ->
          p ∈ players roster \/ draftedBy userId allHistoricalSeasonDataRaw p)
    as Hfused.
  { rewrite FuserFacts.fuse_events.
    apply (FuserFacts.foldl_preserves (applyEvent roster leagueDetails)
             (fun st => is_Some (acquisitions st !! p) ->
                        p ∈ players roster
                        \/ draftedBy userId allHistoricalSeasonDataRaw p)
             (fun e => e ∈ fuseEvents userId leagueDetails leagueHistoryData
                             lin data)).
    - intros st e He Hst Hsome.
      destruct (applyEvent_new_key roster leagueDetails st e p Hsome)
        as [Hold|[Hin|(startup & meta & pick & -> & Hp)]];
        [by apply Hst | by left |].
      right.
      destruct (fuseEvents_pick userId leagueDetails leagueHistoryData lin
                  data startup meta pick He)
        as (d' & draft & Hd' & Hdraft & Hpick & Hby).
      destruct (afterFirstPass_elem _ d' Hd') as (d & Hd & Hperm).
      exists d, draft, pick. split; [|split; [|done]].
      + apply list_elem_of_omap in Hd as (o & Ho & Heq).
        cbn in Heq. by subst o.
      + by rewrite <- Hperm.
    - by apply Forall_forall.
    - intros Hsome. left. by apply Hinit. }
  destruct (fallbackApplies _ _); [|exact Hfused].
  rewrite lookup_fmap. intros Hsome. apply Hfused.
  by apply fmap_is_Some in Hsome.
Qed.

Lemma result_keys_bounded_witness :
  ("1234"%string ∈ players Examples.myRoster)
  \/ draftedBy "u1" Examples.draftedAndGone "1234".
Proof.
  apply (result_keys_bounded (H := UtcHost.host) "u1" Examples.myRoster
           Examples.dynasty Examples.oneSeason).
  vm_compute. by eexists.
Defined.

(** X16. The most recent acquisition wins: once a transaction created at
    a positive time has added a player of the roster, whatever events
    come before and after it, the player's final record is dated at that
    time or later and its kind is known.  In particular no draft pick
    and no earlier transaction replaces it. *)
Theorem record_not_older_than_any_add `{Host} (roster : SleeperRoster)
    (leagueDetails : option SleeperLeague) (before after : list Event)
    (transaction : SleeperTransaction) (p : string) (st : FuseState) :
  p ∈ players roster ->
  0 < created transaction ->
  datedSince
    (acquisitions
       (foldl (applyEvent roster leagueDetails) st
          (before ++ AddEvent transaction p :: after)))
    p (created transaction).
Proof.
  intros Hin Hpos. rewrite foldl_app. cbn [foldl applyEvent].
  apply (FuserFacts.foldl_preserves (applyEvent roster leagueDetails)
           (fun s => datedSince (acquisitions s) p (created transaction))
           (fun _ => True)).
  - intros s e _. by apply applyEvent_dated.
  - by apply Forall_true.
  - by apply applyAdd_dated.
Qed.

Lemma record_not_older_than_any_add_witness :
  datedSince
    (acquisitions
       (foldl (applyEvent (H := UtcHost.host) Examples.myRoster
                 Examples.dynasty)
          Examples.rookieState
          ([] ++ AddEvent Examples.novemberTrade "6794"
              :: [ PickEvent false Examples.season2023
                     (Examples.pickOf "6794" 1 3);
                   AddEvent
                     (Examples.tx "t0" "waiver" [1] [("6794"%string, 1)]
                        1690000000000) "6794" ])))
    "6794" 1700000000000.
Proof.
  apply (record_not_older_than_any_add (H := UtcHost.host) Examples.myRoster
           Examples.dynasty [] _ Examples.novemberTrade "6794").
  - apply list_elem_of_In. simpl. tauto.
  - simpl. lia.
Defined.

End ResultFacts.

(** ** The lineage walker: empty results and whole chains *)

Module ChainFacts.
Import Api Props Chains.

Lemma historyLoop_extends
    (remote : nat -> string -> Response (option LeagueHistoryData))
    (abortAt : option nat) (fuel : nat) :
  forall (i : nat) (cur : option string) (history : list LeagueHistory)
         (visited : gset string) (e : LoopExit),
  historyLoop fuel remote abortAt i cur history visited = Some e ->
  exists suffix, exitHistory e = history ++ suffix.
Proof.
  induction fuel as [|fuel IH]; intros i cur history visited e; [done|].
  cbn [historyLoop].
  assert (forall e', exitHistory e' = history ->
                     exists suffix, exitHistory e' = history ++ suffix)
    as Hsame.
  { intros e' ->. exists []. by rewrite app_nil_r. }
  destruct cur as [cur|]; [|intros [= <-]; by apply Hsame].
  destruct (negb _); [intros [= <-]; by apply Hsame|].
  destruct (aborted abortAt (3 * i)); [intros [= <-]; by apply Hsame|].
  destruct (aborted abortAt (3 * i + 1)); [intros [= <-]; by apply Hsame|].
  destruct (remote i cur) as [[data|]|];
    [|intros [= <-]; by apply Hsame..].
  destruct (_ && _).
  - intros [= <-]. cbn [exitHistory]. by eexists.
  - intros Hrun. destruct (IH _ _ _ _ _ Hrun) as (suffix & ->).
    eexists. by rewrite <- app_assoc.
Qed.

Lemma afterLoop_nonempty
    (remote : nat -> string -> Response (option LeagueHistoryData))
    (abortAt : option nat) (leagueId : string) (e : LoopExit) :
  exitHistory e <> [] -> afterLoop remote abortAt leagueId e <> [].
Proof.
  assert (forall h : list LeagueHistory, h <> [] -> rev h <> []) as Hrev.
  { intros h Hh Hr. apply Hh. apply (f_equal (@rev _)) in Hr.
    by rewrite rev_involutive in Hr. }
  destruct e as [h|h|h cur i]; cbn [exitHistory afterLoop];
    [by apply Hrev..|].
  intros Hh. destruct h as [|n h]; [done|].
  cbn [length Nat.eqb Nat.ltb Nat.leb andb]. by apply Hrev.
Qed.

(** X17. The walker returns the empty sequence in exactly three cases:
    the league identifier is empty, the run is cancelled before the first
    answer, or the first answer has no body.  In every other case, the
    failure of the first request included, [getPlayerAcquisitions]
    receives a lineage that is not empty. *)
Theorem history_empty_iff
    (remote : nat -> string -> Response (option LeagueHistoryData))
    (abortAt : option nat) (leagueId : string) :
  getLeagueHistory remote abortAt leagueId = Some []
  <-> JS.truthyStr leagueId = false
      \/ aborted abortAt 1 = true
      \/ remote 0%nat leagueId = Ok None.
Proof.
  unfold getLeagueHistory, getLeagueHistoryFuel.
  change 11%nat with (S 10). generalize 10%nat. intros fuel.
  cbn [historyLoop].
  destruct (JS.truthyStr leagueId) eqn:Hid; cbn [andb negb length Nat.ltb
                                                  Nat.leb];
    [|split; [by left | done]].
  rewrite (bool_decide_eq_false_2 (leagueId ∈ (∅ : gset string)))
    by set_solver.
  cbn [negb Nat.mul Nat.add].
  destruct (aborted abortAt 0) eqn:Hab0.
  { split; [|done]. intros _. right. left.
    destruct (aborted abortAt 1) eqn:Hab1; [done|].
    by rewrite (SessionFacts.aborted_mono abortAt 1 0 ltac:(lia) Hab1)
      in Hab0. }
  destruct (aborted abortAt 1) eqn:Hab1; [split; [by right; left | done]|].
  destruct (remote 0%nat leagueId) as [[data|]|] eqn:Hfirst.
  - split; [|by intros [?|[?|?]]].
    intros Hempty. exfalso.
    destruct (JS.truthyOpt (previous_league_id data) && aborted abortAt 2).
    + by cbn in Hempty.
    + match type of Hempty with
      | context [historyLoop ?f ?r ?a ?i ?c ?h ?v] =>
          destruct (historyLoop f r a i c h v) as [e|] eqn:Hrun
      end; [|done].
      destruct (historyLoop_extends _ _ _ _ _ _ _ _ Hrun) as (suffix & Hs).
      injection Hempty as Hempty.
      by apply (afterLoop_nonempty remote abortAt leagueId e);
        [rewrite Hs|].
  - split; [by intros _; right; right | done].
  - split; [|by intros [?|[?|?]]].
    cbn [fmap option_fmap option_map afterLoop length Nat.eqb Nat.ltb Nat.leb
         andb].
    case_bool_decide; [|done].
    destruct (aborted abortAt (3 * 0 + 2)); [intros ?; discriminate|].
    destruct (remote 1%nat leagueId) as [[?|]|]; intros ?; discriminate.
Qed.

(** *** Chains *)

Lemma chainFrom_functional (info : string -> option LeagueHistoryData)
    (cur : option string) (l1 l2 : list LeagueHistory) :
  chainFrom info cur l1 -> chainFrom info cur l2 -> l1 = l2.
Proof.
  intros H1. revert l2.
  induction H1 as [cur Hcur|id Hid Hinfo|id data rest Hid Hinfo _ IH];
    intros l2 H2; inversion H2; subst; try done; cbn in *; try congruence.
  assert (data0 = data) as -> by congruence.
  f_equal. by apply IH.
Qed.

Lemma chainFrom_suffix (info : string -> option LeagueHistoryData)
    (cur : option string) (chain : list LeagueHistory) (n : LeagueHistory) :
  chainFrom info cur chain -> n ∈ chain ->
  exists l1 l2, chain = l1 ++ n :: l2
                /\ chainFrom info (Some (league_id n)) (n :: l2).
Proof.
  induction 1 as [cur Hcur|id Hid Hinfo|id data rest Hid Hinfo Hrest IH].
  - by intros ?%elem_of_nil.
  - by intros ?%elem_of_nil.
  - intros [->|Hin]%elem_of_cons.
    + exists [], rest. split; [done|]. by apply chain_step.
    + destruct (IH Hin) as (l1 & l2 & -> & Hchain).
      by exists (nodeOf id data :: l1), l2.
Qed.

(** A chain that ends visits no league twice. *)
Lemma chainFrom_NoDup (info : string -> option LeagueHistoryData)
    (cur : option string) (chain : list LeagueHistory) :
  chainFrom info cur chain -> NoDup (league_id <$> chain).
Proof.
  induction 1 as [cur Hcur|id Hid Hinfo|id data rest Hid Hinfo Hrest IH];
    [apply NoDup_nil_2..|].
  cbn [fmap list_fmap]. apply NoDup_cons. split; [|done].
  intros (n & Heq & Hin)%list_elem_of_fmap. cbn [nodeOf league_id] in Heq.
  destruct (chainFrom_suffix info _ rest n Hrest Hin)
    as (l1 & l2 & -> & Hchain).
  rewrite <- Heq in Hchain.
  pose proof (chain_step info id data _ Hid Hinfo Hrest) as Hwhole.
  pose proof (chainFrom_functional info _ _ _ Hchain Hwhole) as Hsame.
  apply (f_equal length) in Hsame. rewrite !length_cons, length_app in Hsame.
  cbn [length] in Hsame. lia.
Qed.

Lemma historyLoop_chain (info : string -> option LeagueHistoryData)
    (cur : option string) (rest : list LeagueHistory) :
  chainFrom info cur rest ->
  forall (fuel i : nat) (history : list LeagueHistory) (visited : gset string),
  NoDup (league_id <$> rest) ->
  (forall n, n ∈ rest -> league_id n ∉ visited) ->
  (10 - length history < fuel)%nat ->
  historyLoop fuel (reliable info) None i cur history visited
  = Some (Finished (history ++ take (10 - length history) rest)).
Proof.
  induction 1 as [cur Hcur|id Hid Hinfo|id data rest Hid Hinfo Hrest IH];
    intros fuel i history visited Hnodup Hfresh Hfuel;
    (destruct fuel as [|fuel]; [lia|]); cbn [historyLoop aborted].
  - rewrite take_nil, app_nil_r.
    destruct cur as [cur|]; [|done]. cbn in Hcur. by rewrite Hcur.
  - rewrite take_nil, app_nil_r. rewrite Hid. cbn [andb].
    destruct (_ && _); cbn [negb]; [|done].
    unfold reliable. by rewrite Hinfo.
  - rewrite Hid. cbn [andb].
    destruct (Nat.ltb_spec (length history) 10) as [Hlt|Hge]; cbn [andb negb].
    + rewrite bool_decide_eq_false_2
        by (apply (Hfresh (nodeOf id data)), elem_of_cons; by left).
      cbn [negb]. unfold reliable at 1. rewrite Hinfo.
      rewrite andb_false_r. fold (nodeOf id data).
      cbn [fmap list_fmap] in Hnodup. apply NoDup_cons in Hnodup as [Hid' Hnd].
      rewrite IH; [| done | | rewrite length_app; cbn [length]; lia].
      * rewrite length_app. cbn [length].
        replace (10 - length history)%nat
          with (S (10 - (length history + 1)))%nat by lia.
        cbn [take]. by rewrite <- app_assoc.
      * intros n Hn [Heq%elem_of_singleton|Hv]%elem_of_union.
        -- apply Hid'. apply list_elem_of_fmap. exists n.
           split; [by rewrite Heq | done].
        -- apply (Hfresh n); [apply elem_of_cons; by right | done].
    + replace (10 - length history)%nat with 0%nat by lia.
      by rewrite take_0, app_nil_r.
Qed.

(** X18. On a network that answers every request, without cancellation,
    the walker returns the chain of leagues that the previous-league
    pointers lead through from the starting league, oldest first; of a
    chain longer than ten leagues it returns the ten most recent. *)
Theorem history_of_chain (info : string -> option LeagueHistoryData)
    (leagueId : string) (chain : list LeagueHistory) :
  chainFrom info (Some leagueId) chain ->
  getLeagueHistory (reliable info) None leagueId = Some (rev (take 10 chain)).
Proof.
  intros Hchain. unfold getLeagueHistory, getLeagueHistoryFuel.
  rewrite (historyLoop_chain info _ chain Hchain 11 0 [] ∅);
    [done | by eapply chainFrom_NoDup | set_solver | cbn; lia].
Qed.

Lemma history_of_chain_witness :
  getLeagueHistory
    (reliable (fun id =>
       if String.eqb id "L2"
       then Some {| lhd_season := "2024";
                    previous_league_id := Some "L1"%string |}
       else if String.eqb id "L1"
       then Some {| lhd_season := "2023"; previous_league_id := None |}
       else None))
    None "L2"
  = Some [ {| league_id := "L1"; previousLeagueId := None;
              season := "2023" |};
           {| league_id := "L2"; previousLeagueId := Some "L1"%string;
              season := "2024" |} ].
Proof.
  apply (history_of_chain _ "L2"
           [ {| league_id := "L2"; previousLeagueId := Some "L1"%string;
                season := "2024" |};
             {| league_id := "L1"; previousLeagueId := None;
                season := "2023" |} ]).
  apply (chain_step _ "L2"
           {| lhd_season := "2024"; previous_league_id := Some "L1"%string |});
    [reflexivity..|].
  apply (chain_step _ "L1"
           {| lhd_season := "2023"; previous_league_id := None |});
    [reflexivity..|].
  by apply chain_stop.
Defined.

End ChainFacts.

(** ** Numerals read back *)

Module NumeralFacts.

Lemma digit_value (d : Z) :
  0 <= d < 10 ->
  UtcHost.isDigit (JS.digit d) = true /\ UtcHost.digitValue (JS.digit d) = d.
Proof.
  intros Hd.
  assert (d = 0 \/ d = 1 \/ d = 2 \/ d = 3 \/ d = 4 \/ d = 5 \/ d = 6
          \/ d = 7 \/ d = 8 \/ d = 9) as Hcases by lia.
  by repeat (destruct Hcases as [->|Hcases]; [done|]); subst.
Qed.

Lemma digits_step (fuel : nat) (n : Z) (rest : string) :
  JS.digits (S fuel) n rest
  = if n <? 10 then String (JS.digit (n mod 10)) rest
    else JS.digits fuel (n / 10) (String (JS.digit (n mod 10)) rest).
Proof. reflexivity. Qed.

Lemma leadingDigits_digits (fuel : nat) :
  forall (n : Z) (rest : string) (acc : option Z),
  0 <= n < 2 ^ Z.of_nat (S fuel) ->
  exists P : Z,
    UtcHost.leadingDigits (JS.digits (S fuel) n rest) acc
    = UtcHost.leadingDigits rest (Some (P * default 0 acc + n)).
Proof.
  induction fuel as [|fuel IH]; intros n rest acc Hn.
  - rewrite digits_step. change (2 ^ Z.of_nat 1) with 2 in Hn.
    destruct (Z.ltb_spec n 10) as [_|?]; [|lia].
    rewrite Z.mod_small by lia. exists 10.
    cbn [UtcHost.leadingDigits].
    destruct (digit_value n ltac:(lia)) as [-> ->]. done.
  - rewrite digits_step. destruct (Z.ltb_spec n 10) as [Hlt|Hge].
    + rewrite Z.mod_small by lia. exists 10.
      cbn [UtcHost.leadingDigits].
      destruct (digit_value n ltac:(lia)) as [-> ->]. done.
    + destruct (IH (n / 10) (String (JS.digit (n mod 10)) rest) acc)
        as [P HP].
      { split; [apply Z.div_pos; lia|].
        apply Z.div_lt_upper_bound; [lia|].
        rewrite (Nat2Z.inj_succ (S fuel)), Z.pow_succ_r in Hn by lia. lia. }
      exists (10 * P). rewrite HP. cbn [UtcHost.leadingDigits].
      destruct (digit_value (n mod 10)) as [-> ->];
        [apply Z.mod_pos_bound; lia|].
      cbn [default].
      apply (f_equal (UtcHost.leadingDigits rest)), (f_equal Some).
      pose proof (Z.div_mod n 10 ltac:(lia)). unfold id. lia.
Qed.

(** The decimal numeral of a non-negative integer reads back as it. *)
Lemma leadingDigits_toString (z : Z) :
  0 <= z -> UtcHost.leadingDigits (JS.toString z) None = Some z.
Proof.
  intros Hz. unfold JS.toString.
  destruct (Z.ltb_spec z 0) as [?|_]; [lia|].
  destruct (leadingDigits_digits (Z.to_nat (Z.log2 z)) z EmptyString None)
    as [P ->].
  - split; [done|]. rewrite Nat2Z.inj_succ, Z2Nat.id by apply Z.log2_nonneg.
    destruct (decide (z = 0)) as [->|Hne]; [done|].
    apply Z.log2_spec. lia.
  - cbn. apply (f_equal Some). lia.
Qed.

End NumeralFacts.

(** ** The seasons of a user *)

Module SeasonsFacts.
Import Api Session Seasons.

Lemma parseInt_toString (z : Z) : 0 <= z -> parseInt (JS.toString z) = JS.Num z.
Proof.
  intros Hz. unfold parseInt. by rewrite NumeralFacts.leadingDigits_toString.
Qed.

Lemma yearLoop_no_abort {L : Type} (leaguesOf : string -> option (list L))
    (years : list string) :
  forall (k : nat) (availableYears : list string),
  yearLoop leaguesOf None k years availableYears
  = Returned (availableYears
              ++ List.filter (fun y => nonEmpty (leaguesOf y)) years).
Proof.
  induction years as [|y years IH]; intros k availableYears;
    cbn [yearLoop aborted List.filter].
  - by rewrite app_nil_r.
  - rewrite IH. destruct (nonEmpty (leaguesOf y)); [|done].
    by rewrite <- app_assoc.
Qed.

Lemma foldl_rev_foldr {A B : Type} (f : A -> B -> A) (l : list B) (a : A) :
  foldl f a (rev l) = foldr (fun x acc => f acc x) a l.
Proof.
  induction l as [|x l IH]; cbn [rev foldr]; [done|].
  by rewrite foldl_snoc, IH.
Qed.

Lemma filter_fmap_swap {A B : Type} (f : A -> B) (q : B -> bool)
    (l : list A) :
  List.filter q (f <$> l) = f <$> List.filter (fun x => q (f x)) l.
Proof.
  induction l as [|x l IH]; cbn [fmap list_fmap List.filter]; [done|].
  rewrite IH. by destruct (q (f x)).
Qed.

Lemma filter_descending (q : Z -> bool) (l : list Z) :
  StronglySorted (fun a b => b < a) l ->
  StronglySorted (fun a b => b < a) (List.filter q l).
Proof.
  induction 1 as [|x l Hl IH Hx]; cbn [List.filter]; [constructor|].
  destruct (q x); [|done]. constructor; [done|].
  apply Forall_forall. intros y Hy%list_elem_of_In%filter_In.
  rewrite Forall_forall in Hx. apply Hx, list_elem_of_In. tauto.
Qed.

(** Sorting the numerals of a descending list, given in ascending order,
    newest first. *)
Lemma sort_years_descending (l : list Z) :
  Forall (fun z => 0 <= z) l ->
  StronglySorted (fun a b => b < a) l ->
  JS.sort laterYear (rev (JS.toString <$> l)) = JS.toString <$> l.
Proof.
  intros Hpos Hsorted. unfold JS.sort. rewrite foldl_rev_foldr.
  induction Hsorted as [|z l Hl IH Hz]; cbn [fmap list_fmap foldr]; [done|].
  inversion Hpos as [|? ? Hz0 Hl0]; subst. rewrite (IH Hl0).
  destruct l as [|y l]; [done|]. cbn [fmap list_fmap JS.insertSorted].
  inversion Hl0; subst. inversion Hz; subst.
  unfold laterYear. rewrite !parseInt_toString by lia.
  by destruct (Z.ltb_spec (y - z) 0); [|lia].
Qed.

Lemma years_descending (c : Z) (n : nat) :
  forall s : nat,
  StronglySorted (fun a b => b < a)
    ((fun i : nat => c - Z.of_nat i + 1) <$> seq s n).
Proof.
  induction n as [|n IH]; intros s; cbn [seq fmap list_fmap]; [constructor|].
  constructor; [apply IH|].
  apply Forall_fmap, Forall_forall. intros i Hi%elem_of_seq. cbn. lia.
Qed.

(** X19. [getUserSeasons], when there is no fresh entry and the run is
    not cancelled, returns the years from next year back to 2018 in which
    [getUserLeagues] found at least one league, the most recent first,
    and stores that list in the session cache. *)
Theorem user_seasons_newest_first {L : Type} (userId : string)
    (currentYear now : Z) (leaguesOf : string -> option (list L))
    (cache : gmap string (CacheEntry (list string))) :
  sessionHit cache userId now = None ->
  getUserSeasons userId currentYear now leaguesOf None cache
  = (Returned
       (List.filter (fun y => nonEmpty (leaguesOf y))
          ((fun i : nat => JS.toString (currentYear - Z.of_nat i + 1))
             <$> seq 0 (Z.to_nat (currentYear - 2017 + 1)))),
     <[userId :=
         {| ce_data :=
              List.filter (fun y => nonEmpty (leaguesOf y))
                ((fun i : nat => JS.toString (currentYear - Z.of_nat i + 1))
                   <$> seq 0 (Z.to_nat (currentYear - 2017 + 1)));
            ce_timestamp := now |}]> cache).
Proof.
  intros Hmiss. unfold getUserSeasons. rewrite Hmiss.
  rewrite yearLoop_no_abort. cbn [app]. unfold potentialYears.
  set (n := Z.to_nat (currentYear - 2017 + 1)).
  assert ((fun i : nat => JS.toString (currentYear - Z.of_nat i + 1)) <$> seq 0 n
          = JS.toString <$> ((fun i : nat => currentYear - Z.of_nat i + 1)
                               <$> seq 0 n)) as ->
    by (by rewrite <- list_fmap_compose).
  rewrite filter_rev, filter_fmap_swap.
  rewrite sort_years_descending; [done| |].
  - apply Forall_forall. intros z Hz%list_elem_of_In%filter_In.
    destruct Hz as [Hz%list_elem_of_In _].
    apply list_elem_of_fmap in Hz as (i & -> & Hi%elem_of_seq). lia.
  - apply filter_descending, years_descending.
Qed.

Lemma user_seasons_newest_first_witness :
  (getUserSeasons (L := unit) "u1" 2020 5000
     (fun y => if String.eqb y "2019" || String.eqb y "2021"
               then Some [tt] else Some [])
     None ∅).1
  = Returned ["2021"; "2019"]%string.
Proof.
  rewrite (user_seasons_newest_first (L := unit)); [|reflexivity].
  vm_compute. reflexivity.
Defined.

End SeasonsFacts.

(** ** The player table and the summary card *)

Module TableFacts.
Import Api Table.

Section Rows.
Context (toISOString : Z -> string).
Context (playersInfo : gmap string SleeperPlayer).
Context (acquisitionsData : gmap string Acquisition).




End Rows.


(** *** The summary card *)





End TableFacts.
